(** * A shallow embedding of the portfolio site's scripts

    The site is a set of browser scripts: the overview page script (project
    and blog grids, contact form), the variant of it kept under
    [js/script.js], whose form handler simulates the submission, the
    project detail page script and the blog detail page script.  Each
    script is embedded as a Rocq module of pure functions over an explicit
    page state.

    Conventions of the embedding:
    - a JavaScript string is a [string] whose characters are UTF-16 code
      units in the range 0..255;
    - a JavaScript number is an integer [Z] (the scripts only count, compare
      and print whole numbers);
    - the DOM is kept as the list of children of the containers the scripts
      write to, every element carrying a unique identity, so that a callback
      which captured an element can remove exactly that element later;
    - [setTimeout] callbacks are defunctionalised into a [task] type and kept
      in a queue of pending timers;
    - an [await]ed [fetch] is split into the part that runs before the
      request is issued and the part that runs once it settles, the outcome
      of the request being an argument of the latter;
    - CSS classes, inline styles, animation timers and console logging have
      no influence on what the functions compute and are left out. *)

From Stdlib Require Import ZArith Lia Ascii String List Bool.
From Stdlib Require Import DecimalString DecimalZ DecimalN DecimalPos.
From stdpp Require Import base gmap strings list.
From Stdlib Require QArith Lqa.

Local Open Scope Z_scope.

(* ================================================================== *)
(** * JavaScript primitives *)
(* ================================================================== *)

Module JS.

(** ** Characters *)

Definition nl : ascii := "010"%char.
Definition cr : ascii := "013"%char.
Definition dquote : ascii := "034"%char.

Definition code (c : ascii) : nat := nat_of_ascii c.

(** [LineTerminator]: the characters [.] does not match and at which
    [^] and [$] anchor in multiline mode (LF and CR in the modelled range). *)
Definition is_line_terminator (c : ascii) : bool :=
  (code c =? 10)%nat || (code c =? 13)%nat.

(** [\s], also the set stripped by [String.prototype.trim]:
    TAB, LF, VT, FF, CR, SPACE and NBSP. *)
Definition is_whitespace (c : ascii) : bool :=
  ((9 <=? code c)%nat && (code c <=? 13)%nat)
  || (code c =? 32)%nat || (code c =? 160)%nat.

(** [\d] *)
Definition is_digit (c : ascii) : bool :=
  (48 <=? code c)%nat && (code c <=? 57)%nat.

(** [\w] = [A-Za-z0-9_] *)
Definition is_word_char (c : ascii) : bool :=
  is_digit c
  || ((65 <=? code c)%nat && (code c <=? 90)%nat)
  || ((97 <=? code c)%nat && (code c <=? 122)%nat)
  || (code c =? 95)%nat.

(** ** Strings *)

Definition str_length (s : string) : Z := Z.of_nat (String.length s).

(** [s.startsWith(p)], returning what follows the prefix. *)
Fixpoint strip_prefix (p s : string) : option string :=
  match p with
  | EmptyString => Some s
  | String a p' =>
      match s with
      | EmptyString => None
      | String b s' => if Ascii.eqb a b then strip_prefix p' s' else None
      end
  end.

(** The longest prefix of characters satisfying [f], and the rest. *)
Fixpoint span (f : ascii -> bool) (s : string) : string * string :=
  match s with
  | EmptyString => (EmptyString, EmptyString)
  | String c r =>
      if f c then let '(a, b) := span f r in (String c a, b)
      else (EmptyString, s)
  end.

Fixpoint drop_while (f : ascii -> bool) (s : string) : string :=
  match s with
  | EmptyString => EmptyString
  | String c r => if f c then drop_while f r else s
  end.

Fixpoint all_chars (f : ascii -> bool) (s : string) : bool :=
  match s with
  | EmptyString => true
  | String c r => f c && all_chars f r
  end.

(** Removes trailing characters satisfying [f]. *)
Fixpoint drop_while_end (f : ascii -> bool) (s : string) : string :=
  match s with
  | EmptyString => EmptyString
  | String c r =>
      match drop_while_end f r with
      | EmptyString => if f c then EmptyString else String c EmptyString
      | r' => String c r'
      end
  end.

(** [s.trim()] *)
Definition trim (s : string) : string :=
  drop_while_end is_whitespace (drop_while is_whitespace s).

(** [s.substring(0, n)] for [0 <= n]. *)
Definition substring_to (n : nat) (s : string) : string :=
  String.substring 0 n s.

(** ** Values that occur as record identifiers *)

Inductive value :=
| VUndefined
| VNull
| VBool (b : bool)
| VNum (n : Z)
| VStr (s : string).

(** [a === b]: no coercion, values of different types are never equal. *)
Definition strict_eq (a b : value) : bool :=
  match a, b with
  | VUndefined, VUndefined => true
  | VNull, VNull => true
  | VBool x, VBool y => Bool.eqb x y
  | VNum x, VNum y => Z.eqb x y
  | VStr x, VStr y => String.eqb x y
  | _, _ => false
  end.

(** ToBoolean *)
Definition truthy (v : value) : bool :=
  match v with
  | VUndefined | VNull => false
  | VBool b => b
  | VNum n => negb (Z.eqb n 0)
  | VStr s => negb (String.eqb s EmptyString)
  end.


(** Number::toString for a safe integer. *)
Definition number_to_string (n : Z) : string :=
  NilZero.string_of_int (Z.to_int n).

(** ToString, as applied by template literals and by [Storage.setItem]. *)
Definition to_string (v : value) : string :=
  match v with
  | VUndefined => "undefined"
  | VNull => "null"
  | VBool true => "true"
  | VBool false => "false"
  | VNum n => number_to_string n
  | VStr s => s
  end.

(** ** parseInt *)






End JS.


(* ================================================================== *)
(** * Blog detail page: markdown conversion *)
(* ================================================================== *)

Module Markdown.
Import JS.

(** ** Global replacement

    [s.replace(re, tpl)] with a global regular expression scans [s] from
    left to right; at each position it either finds a match starting
    there, emits the instantiated template and resumes after the match,
    or copies one character.  A matcher [m] receives the remaining input
    and answers with the instantiated template and the number of
    characters the match consumes (always at least one for the regular
    expressions of this script).  [skip] counts the characters of the
    current match that are still to be passed over. *)

Definition matcher := string -> option (string * nat).

Fixpoint replace_all (m : matcher) (skip : nat) (s : string) : string :=
  match s with
  | EmptyString => EmptyString
  | String c r =>
      match skip with
      | S k => replace_all m k r
      | O =>
          match m s with
          | Some (out, n) => out +:+ replace_all m (Nat.pred n) r
          | None => String c (replace_all m O r)
          end
      end
  end.

(** A lazy group followed by a closing delimiter, [(.*?)D] or
    [([\s\S]*?)D]: the shortest run of characters (not crossing a line
    terminator unless [multiline]) after which [D] follows.  Returns the
    run and what follows the delimiter. *)
Fixpoint find_close (multiline : bool) (delim : string) (s : string)
  : option (string * string) :=
  match strip_prefix delim s with
  | Some rest => Some (EmptyString, rest)
  | None =>
      match s with
      | EmptyString => None
      | String c r =>
          if negb multiline && is_line_terminator c then None
          else
            match find_close multiline delim r with
            | Some (inner, rest) => Some (String c inner, rest)
            | None => None
            end
      end
  end.

(** [/D(.*?)D/] at the current position, template [opn $1 cls]. *)
Definition span_matcher (delim opn cls : string) : matcher := fun s =>
  match strip_prefix delim s with
  | Some body =>
      match find_close false delim body with
      | Some (inner, _) =>
          Some (opn +:+ inner +:+ cls,
                (String.length delim + String.length inner
                 + String.length delim)%nat)
      | None => None
      end
  | None => None
  end.

(** [/\*\*(.*?)\*\*/g] *)
Definition bold : matcher := span_matcher "**" "<strong>" "</strong>".
(** [/\*(.*?)\*/g] *)
Definition italic : matcher := span_matcher "*" "<em>" "</em>".
(** [/`(.*?)`/g] *)
Definition inline_code : matcher := span_matcher "`" "<code>" "</code>".

Definition fence : string := "```".

(** [/```(\w+)?\n([\s\S]*?)```/g]: the optional language tag is the
    longest run of word characters (a shorter run is never followed by
    the line feed the pattern needs next). *)
Definition code_block : matcher := fun s =>
  match strip_prefix fence s with
  | Some after_fence =>
      let '(lang, after_lang) := span is_word_char after_fence in
      match after_lang with
      | String c body =>
          if Ascii.eqb c nl then
            match find_close true fence body with
            | Some (inner, _) =>
                Some ("<pre><code class=" +:+ String dquote ("language-" +:+ lang)
                        +:+ String dquote ">" +:+ inner +:+ "</code></pre>",
                      (3 + String.length lang + 1 + String.length inner + 3)%nat)
            | None => None
            end
          else None
      | EmptyString => None
      end
  | None => None
  end.

(** [/\n\n/g] *)
Definition paragraph : matcher := fun s =>
  match s with
  | String a (String b _) =>
      if Ascii.eqb a nl && Ascii.eqb b nl then Some ("</p><p>", 2%nat) else None
  | _ => None
  end.

(** [/\[([^\]]+)\]\(([^)]+)\)/g]: both groups are greedy runs that stop
    at the first closing character. *)
Definition link : matcher := fun s =>
  match s with
  | String "[" body =>
      let '(text, after_text) := span (fun c => negb (Ascii.eqb c "]")) body in
      match text, strip_prefix "](" after_text with
      | String _ _, Some body2 =>
          let '(url, after_url) := span (fun c => negb (Ascii.eqb c ")")) body2 in
          match url, after_url with
          | String _ _, String ")" _ =>
              Some ("<a href=" +:+ String dquote url +:+ String dquote " target="
                      +:+ String dquote "_blank" +:+ String dquote " rel="
                      +:+ String dquote "noopener noreferrer" +:+ String dquote ">"
                      +:+ text +:+ "</a>",
                    (1 + String.length text + 2 + String.length url + 1)%nat)
          | _, _ => None
          end
      | _, _ => None
      end
  | _ => None
  end.

(** ** Line-anchored replacement

    With the [m] flag [^] matches at the start of the input and after
    every line terminator, and [(.*$)] takes the rest of the line, so a
    global replacement of [/^P(.*$)/gm] rewrites each line on its own. *)

(** The first line, then every further line with the terminator before it. *)
Fixpoint split_lines (s : string) : string * list (ascii * string) :=
  match s with
  | EmptyString => (EmptyString, [])
  | String c r =>
      let '(l, ls) := split_lines r in
      if is_line_terminator c then (EmptyString, (c, l) :: ls)
      else (String c l, ls)
  end.

Fixpoint join_lines (ls : list (ascii * string)) : string :=
  match ls with
  | [] => EmptyString
  | (c, l) :: ls' => String c (l +:+ join_lines ls')
  end.

Definition map_lines (f : string -> string) (s : string) : string :=
  let '(l, ls) := split_lines s in
  f l +:+ join_lines (List.map (fun '(c, x) => (c, f x)) ls).

(** One line under [/^P(.*$)/]: [opn $1 cls] when the line starts with
    the marker. *)
Definition mark_line (marker opn cls : string) (line : string) : string :=
  match strip_prefix marker line with
  | Some rest => opn +:+ rest +:+ cls
  | None => line
  end.

(** One line under [/^\d+\. (.*$)/]. *)
Definition numbered_line (line : string) : string :=
  match span is_digit line with
  | (String _ _, after_digits) =>
      match strip_prefix ". " after_digits with
      | Some rest => "<li>" +:+ rest +:+ "</li>"
      | None => line
      end
  | _ => line
  end.

(** ** The single list wrapper

    [/(<li>.*<\/li>)/s] without the [g] flag: the first [<li>] up to the
    last [</li>] of the whole input, once. *)

Fixpoint find_first (d : string) (s : string) : option (string * string) :=
  match strip_prefix d s with
  | Some rest => Some (EmptyString, rest)
  | None =>
      match s with
      | EmptyString => None
      | String c r =>
          match find_first d r with
          | Some (a, b) => Some (String c a, b)
          | None => None
          end
      end
  end.

Fixpoint find_last (d : string) (s : string) : option (string * string) :=
  match s with
  | EmptyString => None
  | String c r =>
      match find_last d r with
      | Some (a, b) => Some (String c a, b)
      | None =>
          match strip_prefix d s with
          | Some b => Some (EmptyString, b)
          | None => None
          end
      end
  end.

Definition wrap_list (s : string) : string :=
  match find_first "<li>" s with
  | Some (before, after_open) =>
      match find_last "</li>" after_open with
      | Some (inner, after) =>
          before +:+ "<ul><li>" +:+ inner +:+ "</li></ul>" +:+ after
      | None => s
      end
  | None => s
  end.

(** ** convertMarkdownToHTML

    The replacements in the order of the source, grouped as its comments
    group them. *)

(** Headers *)
Definition headers (s : string) : string :=
  let s := map_lines (mark_line "### " "<h3>" "</h3>") s in
  let s := map_lines (mark_line "## " "<h2>" "</h2>") s in
  map_lines (mark_line "# " "<h1>" "</h1>") s.

(** Bold, then italic *)
Definition emphasis (s : string) : string :=
  replace_all italic 0 (replace_all bold 0 s).

(** Code blocks, then inline code *)
Definition code (s : string) : string :=
  replace_all inline_code 0 (replace_all code_block 0 s).

(** Line breaks *)
Definition lineBreaks (s : string) : string :=
  replace_all paragraph 0 s.

(** Lists *)
Definition lists (s : string) : string :=
  let s := map_lines (mark_line "- " "<li>" "</li>") s in
  let s := wrap_list s in
  map_lines numbered_line s.

(** Links (basic) *)
Definition links (s : string) : string :=
  replace_all link 0 s.

Definition convertMarkdownToHTML (content : string) : string :=
  links (lists (lineBreaks (code (emphasis (headers content))))).

End Markdown.


(* ================================================================== *)
(** * Fetched documents *)
(* ================================================================== *)

(** A parsed JSON document.  The records of an array are kept in the typed
    form in which the scripts read them ([R] is the record type). *)
#[warnings="-register-all"]
Inductive json (R : Type) : Type :=
| JNull
| JBool (b : bool)
| JNum (n : Z)
| JStr (s : string)
| JArr (items : list R)
| JObj (members : list (string * json R)).

Arguments JNull {R}.
Arguments JBool {R} b.
Arguments JNum {R} n.
Arguments JStr {R} s.
Arguments JArr {R} items.
Arguments JObj {R} members.

(** How a [fetch] followed by [response.json()] can end. *)
Inductive fetched (R : Type) : Type :=
| Rejected                                   (* the fetch promise rejects *)
| Response (ok : bool) (body : option (json R)).
                                             (* [None]: [json()] rejects *)

Arguments Rejected {R}.
Arguments Response {R} ok body.

Section Json.
Context {R : Type}.

(** [JSON.parse] keeps the last of several members with the same key. *)
Fixpoint member (key : string) (ms : list (string * json R))
  : option (json R) :=
  match ms with
  | [] => None
  | (k, v) :: ms' =>
      match member key ms' with
      | Some v' => Some v'
      | None => if String.eqb k key then Some v else None
      end
  end.

(** ToBoolean of a parsed document. *)
Definition json_truthy (d : json R) : bool :=
  match d with
  | JNull => false
  | JBool b => b
  | JNum n => negb (Z.eqb n 0)
  | JStr s => negb (String.eqb s EmptyString)
  | JArr _ | JObj _ => true
  end.
End Json.

(** A project record of [data/projects.json], with the fields the overview
    page reads. *)
Record project := {
  id : JS.value;
  title : string;
  description : string;
  technologies : list string;
  image : option string;
}.

(** A blog record of [data/blogs.json], with the fields the overview page
    and the blog detail page read. *)
Record blog := {
  blog_id : JS.value;
  blog_title : string;
  shortDescription : string;
  keywords : list string;
  category : string;
  publishDate : string;
  readTime : string;
  blog_image : option string;
  author : string;
  tags : list string;
  fullContent : string;
}.

(* ================================================================== *)
(** * Overview page: projects and blogs *)
(* ================================================================== *)

Module Portfolio.
Import JS.

(** ** Configuration *)

Definition projectsDataPath : string := "./data/projects.json".
Definition blogsDataPath : string := "./data/blogs.json".
Definition projectPlaceholder : string :=
  "./assets/images/project-placeholder.jpg".
Definition blogPlaceholder : string := "./assets/images/blog-placeholder.jpg".

(** ** Elements the script creates *)

(** The content of a [div.project-card]. *)
Record card := {
  card_delay : Z;                  (* animationDelay in ms *)
  card_image : string;             (* img src *)
  card_alt : string;               (* img alt *)
  card_title : string;             (* h3.project-title *)
  card_description : string;       (* p.project-description *)
  card_tech : list string;         (* span.tech-tag, in order *)
  card_more_tech : option string;  (* span.tech-tag.more-tech *)
  card_project_id : value;         (* data-project-id; the id the click
                                      listener hands to the detail page *)
  card_loading : bool;             (* the button shows "Loading..." *)
}.

(** The content of a [div.blog-card]; [bcard_date] is the publish date
    that the card shows in its en-US short form. *)
Record blog_card := {
  bcard_delay : Z;
  bcard_image : string;
  bcard_title : string;
  bcard_category : string;
  bcard_date : string;
  bcard_read_time : string;
  bcard_description : string;
  bcard_keywords : list string;
  bcard_more_keywords : option string;
  bcard_blog_id : value;
}.

(** What an [onclick] attribute calls. *)
Inductive handler :=
| CallToggleProjectsView
| CallToggleBlogsView
| CallLoadProjects
| CallLoadBlogs.

Inductive caption :=
| ViewMoreProjects (more : Z)   (* "View More Projects (N more)" *)
| ShowLessProjects              (* "Show Less Projects" *)
| ViewMoreBlogs (more : Z)      (* "View More Blogs (N more)" *)
| CaptionLoading.               (* "Loading..." *)

(** A [button.btn-view-more-projects]. *)
Record button := {
  caption_of : caption;
  onclick : handler;
  disabled : bool;
}.

Inductive widget :=
| ProjectCard (c : card)
| BlogCard (c : blog_card)
| ViewMoreContainer (b : button)   (* div.view-more-container > button *)
| ProjectsLoading                  (* div.projects-loading *)
| ProjectsError (retry : handler)  (* div.projects-error with "Try Again" *)
| BlogsLoading                     (* div.loading-state *)
| BlogsError (retry : handler)     (* div.error-state with "Try Again" *)
| NoBlogsMessage.                  (* div.no-blogs-message *)

Record element := {
  eid : nat;
  widget_of : widget;
}.

(** Callbacks handed to [setTimeout]. *)
Inductive task :=
| ExpandBody (container : nat)       (* expandProjectsView, after 500 ms *)
| AddShowLess                        (* expandProjectsView, inner timer *)
| FadeCard (card : nat)              (* contractProjectsView, per card *)
| RemoveCard (card : nat)            (* contractProjectsView, 400 ms later *)
| RestoreViewMore (container : nat)  (* contractProjectsView, button swap *)
| Navigate (projectId : value)       (* card click listener, after 300 ms *)
| FailsafeCheck.                     (* initializeWebsite, after 3000 ms *)

Definition loc := nat.

(** ** Page state *)

Record page := {
  heap : gmap loc (list project);       (* array objects built by JSON.parse *)
  allProjects : option loc;             (* window.allProjects *)
  allBlogs : option (json blog);        (* window.allBlogs *)
  projectsGrid : option (list element); (* elements.projectsGrid, children *)
  blogsGrid : option (list element);    (* elements.blogsGrid, children *)
  blogsGridFirst : bool;                (* document order of the two grids;
                                           the markup is not part of the
                                           sources *)
  nextId : nat;                         (* identity of the next element *)
  clock : Z;                            (* ms *)
  timers : list (Z * task);             (* due time, callback *)
  requests : list string;               (* URLs fetched so far *)
  sessionStorage : gmap string string;
  location : string;                    (* window.location.href *)
}.

Definition set_heap (v : gmap loc (list project)) (p : page) : page :=
  {| heap := v; allProjects := allProjects p; allBlogs := allBlogs p;
     projectsGrid := projectsGrid p; blogsGrid := blogsGrid p;
     blogsGridFirst := blogsGridFirst p; nextId := nextId p;
     clock := clock p; timers := timers p; requests := requests p;
     sessionStorage := sessionStorage p; location := location p |}.

Definition set_allProjects (v : option loc) (p : page) : page :=
  {| heap := heap p; allProjects := v; allBlogs := allBlogs p;
     projectsGrid := projectsGrid p; blogsGrid := blogsGrid p;
     blogsGridFirst := blogsGridFirst p; nextId := nextId p;
     clock := clock p; timers := timers p; requests := requests p;
     sessionStorage := sessionStorage p; location := location p |}.

Definition set_allBlogs (v : option (json blog)) (p : page) : page :=
  {| heap := heap p; allProjects := allProjects p; allBlogs := v;
     projectsGrid := projectsGrid p; blogsGrid := blogsGrid p;
     blogsGridFirst := blogsGridFirst p; nextId := nextId p;
     clock := clock p; timers := timers p; requests := requests p;
     sessionStorage := sessionStorage p; location := location p |}.

Definition set_projectsGrid (v : option (list element)) (p : page) : page :=
  {| heap := heap p; allProjects := allProjects p; allBlogs := allBlogs p;
     projectsGrid := v; blogsGrid := blogsGrid p;
     blogsGridFirst := blogsGridFirst p; nextId := nextId p;
     clock := clock p; timers := timers p; requests := requests p;
     sessionStorage := sessionStorage p; location := location p |}.

Definition set_blogsGrid (v : option (list element)) (p : page) : page :=
  {| heap := heap p; allProjects := allProjects p; allBlogs := allBlogs p;
     projectsGrid := projectsGrid p; blogsGrid := v;
     blogsGridFirst := blogsGridFirst p; nextId := nextId p;
     clock := clock p; timers := timers p; requests := requests p;
     sessionStorage := sessionStorage p; location := location p |}.

Definition set_nextId (v : nat) (p : page) : page :=
  {| heap := heap p; allProjects := allProjects p; allBlogs := allBlogs p;
     projectsGrid := projectsGrid p; blogsGrid := blogsGrid p;
     blogsGridFirst := blogsGridFirst p; nextId := v;
     clock := clock p; timers := timers p; requests := requests p;
     sessionStorage := sessionStorage p; location := location p |}.

Definition set_clock (v : Z) (p : page) : page :=
  {| heap := heap p; allProjects := allProjects p; allBlogs := allBlogs p;
     projectsGrid := projectsGrid p; blogsGrid := blogsGrid p;
     blogsGridFirst := blogsGridFirst p; nextId := nextId p;
     clock := v; timers := timers p; requests := requests p;
     sessionStorage := sessionStorage p; location := location p |}.

Definition set_timers (v : list (Z * task)) (p : page) : page :=
  {| heap := heap p; allProjects := allProjects p; allBlogs := allBlogs p;
     projectsGrid := projectsGrid p; blogsGrid := blogsGrid p;
     blogsGridFirst := blogsGridFirst p; nextId := nextId p;
     clock := clock p; timers := v; requests := requests p;
     sessionStorage := sessionStorage p; location := location p |}.

Definition set_requests (v : list string) (p : page) : page :=
  {| heap := heap p; allProjects := allProjects p; allBlogs := allBlogs p;
     projectsGrid := projectsGrid p; blogsGrid := blogsGrid p;
     blogsGridFirst := blogsGridFirst p; nextId := nextId p;
     clock := clock p; timers := timers p; requests := v;
     sessionStorage := sessionStorage p; location := location p |}.

Definition set_sessionStorage (v : gmap string string) (p : page) : page :=
  {| heap := heap p; allProjects := allProjects p; allBlogs := allBlogs p;
     projectsGrid := projectsGrid p; blogsGrid := blogsGrid p;
     blogsGridFirst := blogsGridFirst p; nextId := nextId p;
     clock := clock p; timers := timers p; requests := requests p;
     sessionStorage := v; location := location p |}.

Definition set_location (v : string) (p : page) : page :=
  {| heap := heap p; allProjects := allProjects p; allBlogs := allBlogs p;
     projectsGrid := projectsGrid p; blogsGrid := blogsGrid p;
     blogsGridFirst := blogsGridFirst p; nextId := nextId p;
     clock := clock p; timers := timers p; requests := requests p;
     sessionStorage := sessionStorage p; location := v |}.

(** ** DOM and timer primitives *)

(** [setTimeout(t, delay)] *)
Definition setTimeout (t : task) (delay : Z) (p : page) : page :=
  set_timers (timers p ++ [(clock p + delay, t)]) p.

(** [fetch(url)]: the request is issued and recorded. *)
Definition fetch (url : string) (p : page) : page :=
  set_requests (requests p ++ [url]) p.

(** [JSON.parse] builds a fresh array object. *)
Definition alloc (ps : list project) (p : page) : loc * page :=
  let l := fresh (dom (heap p)) in
  (l, set_heap (<[l := ps]> (heap p)) p).

(** [elements.projectsGrid.appendChild(w)] for a newly created element;
    the caller has checked that the grid exists. *)
Definition appendToProjects (w : widget) (p : page) : page :=
  match projectsGrid p with
  | Some ch =>
      set_nextId (S (nextId p))
        (set_projectsGrid
           (Some (ch ++ [{| eid := nextId p; widget_of := w |}])) p)
  | None => p
  end.

Definition appendToBlogs (w : widget) (p : page) : page :=
  match blogsGrid p with
  | Some ch =>
      set_nextId (S (nextId p))
        (set_blogsGrid
           (Some (ch ++ [{| eid := nextId p; widget_of := w |}])) p)
  | None => p
  end.

(** [node.remove()]: detaches the element with this identity, wherever
    it is; nothing happens when it is no longer in the document. *)
Definition remove_from (i : nat) (ch : list element) : list element :=
  List.filter (fun e => negb (Nat.eqb (eid e) i)) ch.

Definition remove_element (i : nat) (p : page) : page :=
  set_blogsGrid (option_map (remove_from i) (blogsGrid p))
    (set_projectsGrid (option_map (remove_from i) (projectsGrid p)) p).

Definition is_project_card (e : element) : bool :=
  match widget_of e with ProjectCard _ => true | _ => false end.

Definition is_view_more (e : element) : bool :=
  match widget_of e with ViewMoreContainer _ => true | _ => false end.

(** The children of both grids in document order. *)
Definition grid_elements (p : page) : list element :=
  let pg := match projectsGrid p with Some ch => ch | None => [] end in
  let bg := match blogsGrid p with Some ch => ch | None => [] end in
  if blogsGridFirst p then bg ++ pg else pg ++ bg.

(** [document.querySelector('.view-more-container')]; the element the
    selector ['.btn-view-more-projects'] finds is the button inside it,
    since these containers and buttons are only created together. *)
Definition query_view_more (p : page) : option element :=
  List.find is_view_more (grid_elements p).

(** [elements.projectsGrid.querySelectorAll('.project-card')] *)
Definition project_cards (ch : list element) : list element :=
  List.filter is_project_card ch.

Definition update_widget (i : nat) (f : widget -> widget) (ch : list element)
  : list element :=
  List.map (fun e => if Nat.eqb (eid e) i
                     then {| eid := eid e; widget_of := f (widget_of e) |}
                     else e) ch.

Definition update_element (i : nat) (f : widget -> widget) (p : page) : page :=
  set_blogsGrid (option_map (update_widget i f) (blogsGrid p))
    (set_projectsGrid (option_map (update_widget i f) (projectsGrid p)) p).

(** ** navigateToProjectDetail *)

Definition navigateToProjectDetail (projectId : value) (p : page) : page :=
  set_location "./project-detail.html"
    (set_sessionStorage
       (<["selectedProjectId" := to_string projectId]> (sessionStorage p)) p).

(** ** createProjectCard *)

Definition createProjectCard (project : project) (index : Z) : card :=
  let shortDescription :=
    if 120 <? str_length (description project)
    then substring_to 120 (description project) +:+ "..."
    else description project in
  let displayTechnologies := take 4 (technologies project) in
  let hasMoreTech := 4 <? Z.of_nat (length (technologies project)) in
  {| card_delay := index * 150;
     card_image :=
       match image project with
       | Some src => if String.eqb src EmptyString
                     then projectPlaceholder else src
       | None => projectPlaceholder
       end;
     card_alt := title project;
     card_title := title project;
     card_description := shortDescription;
     card_tech := displayTechnologies;
     card_more_tech :=
       if hasMoreTech
       then Some ("+" +:+ number_to_string
                             (Z.of_nat (length (technologies project)) - 4)
                      +:+ " more")
       else None;
     card_project_id := id project;
     card_loading := false |}.

(** [list.forEach((x, index) => appendChild(createProjectCard(x, index + from)))] *)
Fixpoint appendCards (ps : list project) (from : Z) (p : page) : page :=
  match ps with
  | [] => p
  | x :: ps' =>
      appendCards ps' (from + 1)
        (appendToProjects (ProjectCard (createProjectCard x from)) p)
  end.

Definition viewMoreButton (more : Z) : widget :=
  ViewMoreContainer {| caption_of := ViewMoreProjects more;
                       onclick := CallToggleProjectsView;
                       disabled := false |}.

Definition showLessButton : widget :=
  ViewMoreContainer {| caption_of := ShowLessProjects;
                       onclick := CallToggleProjectsView;
                       disabled := false |}.

(** ** displayProjects *)

Definition displayProjects (projects : loc) (p : page) : page :=
  match heap p !! projects with
  | None => p                      (* not an array: reading .length throws *)
  | Some ps =>
      match projectsGrid p with
      | None => p
      | Some _ =>
          let p := set_projectsGrid (Some []) p in
          let p := set_allProjects (Some projects) p in
          let initialProjects := take 3 ps in
          let p := appendCards initialProjects 0 p in
          if 3 <? Z.of_nat (length ps)
          then appendToProjects (viewMoreButton (Z.of_nat (length ps) - 3)) p
          else p
      end
  end.

(** ** showProjectsLoading, showProjectsError, testProjectCard *)

Definition showProjectsLoading (p : page) : page :=
  match projectsGrid p with
  | None => p
  | Some _ => appendToProjects ProjectsLoading (set_projectsGrid (Some []) p)
  end.

Definition sampleProject : project :=
  {| id := VNum 1;
     title := "Sample Project";
     description := "This is a sample project to demonstrate the project card functionality. Click 'View More Details' to see the project detail page.";
     technologies := ["JavaScript"; "HTML"; "CSS"; "Sample Tech"];
     image := Some "./assets/images/project-placeholder.jpg" |}.

Definition showProjectsError (p : page) : page :=
  match projectsGrid p with
  | None => p
  | Some _ =>
      let p := appendToProjects (ProjectsError CallLoadProjects)
                 (set_projectsGrid (Some []) p) in
      appendToProjects (ProjectCard (createProjectCard sampleProject 0)) p
  end.

Definition testProject : project :=
  {| id := VNum 999;
     title := "Test Project";
     description := "This is a test project to verify the View More Details button is working correctly. This description is intentionally long to test the truncation functionality.";
     technologies := ["JavaScript"; "HTML"; "CSS"; "Testing"; "Debug"];
     image := None |}.

Definition testProjectCard (p : page) : page :=
  match projectsGrid p with
  | Some _ =>
      appendToProjects (ProjectCard (createProjectCard testProject 0))
        (set_projectsGrid (Some []) p)
  | None => p
  end.

(** ** loadProjects *)

(** Up to the first [await]: the loading state is shown and the request
    is issued. *)
Definition loadProjects_begin (p : page) : page :=
  fetch projectsDataPath (showProjectsLoading p).

(** The rest of the function, once the request has settled. *)
Definition loadProjects_settle (o : fetched project) (p : page) : page :=
  match o with
  | Rejected => showProjectsError p
  | Response false _ => showProjectsError p       (* HTTP error *)
  | Response true None => showProjectsError p     (* body is not JSON *)
  | Response true (Some data) =>
      match data with
      | JNull => showProjectsError p      (* reading a property of null *)
      | JObj ms =>
          match member "projects" ms with
          | Some (JArr ps) =>
              let '(l, p) := alloc ps p in displayProjects l p
          | _ => showProjectsError p      (* 'Invalid projects data structure' *)
          end
      | _ => showProjectsError p          (* data.projects is undefined *)
      end
  end.

Definition loadProjects (o : fetched project) (p : page) : page :=
  loadProjects_settle o (loadProjects_begin p).

(** ** Blogs *)

Definition createBlogCard (b : blog) (index : Z) : blog_card :=
  let shortDesc :=
    if 150 <? str_length (shortDescription b)
    then substring_to 150 (shortDescription b) +:+ "..."
    else shortDescription b in
  let displayKeywords := take 4 (keywords b) in
  let hasMoreKeywords := 4 <? Z.of_nat (length (keywords b)) in
  {| bcard_delay := index * 150;
     bcard_image :=
       match blog_image b with
       | Some src => if String.eqb src EmptyString then blogPlaceholder else src
       | None => blogPlaceholder
       end;
     bcard_title := blog_title b;
     bcard_category := category b;
     bcard_date := publishDate b;
     bcard_read_time := readTime b;
     bcard_description := shortDesc;
     bcard_keywords := displayKeywords;
     bcard_more_keywords :=
       if hasMoreKeywords
       then Some ("+" +:+ number_to_string (Z.of_nat (length (keywords b)) - 4)
                      +:+ " more")
       else None;
     bcard_blog_id := blog_id b |}.

Fixpoint appendBlogCards (bs : list blog) (from : Z) (p : page) : page :=
  match bs with
  | [] => p
  | x :: bs' =>
      appendBlogCards bs' (from + 1)
        (appendToBlogs (BlogCard (createBlogCard x from)) p)
  end.

Definition showBlogsLoading (p : page) : page :=
  match blogsGrid p with
  | Some _ => appendToBlogs BlogsLoading (set_blogsGrid (Some []) p)
  | None => p
  end.

Definition showBlogError (p : page) : page :=
  match blogsGrid p with
  | Some _ => appendToBlogs (BlogsError CallLoadBlogs) (set_blogsGrid (Some []) p)
  | None => p
  end.

(** [displayBlogs(blogs)]; [inr] is the state in which a [TypeError] is
    thrown (a value without [slice], or a string whose slice has no
    [forEach]). *)
Definition displayBlogs (blogs : json blog) (p : page) : page + page :=
  match blogsGrid p with
  | None => inl p
  | Some _ =>
      let p := set_blogsGrid (Some []) p in
      let empty :=
        negb (json_truthy blogs)
        || match blogs with
           | JArr [] => true
           | JObj ms => match member "length" ms with
                        | Some (JNum 0) => true
                        | _ => false
                        end
           | _ => false
           end in
      if empty then inl (appendToBlogs NoBlogsMessage p)
      else
        match blogs with
        | JArr bs =>
            let p := appendBlogCards (take 3 bs) 0 p in
            if 3 <? Z.of_nat (length bs)
            then inl (appendToBlogs
                        (ViewMoreContainer
                           {| caption_of := ViewMoreBlogs (Z.of_nat (length bs) - 3);
                              onclick := CallToggleBlogsView;
                              disabled := false |}) p)
            else inl p
        | _ => inr p
        end
  end.

Definition loadBlogs_begin (p : page) : page :=
  fetch blogsDataPath (showBlogsLoading p).

Definition loadBlogs_settle (o : fetched blog) (p : page) : page :=
  match o with
  | Rejected => showBlogError p
  | Response false _ => showBlogError p
  | Response true None => showBlogError p
  | Response true (Some JNull) => showBlogError p   (* reading null.length *)
  | Response true (Some blogs) =>
      let p := set_allBlogs (Some blogs) p in
      match displayBlogs blogs p with
      | inl p => p
      | inr p => showBlogError p
      end
  end.

Definition loadBlogs (o : fetched blog) (p : page) : page :=
  loadBlogs_settle o (loadBlogs_begin p).

(** ** Expanding and contracting the projects grid *)

(** The button of a container shows "Loading..." and is disabled. *)
Definition loadingState (w : widget) : widget :=
  match w with
  | ViewMoreContainer b =>
      ViewMoreContainer {| caption_of := CaptionLoading;
                           onclick := onclick b;
                           disabled := true |}
  | _ => w
  end.

Definition expandProjectsView (p : page) : page :=
  match allProjects p with
  | None => p
  | Some _ =>
      match query_view_more p with
      | None => p                   (* no button: setting innerHTML throws *)
      | Some e =>
          let p := update_element (eid e) loadingState p in
          setTimeout (ExpandBody (eid e)) 500 p
      end
  end.

(** The callback of [expandProjectsView]. *)
Definition expandBody (container : nat) (p : page) : page :=
  let p := remove_element container p in
  match allProjects p with
  | None => p
  | Some l =>
      match heap p !! l with
      | None => p
      | Some ps =>
          let remainingProjects := drop 3 ps in
          match projectsGrid p, remainingProjects with
          | None, _ :: _ => p      (* appendChild on a missing grid throws *)
          | _, _ =>
              let p := appendCards remainingProjects 3 p in
              setTimeout AddShowLess
                (Z.of_nat (length remainingProjects) * 100 + 200) p
          end
      end
  end.

Definition addShowLess (p : page) : page :=
  appendToProjects showLessButton p.

(** [cardsToRemove.forEach((card, index) => setTimeout(..., index * 50))] *)
Fixpoint scheduleFades (cards : list element) (index : Z) (p : page) : page :=
  match cards with
  | [] => p
  | c :: cards' =>
      scheduleFades cards' (index + 1)
        (setTimeout (FadeCard (eid c)) (index * 50) p)
  end.

Definition contractProjectsView (p : page) : page :=
  match allProjects p with
  | None => p
  | Some _ =>
      match projectsGrid p with
      | None => p                   (* querySelectorAll on null throws *)
      | Some ch =>
          let allCards := project_cards ch in
          let viewMoreContainer := query_view_more p in
          let cardsToRemove := drop 3 allCards in
          let p := scheduleFades cardsToRemove 0 p in
          match viewMoreContainer with
          | Some e =>
              setTimeout (RestoreViewMore (eid e))
                (Z.of_nat (length cardsToRemove) * 50 + 200) p
          | None => p
          end
      end
  end.

(** The button swap scheduled by [contractProjectsView]. *)
Definition restoreViewMore (container : nat) (p : page) : page :=
  let p := remove_element container p in
  match allProjects p with
  | None => p
  | Some l =>
      match heap p !! l with
      | None => p
      | Some ps => appendToProjects (viewMoreButton (Z.of_nat (length ps) - 3)) p
      end
  end.

Definition toggleProjectsView (p : page) : page :=
  match projectsGrid p with
  | None => p                       (* querySelectorAll on null throws *)
  | Some ch =>
      let currentCards := project_cards ch in
      let isExpanded := 3 <? Z.of_nat (length currentCards) in
      if isExpanded then contractProjectsView p else expandProjectsView p
  end.

(** ** Card click listener *)

Definition find_card (i : nat) (p : page) : option card :=
  match List.find (fun e => Nat.eqb (eid e) i) (grid_elements p) with
  | Some e => match widget_of e with
              | ProjectCard c => Some c
              | _ => None
              end
  | None => None
  end.

(** A click on the "View More Details" button of the card [i]. *)
Definition clickViewDetails (i : nat) (p : page) : page :=
  match find_card i p with
  | None => p
  | Some c =>
      let p :=
        update_element i
          (fun w => match w with
                    | ProjectCard c =>
                        ProjectCard
                          {| card_delay := card_delay c;
                             card_image := card_image c;
                             card_alt := card_alt c;
                             card_title := card_title c;
                             card_description := card_description c;
                             card_tech := card_tech c;
                             card_more_tech := card_more_tech c;
                             card_project_id := card_project_id c;
                             card_loading := true |}
                    | _ => w
                    end) p in
      setTimeout (Navigate (card_project_id c)) 300 p
  end.

(** ** The event loop *)

(** Runs the callback of a timer. *)
Definition fire (t : task) (p : page) : page :=
  match t with
  | ExpandBody c => expandBody c p
  | AddShowLess => addShowLess p
  | FadeCard c => setTimeout (RemoveCard c) 400 p
  | RemoveCard c => remove_element c p
  | RestoreViewMore c => restoreViewMore c p
  | Navigate i => navigateToProjectDetail i p
  | FailsafeCheck =>
      match projectsGrid p with
      | Some [] => testProjectCard p
      | _ => p
      end
  end.

(** The timer that is due first, timers with the same due time in the
    order in which they were set, and the remaining timers. *)
Fixpoint pop_earliest (ts : list (Z * task))
  : option ((Z * task) * list (Z * task)) :=
  match ts with
  | [] => None
  | x :: r =>
      match pop_earliest r with
      | None => Some (x, [])
      | Some (y, r') =>
          if fst y <? fst x then Some (y, x :: r') else Some (x, r)
      end
  end.

(** Time passes until the next timer is due, and its callback runs. *)
Definition tick (p : page) : page :=
  match pop_earliest (timers p) with
  | None => p
  | Some ((due, t), rest) =>
      fire t (set_clock (Z.max (clock p) due) (set_timers rest p))
  end.

(** What can happen on the page once the projects are displayed: the
    three view functions are called (the view-more button calls
    [toggleProjectsView]), a card's details button is clicked, or the
    next timer fires. *)
Inductive event :=
| Toggle
| Expand
| Contract
| ClickViewDetails (card : nat)
| Tick.

Definition step (p : page) (e : event) : page :=
  match e with
  | Toggle => toggleProjectsView p
  | Expand => expandProjectsView p
  | Contract => contractProjectsView p
  | ClickViewDetails i => clickViewDetails i p
  | Tick => tick p
  end.

Definition run (es : list event) (p : page) : page :=
  List.fold_left step es p.

(** The part of [initializeWebsite] that loads content: both requests are
    issued and the failsafe check is scheduled. *)
Definition initializeWebsite (p : page) : page :=
  setTimeout FailsafeCheck 3000 (loadBlogs_begin (loadProjects_begin p)).

(** The widgets of the projects grid, in order. *)
Definition projects_view (p : page) : list widget :=
  match projectsGrid p with
  | Some ch => List.map widget_of ch
  | None => []
  end.

(** The cards of the projects grid, in order. *)
Definition cards_of (ws : list widget) : list card :=
  List.flat_map (fun w => match w with ProjectCard c => [c] | _ => [] end) ws.

(** [createProjectCard] applied to the records from index [from] on. *)
Fixpoint cards_from (ps : list project) (from : Z) : list card :=
  match ps with
  | [] => []
  | x :: ps' => createProjectCard x from :: cards_from ps' (from + 1)
  end.

End Portfolio.

(* ================================================================== *)
(** * Overview page: contact form *)
(* ================================================================== *)

Module ContactForm.
Import JS.

(** ** Regular expressions tested against a whole string *)

Inductive regex :=
| Fail
| Eps
| Class (f : ascii -> bool)
| Cat (a b : regex)
| Alt (a b : regex)
| Star (a : regex).

Fixpoint nullable (r : regex) : bool :=
  match r with
  | Fail => false
  | Eps => true
  | Class _ => false
  | Cat a b => nullable a && nullable b
  | Alt a b => nullable a || nullable b
  | Star _ => true
  end.

(** What remains to be matched after reading [c]. *)
Fixpoint deriv (c : ascii) (r : regex) : regex :=
  match r with
  | Fail => Fail
  | Eps => Fail
  | Class f => if f c then Eps else Fail
  | Cat a b =>
      if nullable a then Alt (Cat (deriv c a) b) (deriv c b)
      else Cat (deriv c a) b
  | Alt a b => Alt (deriv c a) (deriv c b)
  | Star a => Cat (deriv c a) (Star a)
  end.

(** [/^r$/.test(s)] *)
Fixpoint matches (r : regex) (s : string) : bool :=
  match s with
  | EmptyString => nullable r
  | String c s' => matches (deriv c r) s'
  end.

Definition plus (r : regex) : regex := Cat r (Star r).
Definition chr (c : ascii) : regex := Class (Ascii.eqb c).

(** [[^\s@]] *)
Definition no_space_no_at (c : ascii) : bool :=
  negb (is_whitespace c) && negb (Ascii.eqb c "@").

(** [/^[^\s@]+@[^\s@]+\.[^\s@]+$/] *)
Definition emailRegex : regex :=
  Cat (plus (Class no_space_no_at))
    (Cat (chr "@")
       (Cat (plus (Class no_space_no_at))
          (Cat (chr ".") (plus (Class no_space_no_at))))).

Definition isValidEmail (email : string) : bool := matches emailRegex email.

(** ** The form and its surroundings *)

(** An element of the document with a [name] attribute.  [el_in_form]
    tells whether it is a control of the contact form that contributes
    an entry to [FormData]. *)
Record named_element := {
  el_name : string;
  el_value : string;
  el_default : string;        (* the value [form.reset()] restores *)
  el_in_form : bool;
}.

(** [button[type="submit"]] *)
Record submit_button := {
  btn_disabled : bool;
  btn_text : string;
}.

Inductive banner :=
| FormSuccess                 (* div.form-success *)
| FormErrorBanner (message : string).  (* div.form-error *)

Inductive form_task :=
| RemoveBanner (b : nat)      (* a message disappears again *)
| FinishSimulated.            (* js/script.js: the simulated submission ends *)

Record form := {
  named : list named_element;         (* in document order *)
  fieldErrors : list (string * string);
                                      (* div.field-error: data-error-for, text *)
  submitButton : option submit_button;
  banners : list (nat * banner);      (* messages in the form container *)
  nextBanner : nat;
  pending : list (Z * form_task);     (* setTimeout: delay in ms, callback *)
  action : string;                    (* form.action *)
  posted : list (string * list (string * string));
                                      (* fetch calls: URL and form data *)
}.

Definition set_named (v : list named_element) (f : form) : form :=
  {| named := v; fieldErrors := fieldErrors f; submitButton := submitButton f;
     banners := banners f; nextBanner := nextBanner f; pending := pending f;
     action := action f; posted := posted f |}.

Definition set_fieldErrors (v : list (string * string)) (f : form) : form :=
  {| named := named f; fieldErrors := v; submitButton := submitButton f;
     banners := banners f; nextBanner := nextBanner f; pending := pending f;
     action := action f; posted := posted f |}.

Definition set_submitButton (v : option submit_button) (f : form) : form :=
  {| named := named f; fieldErrors := fieldErrors f; submitButton := v;
     banners := banners f; nextBanner := nextBanner f; pending := pending f;
     action := action f; posted := posted f |}.

Definition set_banners (v : list (nat * banner)) (f : form) : form :=
  {| named := named f; fieldErrors := fieldErrors f;
     submitButton := submitButton f;
     banners := v; nextBanner := nextBanner f; pending := pending f;
     action := action f; posted := posted f |}.

Definition set_nextBanner (v : nat) (f : form) : form :=
  {| named := named f; fieldErrors := fieldErrors f;
     submitButton := submitButton f;
     banners := banners f; nextBanner := v; pending := pending f;
     action := action f; posted := posted f |}.

Definition set_pending (v : list (Z * form_task)) (f : form) : form :=
  {| named := named f; fieldErrors := fieldErrors f;
     submitButton := submitButton f;
     banners := banners f; nextBanner := nextBanner f; pending := v;
     action := action f; posted := posted f |}.

Definition set_posted (v : list (string * list (string * string))) (f : form)
  : form :=
  {| named := named f; fieldErrors := fieldErrors f;
     submitButton := submitButton f;
     banners := banners f; nextBanner := nextBanner f; pending := pending f;
     action := action f; posted := v |}.

(** [new FormData(form)]: the entries of the form's controls, in order. *)
Definition formData (f : form) : list (string * string) :=
  List.flat_map
    (fun e => if el_in_form e then [(el_name e, el_value e)] else [])
    (named f).

(** [Object.fromEntries(entries)[field]]: a later entry wins. *)
Fixpoint lookup_value (field : string) (entries : list (string * string))
  : option string :=
  match entries with
  | [] => None
  | (k, v) :: rest =>
      match lookup_value field rest with
      | Some v' => Some v'
      | None => if String.eqb k field then Some v else None
      end
  end.

(** [!v || v.trim() === ''] *)
Definition blank (v : option string) : bool :=
  match v with
  | None => true
  | Some s => String.eqb s EmptyString || String.eqb (trim s) EmptyString
  end.

Fixpoint remove_first (fieldName : string) (es : list (string * string))
  : list (string * string) :=
  match es with
  | [] => []
  | (k, m) :: rest =>
      if String.eqb k fieldName then rest else (k, m) :: remove_first fieldName rest
  end.

(** [document.querySelector(`[name="${fieldName}"]`)] finds an element. *)
Definition has_field (fieldName : string) (f : form) : bool :=
  List.existsb (fun e => String.eqb (el_name e) fieldName) (named f).

(** ** showFieldError *)

Definition showFieldError (fieldName message : string) (f : form) : form :=
  if has_field fieldName f then
    set_fieldErrors
      (remove_first fieldName (fieldErrors f) ++ [(fieldName, message)]) f
  else f.

(** ** validateContactForm *)

Definition requiredFields : list string :=
  ["name"; "email"; "subject"; "message"].

(** The body of [requiredFields.forEach(field => ...)], on the pair of
    [isValid] and the document. *)
Definition check (formValues : list (string * string))
    (st : bool * form) (field : string) : bool * form :=
  if blank (lookup_value field formValues)
  then (false, showFieldError field "This field is required" (snd st))
  else st.

Definition validateContactForm (formValues : list (string * string)) (f : form)
  : bool * form :=
  let '(isValid, f) :=
    List.fold_left (check formValues) requiredFields (true, f) in
  match lookup_value "email" formValues with
  | Some email =>
      if negb (String.eqb email EmptyString) && negb (isValidEmail email)
      then (false, showFieldError "email" "Please enter a valid email address" f)
      else (isValid, f)
  | None => (isValid, f)
  end.

(** ** showFormLoading *)

Definition showFormLoading (isLoading : bool) (f : form) : form :=
  match submitButton f with
  | None => f
  | Some _ =>
      if isLoading
      then set_submitButton
             (Some {| btn_disabled := true; btn_text := "Sending..." |}) f
      else set_submitButton
             (Some {| btn_disabled := false; btn_text := "Send Message" |}) f
  end.

(** ** showFormSuccess, showFormError *)

Definition addBanner (b : banner) (delay : Z) (f : form) : form :=
  set_pending (pending f ++ [(delay, RemoveBanner (nextBanner f))])
    (set_nextBanner (S (nextBanner f))
       (set_banners (banners f ++ [(nextBanner f, b)]) f)).

Definition showFormSuccess (f : form) : form :=
  addBanner FormSuccess 8000 (set_banners [] f).

Definition showFormError (message : string) (f : form) : form :=
  addBanner (FormErrorBanner message) 10000 (set_banners [] f).

(** [form.reset()] *)
Definition reset (f : form) : form :=
  set_named
    (List.map (fun e => if el_in_form e
                        then {| el_name := el_name e; el_value := el_default e;
                                el_default := el_default e;
                                el_in_form := el_in_form e |}
                        else e) (named f)) f.

(** ** handleContactFormSubmit *)

(** The reply of the form-handling service to a request it did not
    accept; a reply on which reading [data.errors] or iterating it throws
    behaves like [NotJson]. *)
Inductive reply :=
| NotJson                                        (* [json()] rejects *)
| NoErrors                                       (* [data.errors] is falsy *)
| Errors (errors : list (option string * string)).
                                                 (* [field], [message] *)

Inductive submitted :=
| SubmitRejected              (* the fetch promise rejects *)
| SubmitOk                    (* [response.ok] *)
| SubmitNotOk (r : reply).

(** Up to the [await]: validation, then the loading state and the
    request.  The boolean tells whether a request is now outstanding. *)
Definition handleContactFormSubmit_begin (f : form) : form * bool :=
  let formData := formData f in
  let formValues := formData in
  let '(isValid, f) := validateContactForm formValues f in
  if negb isValid then (f, false)
  else
    let f := showFormLoading true f in
    (set_posted (posted f ++ [(action f, formData)]) f, true).

Definition genericError : string :=
  "There was an error sending your message. Please try again or contact me directly via email.".

(** The [try] block after the [await], its [catch] and its [finally]. *)
Definition handleContactFormSubmit_settle (o : submitted) (f : form) : form :=
  let f :=
    match o with
    | SubmitOk => reset (showFormSuccess f)
    | SubmitNotOk (Errors errors) =>
        List.fold_left
          (fun f e =>
             match fst e with
             | Some field =>
                 if String.eqb field EmptyString then f
                 else showFieldError field (snd e) f
             | None => f
             end) errors f
    | SubmitNotOk NoErrors | SubmitNotOk NotJson | SubmitRejected =>
        showFormError genericError f
    end in
  showFormLoading false f.

(** One whole run of the handler. *)
Definition handleContactFormSubmit (o : submitted) (f : form) : form :=
  let '(f, outstanding) := handleContactFormSubmit_begin f in
  if outstanding then handleContactFormSubmit_settle o f else f.

End ContactForm.

(* ================================================================== *)
(** * js/script.js: the contact form handler with a simulated submission *)
(* ================================================================== *)

(** [validateContactForm], [showFieldError] and [showFormLoading] of
    [js/script.js] are the same text as in the overview page script, and
    their embedding is shared. *)
Module ScriptJs.
Import JS ContactForm.

Definition showFormSuccess (f : form) : form :=
  set_pending (pending f ++ [(5000, RemoveBanner (nextBanner f))])
    (set_nextBanner (S (nextBanner f))
       (set_banners (banners f ++ [(nextBanner f, FormSuccess)]) f)).

(** The submission is simulated with a timer; no request is made. *)
Definition handleContactFormSubmit (f : form) : form :=
  let formValues := formData f in
  let '(isValid, f) := validateContactForm formValues f in
  if negb isValid then f
  else
    let f := showFormLoading true f in
    set_pending (pending f ++ [(2000, FinishSimulated)]) f.

(** The callback of the 2000 ms timer. *)
Definition finishSimulated (f : form) : form :=
  reset (showFormSuccess (showFormLoading false f)).

End ScriptJs.

(* ================================================================== *)
(** * Project detail page *)
(* ================================================================== *)

Module ProjectDetail.
Import JS.

Definition projectsDataPath : string := "./data/projects.json".

(** The content of [.project-detail-main]. *)
Inductive main_view :=
| Markup                          (* the static markup, not yet filled in *)
| Details (p : project)           (* filled in by displayProjectDetails *)
| ErrorMessage (message : string).  (* div.error-container *)

Record page := {
  sessionStorage : gmap string string;
  main : main_view;
  loading : bool;                 (* the loading overlay is shown *)
  location : string;              (* window.location.href *)
  requests : list string;         (* URLs fetched so far *)
  redirects : list (Z * string);  (* setTimeout: delay in ms, new location *)
}.



Definition set_requests (v : list string) (p : page) : page :=
  {| sessionStorage := sessionStorage p; main := main p; loading := loading p;
     location := location p; requests := v; redirects := redirects p |}.

Definition set_redirects (v : list (Z * string)) (p : page) : page :=
  {| sessionStorage := sessionStorage p; main := main p; loading := loading p;
     location := location p; requests := requests p; redirects := v |}.

Definition set_sessionStorage (v : gmap string string) (p : page) : page :=
  {| sessionStorage := v; main := main p; loading := loading p;
     location := location p; requests := requests p;
     redirects := redirects p |}.

Definition set_location (v : string) (p : page) : page :=
  {| sessionStorage := sessionStorage p; main := main p; loading := loading p;
     location := v; requests := requests p; redirects := redirects p |}.










(** The pending timer that was set first fires (all are set with the same
    delay): [window.location.href] is assigned. *)
Definition tick (p : page) : page :=
  match redirects p with
  | (_, href) :: rest => set_location href (set_redirects rest p)
  | [] => p
  end.

(** The [popstate] listener. *)
Definition onPopState (p : page) : page :=
  set_sessionStorage (delete "selectedProjectId" (sessionStorage p)) p.


End ProjectDetail.

(* ================================================================== *)
(** * Blog detail page *)
(* ================================================================== *)

Module BlogDetail.
Import JS.


(** The content of [#blog-content]. *)
Inductive content :=
| BlogNotFound                          (* "Blog Not Found" and a back button *)
| Article (b : blog) (html : string).   (* header, image, keywords, body *)


End BlogDetail.

(* ================================================================== *)
(** * Predicates used in the statements *)
(* ================================================================== *)

Module Props.
Import JS Portfolio.

(** Element identities are unique: every element in the document was
    created before the next identity to be handed out. *)
Definition fresh_ids (p : page) : Prop :=
  List.Forall (fun e => (eid e < nextId p)%nat) (grid_elements p).

(** The array that [loadProjects] looks for: the [projects] member of a
    wrapper object, when it is an array. *)
Definition projects_array (d : json project) : option (list project) :=
  match d with
  | JObj ms =>
      match member "projects" ms with
      | Some (JArr ps) => Some ps
      | _ => None
      end
  | _ => None
  end.

(** A fetch of the projects document that fails: network error, HTTP
    error status, a body that does not parse, or a parsed document
    without a [projects] array. *)
Definition failed (o : fetched project) : bool :=
  match o with
  | Rejected => true
  | Response false _ => true
  | Response true None => true
  | Response true (Some d) =>
      match projects_array d with
      | Some _ => false
      | None => true
      end
  end.

(** The error state of the projects grid. *)
Definition error_view : list widget :=
  [ProjectsError CallLoadProjects;
   ProjectCard (createProjectCard sampleProject 0)].

(** [c] does not occur in [s]. *)
Definition lacks (c : ascii) (s : string) : bool :=
  all_chars (fun x => negb (Ascii.eqb x c)) s.

(** Text without markdown syntax that stays on one line: no asterisk,
    backtick, opening bracket, angle bracket or line terminator. *)
Definition inline_text (s : string) : bool :=
  lacks "*" s && lacks "`" s && lacks "[" s && lacks "<" s
  && lacks nl s && lacks cr s.

(** A line that does not start with a heading marker, a list dash or a
    digit. *)
Definition plain_start (s : string) : bool :=
  match s with
  | EmptyString => true
  | String c _ =>
      negb (Ascii.eqb c "#") && negb (Ascii.eqb c "-") && negb (is_digit c)
  end.

(** A matcher that can only match where the input starts with [c]. *)
Definition triggered_by (c : ascii) (m : Markdown.matcher) : Prop :=
  forall x r, x <> c -> m (String x r) = None.

(** [s] occurs in [t]. *)
Fixpoint occurs (s t : string) : bool :=
  match strip_prefix s t with
  | Some _ => true
  | None => match t with
            | EmptyString => false
            | String _ t' => occurs s t'
            end
  end.

(** A [div.field-error] for this field is in the document. *)
Definition error_shown (field : string) (f : ContactForm.form) : Prop :=
  exists message, In (field, message) (ContactForm.fieldErrors f).

(** The submit button as [showFormLoading(false)] leaves it. *)
Definition restored_button : ContactForm.submit_button :=
  {| ContactForm.btn_disabled := false;
     ContactForm.btn_text := "Send Message" |}.

(** The submit button while a submission is under way. *)
Definition sending_button : ContactForm.submit_button :=
  {| ContactForm.btn_disabled := true;
     ContactForm.btn_text := "Sending..." |}.

Definition control (name value : string) : ContactForm.named_element :=
  {| ContactForm.el_name := name; ContactForm.el_value := value;
     ContactForm.el_default := EmptyString; ContactForm.el_in_form := true |}.

(** The contact form filled in, with the given subject. *)
Definition filled_form (subject : string) : ContactForm.form :=
  {| ContactForm.named :=
       [control "name" "Ada"; control "email" "ada@example.org";
        control "subject" subject; control "message" "Hello"];
     ContactForm.fieldErrors := [];
     ContactForm.submitButton :=
       Some {| ContactForm.btn_disabled := false;
               ContactForm.btn_text := "Send Message" |};
     ContactForm.banners := []; ContactForm.nextBanner := 0%nat;
     ContactForm.pending := [];
     ContactForm.action := "https://formspree.io/f/xdkokykj";
     ContactForm.posted := [] |}.

(** What the view functions and timers leave alone: the array objects, the
    cache [window.allProjects] and the list of requests issued. *)
Definition kept (p q : page) : Prop :=
  heap q = heap p /\ allProjects q = allProjects p /\ requests q = requests p.




(** A page with both grids, empty, and nothing else. *)
Definition blank_page : page :=
  {| heap := ∅; allProjects := None; allBlogs := None;
     projectsGrid := Some []; blogsGrid := Some [];
     blogsGridFirst := false; nextId := 0%nat; clock := 0; timers := [];
     requests := []; sessionStorage := ∅; location := "./index.html" |}.

(** The card elements that [appendCards] creates, the first one with
    identity [i]. *)
Fixpoint card_elements (i : nat) (ps : list project) (from : Z) : list element :=
  match ps with
  | [] => []
  | x :: ps' =>
      {| eid := i; widget_of := ProjectCard (createProjectCard x from) |}
        :: card_elements (S i) ps' (from + 1)
  end.

(** The widgets of the blogs grid, in order. *)
Definition blogs_view (p : page) : list widget :=
  match blogsGrid p with
  | Some ch => List.map widget_of ch
  | None => []
  end.



(** The events of a visitor who expands the grid, waits for both timers,
    and contracts it again. *)
Definition expand_and_contract : list event :=
  [Toggle; Tick; Tick; Toggle; Tick; Tick; Tick; Tick; Tick].

(** Five project records, the second with six technologies. *)
Definition five_projects : list project :=
  List.map
    (fun k : Z =>
       {| id := VNum k;
          title := "Project " +:+ number_to_string k;
          description := "A description";
          technologies :=
            if k =? 2 then ["a"; "b"; "c"; "d"; "e"; "f"] else ["a"];
          image := None |})
    [1; 2; 3; 4; 5].

(** The blank page after [JSON.parse] has built the array of the five
    records at location 0. *)
Definition page_with_five : page :=
  set_heap (<[0%nat := five_projects]> ∅) blank_page.


End Props.

(* ================================================================== *)
(** * What a regular expression matches *)
(* ================================================================== *)

Module RegexSpec.
Import JS ContactForm.

(** The strings a regular expression matches as a whole. *)
Fixpoint denotes (r : regex) (s : string) : Prop :=
  match r with
  | Fail => False
  | Eps => s = EmptyString
  | Class f => exists c, s = String c EmptyString /\ f c = true
  | Cat a b => exists s1 s2, s = s1 +:+ s2 /\ denotes a s1 /\ denotes b s2
  | Alt a b => denotes a s \/ denotes b s
  | Star a =>
      exists pieces : list string,
        s = List.fold_right String.append EmptyString pieces
        /\ List.Forall (fun x => x <> EmptyString /\ denotes a x) pieces
  end.

(** One of the three parts of an address the pattern accepts: at least
    one character, none of them whitespace or an at sign. *)
Definition address_part (x : string) : Prop :=
  x <> EmptyString /\ all_chars no_space_no_at x = true.

End RegexSpec.

(* ================================================================== *)
(** * Overview page: listeners of the contact form *)
(* ================================================================== *)

Module FormEvents.
Import JS ContactForm.

(** An [input] or [textarea] of the form as the blur and input listeners
    read it from [event.target]. *)
Record control := {
  ctl_name : string;          (* field.name *)
  ctl_value : string;         (* field.value *)
  ctl_required : bool;        (* field.hasAttribute('required') *)
  ctl_type : string;          (* field.type *)
}.

(** ** clearFieldError *)

Definition clearFieldError (field : control) (f : form) : form :=
  set_fieldErrors (remove_first (ctl_name field) (fieldErrors f)) f.

(** ** validateFormField *)

Definition validateFormField (field : control) (f : form) : form :=
  let value := trim (ctl_value field) in
  let f := clearFieldError field f in
  if ctl_required field && String.eqb value EmptyString
  then showFieldError (ctl_name field) "This field is required" f
  else if String.eqb (ctl_type field) "email"
          && negb (String.eqb value EmptyString)
          && negb (isValidEmail value)
  then showFieldError (ctl_name field) "Please enter a valid email address" f
  else f.

(** ** Timers of the form *)

(** [message.remove()] for the message with this identity. *)
Definition removeBanner (b : nat) (f : form) : form :=
  set_banners (List.filter (fun x => negb (Nat.eqb (fst x) b)) (banners f)) f.

(** Runs the callback of a timer. *)
Definition fire (t : form_task) (f : form) : form :=
  match t with
  | RemoveBanner b => removeBanner b f
  | FinishSimulated => ScriptJs.finishSimulated f
  end.

(** The [i]-th pending timer fires.  The timers carry their delays, not
    their due times, so any of them may be the next one. *)
Definition fireTimer (i : nat) (f : form) : form :=
  match pending f !! i with
  | Some (_, t) => fire t (set_pending (delete i (pending f)) f)
  | None => f
  end.

(** ** What can happen to the form *)

Inductive event :=
| Submit                          (* submit event, up to the request *)
| Settle (o : submitted)          (* the request settles *)
| Blur (field : control)          (* blur listener: validateFormField *)
| InputEvent (field : control)    (* input listener: clearFieldError *)
| Edit (i : nat) (value : string) (* the visitor changes the i-th element *)
| Timer (i : nat).                (* the i-th pending timer fires *)

Definition step (f : form) (e : event) : form :=
  match e with
  | Submit => fst (handleContactFormSubmit_begin f)
  | Settle o => handleContactFormSubmit_settle o f
  | Blur field => validateFormField field f
  | InputEvent field => clearFieldError field f
  | Edit i value =>
      set_named
        (alter (fun e => {| el_name := el_name e; el_value := value;
                            el_default := el_default e;
                            el_in_form := el_in_form e |}) i (named f)) f
  | Timer i => fireTimer i f
  end.

Definition run (es : list event) (f : form) : form :=
  List.fold_left step es f.

End FormEvents.

(* ================================================================== *)
(** * Overview page: debounce *)
(* ================================================================== *)

Module Debounce.
Section Debounced.
Context {A : Type}.              (* the arguments of a call *)

(** The closure state of one debounced function and what it has done. *)
Record state := {
  timeout : option (Z * A);      (* the pending timer: due time and the
                                    arguments [later] captured; [None]
                                    for undefined and null *)
  calls : list A;                (* the calls of [func] so far *)
}.

(** The callback [later] of the pending timer. *)
Definition later (immediate : bool) (s : state) : state :=
  match timeout s with
  | Some (_, args) =>
      {| timeout := None;
         calls := if immediate then calls s else calls s ++ [args] |}
  | None => s
  end.

(** [executedFunction(...args)], called at time [now]. *)
Definition executedFunction (wait : Z) (immediate : bool) (now : Z) (args : A)
    (s : state) : state :=
  let callNow :=
    immediate && match timeout s with Some _ => false | None => true end in
  {| timeout := Some (now + wait, args);
     calls := if callNow then calls s ++ [args] else calls s |}.

Inductive event :=
| Call (now : Z) (args : A)
| Fire.                          (* the pending timer fires *)

Definition step (wait : Z) (immediate : bool) (s : state) (e : event) : state :=
  match e with
  | Call now args => executedFunction wait immediate now args s
  | Fire => later immediate s
  end.

Definition run (wait : Z) (immediate : bool) (es : list event) (s : state)
  : state :=
  List.fold_left (step wait immediate) es s.

(** A burst of calls, none of them separated from the next by the timer. *)
Definition burst (cs : list (Z * A)) : list event :=
  List.map (fun c => Call (fst c) (snd c)) cs.

End Debounced.
Arguments state A : clear implicits.
End Debounce.

(* ================================================================== *)
(** * Overview page: navigation and scroll animations *)
(* ================================================================== *)

Module Navigation.
Import JS.

Definition scrollOffset : Z := 80.

(** ** The mobile menu *)

(** The class [active] of the hamburger and of the menu, and
    [document.body.style.overflow]. *)
Record menu := {
  hamburgerActive : bool;
  navMenuActive : bool;
  bodyOverflow : string;
}.

Definition toggleMobileMenu (m : menu) : menu :=
  let active := negb (navMenuActive m) in
  {| hamburgerActive := negb (hamburgerActive m);
     navMenuActive := active;
     bodyOverflow := if active then "hidden" else EmptyString |}.

(** [isClickInsideNav] is [elements.navbar.contains(event.target)]. *)
Definition handleDocumentClick (isClickInsideNav : bool) (m : menu) : menu :=
  if negb isClickInsideNav && navMenuActive m then toggleMobileMenu m else m.

(** The [keydown] listener of [initializeKeyboardNavigation]. *)
Definition onKeydown (key : string) (m : menu) : menu :=
  if String.eqb key "Escape" && navMenuActive m then toggleMobileMenu m else m.

(** ** Sections, links and the scroll position *)

Record section := {
  section_id : string;           (* getAttribute('id') *)
  offsetTop : Z;
  offsetHeight : Z;
}.

Record link := {
  href : option string;          (* getAttribute('href') *)
  link_active : bool;            (* the class [active] *)
}.

Record view := {
  sections : list section;       (* section[id], in document order *)
  anchors : list (string * Z);   (* id and offsetTop of the elements that
                                    have an id, in document order *)
  navLinks : list link;
  navbarScrolled : bool;         (* the class [scrolled] of the navbar *)
  scrollRequests : list Z;       (* [top] of the window.scrollTo calls *)
}.

Definition set_navLinks (v : list link) (w : view) : view :=
  {| sections := sections w; anchors := anchors w; navLinks := v;
     navbarScrolled := navbarScrolled w;
     scrollRequests := scrollRequests w |}.

Definition set_navbarScrolled (v : bool) (w : view) : view :=
  {| sections := sections w; anchors := anchors w; navLinks := navLinks w;
     navbarScrolled := v; scrollRequests := scrollRequests w |}.

Definition set_scrollRequests (v : list Z) (w : view) : view :=
  {| sections := sections w; anchors := anchors w; navLinks := navLinks w;
     navbarScrolled := navbarScrolled w; scrollRequests := v |}.

(** What the window reports when the script asks for the scroll position:
    [window.pageYOffset] and [document.documentElement.scrollTop]. *)
Record reading := {
  pageYOffset : QArith_base.Q;
  scrollTop : QArith_base.Q;
}.

(** [window.pageYOffset || document.documentElement.scrollTop] *)
Definition getCurrentScrollPosition (r : reading) : QArith_base.Q :=
  if QArith_base.Qeq_bool (pageYOffset r) (QArith_base.inject_Z 0)
  then scrollTop r else pageYOffset r.

(** [document.getElementById(id)]: the first element with this id; no
    element has the empty id. *)
Fixpoint getElementById (id : string) (els : list (string * Z)) : option Z :=
  match els with
  | [] => None
  | (k, top) :: rest =>
      if String.eqb k id && negb (String.eqb id EmptyString)
      then Some top else getElementById id rest
  end.

(** The scroll itself is left to the browser: the request is recorded. *)
Definition smoothScrollTo (targetId : string) (w : view) : view :=
  match getElementById targetId (anchors w) with
  | None => w
  | Some top =>
      let targetPosition := top - scrollOffset in
      set_scrollRequests (scrollRequests w ++ [targetPosition]) w
  end.

Definition updateNavbarOnScroll (r : reading) (w : view) : view :=
  let scrollPosition := getCurrentScrollPosition r in
  set_navbarScrolled
    (negb (QArith_base.Qle_bool scrollPosition (QArith_base.inject_Z 50))) w.

(** The test in the body of [sections.forEach] in [updateActiveNavLink]. *)
Definition within (scrollPosition : QArith_base.Q) (s : section) : bool :=
  let sectionTop := offsetTop s - scrollOffset - 100 in
  let sectionBottom := sectionTop + offsetHeight s in
  QArith_base.Qle_bool (QArith_base.inject_Z sectionTop) scrollPosition
  && negb (QArith_base.Qle_bool (QArith_base.inject_Z sectionBottom)
             scrollPosition).

Definition activeSection (scrollPosition : QArith_base.Q) (w : view) : string :=
  List.fold_left
    (fun active s => if within scrollPosition s then section_id s else active)
    (sections w) EmptyString.

Definition updateActiveNavLink (r : reading) (w : view) : view :=
  let scrollPosition := getCurrentScrollPosition r in
  let activeSection := activeSection scrollPosition w in
  set_navLinks
    (List.map
       (fun l =>
          {| href := href l;
             link_active :=
               match href l with
               | Some h => String.eqb h ("#" +:+ activeSection)
               | None => false
               end |})
       (navLinks w)) w.

(** ** handleNavLinkClick *)

(** [r] is what the window reports once the scroll has been requested. *)
Definition handleNavLinkClick (target_href : option string) (r : reading)
    (st : menu * view) : menu * view :=
  match target_href with
  | Some (String "#" targetId) =>
      let w := smoothScrollTo targetId (snd st) in
      let m := if navMenuActive (fst st)
               then toggleMobileMenu (fst st) else fst st in
      (m, updateActiveNavLink r w)
  | _ => st
  end.

(** ** Scroll animations *)

(** [element.getBoundingClientRect()] *)
Record rect := {
  top : QArith_base.Q;
  left : QArith_base.Q;
  bottom : QArith_base.Q;
  right : QArith_base.Q;
}.

(** The size of the viewport as the window and the root element give it. *)
Record viewport := {
  innerHeight : Z;
  innerWidth : Z;
  clientHeight : Z;
  clientWidth : Z;
}.

(** [a || b] on numbers *)
Definition or_else (a b : Z) : Z := if a =? 0 then b else a.

Definition isElementInViewport (r : rect) (v : viewport) : bool :=
  QArith_base.Qle_bool (QArith_base.inject_Z 0) (top r)
  && QArith_base.Qle_bool (QArith_base.inject_Z 0) (left r)
  && QArith_base.Qle_bool (bottom r)
       (QArith_base.inject_Z (or_else (innerHeight v) (clientHeight v)))
  && QArith_base.Qle_bool (right r)
       (QArith_base.inject_Z (or_else (innerWidth v) (clientWidth v))).

(** [checkElementsInViewport] on the elements to animate: each with the
    rectangle it has now and whether it has the class [visible]. *)
Definition checkElementsInViewport (v : viewport)
    (sectionsToAnimate : list (rect * bool)) : list bool :=
  List.map (fun e => if isElementInViewport (fst e) v then true else snd e)
    sectionsToAnimate.

(** ** What can happen to the menu *)

Inductive event :=
| ClickHamburger
| ClickDocument (isClickInsideNav : bool)
| Keydown (key : string)
| ClickNavLink (target_href : option string) (r : reading)
| ScrollNavbar (r : reading)     (* debounced listener: updateNavbarOnScroll *)
| ScrollLinks (r : reading).     (* debounced listener: updateActiveNavLink *)

Definition step (st : menu * view) (e : event) : menu * view :=
  match e with
  | ClickHamburger => (toggleMobileMenu (fst st), snd st)
  | ClickDocument inside => (handleDocumentClick inside (fst st), snd st)
  | Keydown key => (onKeydown key (fst st), snd st)
  | ClickNavLink h r => handleNavLinkClick h r st
  | ScrollNavbar r => (fst st, updateNavbarOnScroll r (snd st))
  | ScrollLinks r => (fst st, updateActiveNavLink r (snd st))
  end.

Definition run (es : list event) (st : menu * view) : menu * view :=
  List.fold_left step es st.

(** The menu as the markup has it or as [toggleMobileMenu] leaves it:
    both classes agree, and the body does not scroll exactly while the
    menu is open. *)
Definition consistent (m : menu) : Prop :=
  hamburgerActive m = navMenuActive m
  /\ bodyOverflow m = if navMenuActive m then "hidden"%string else EmptyString.

End Navigation.

(* ================================================================== *)
(** * Project detail page: the description *)
(* ================================================================== *)

Module ProjectDetailView.
Import JS.




End ProjectDetailView.

(* ================================================================== *)
(** * Blog detail page: loading and related posts *)
(* ================================================================== *)

Module BlogDetailPage.
Import JS.

Definition blogsDataPath : string := "./data/blogs.json".

(** ** calculateReadingTime *)






(** ** displayRelatedBlogs *)

(** [list.includes(x)] on strings *)
Definition includes (x : string) (l : list string) : bool :=
  List.existsb (String.eqb x) l.

(** The test of the second filter. *)
Definition related (currentBlog b : blog) : bool :=
  String.eqb (category b) (category currentBlog)
  || List.existsb (fun keyword => includes keyword (keywords currentBlog))
       (keywords b).

Definition relatedBlogs (allBlogs : list blog) (currentBlog : blog) : list blog :=
  take 3
    (List.filter (related currentBlog)
       (List.filter
          (fun b => negb (strict_eq (blog_id b) (blog_id currentBlog)))
          allBlogs)).

(** A [div.related-blog-card]. *)
Record related_card := {
  rel_image : string;
  rel_title : string;
  rel_category : string;
  rel_date : string;             (* the publish date, shown in long form *)
  rel_description : string;
  rel_blog_id : string;          (* the argument of navigateToBlogDetail *)
}.

Definition relatedCard (b : blog) : related_card :=
  {| rel_image :=
       match blog_image b with
       | Some src => if String.eqb src EmptyString
                     then Portfolio.blogPlaceholder else src
       | None => Portfolio.blogPlaceholder
       end;
     rel_title := blog_title b;
     rel_category := category b;
     rel_date := publishDate b;
     rel_description := substring_to 120 (shortDescription b) +:+ "...";
     rel_blog_id := to_string (blog_id b) |}.

(** The related posts section: hidden, or showing cards. *)
Inductive related_section :=
| RelatedMarkup                          (* as the page's markup has it *)
| RelatedHidden                          (* display: none *)
| RelatedCards (cards : list related_card).

Definition displayRelatedBlogs (allBlogs : list blog) (currentBlog : blog)
  : related_section :=
  match relatedBlogs allBlogs currentBlog with
  | [] => RelatedHidden
  | rs => RelatedCards (List.map relatedCard rs)
  end.

(** ** The page *)

(** The content of [#blog-content]. *)
Inductive blog_view :=
| ViewMarkup                             (* not yet written by the script *)
| ViewContent (c : BlogDetail.content)   (* written by displayBlogContent *)
| ViewError (message : string).          (* written by showErrorMessage *)

Record page := {
  allBlogs : json blog;                  (* the script's [allBlogs] *)
  currentBlog : option blog;
  blogContent : blog_view;
  relatedSection : related_section;
  loadingScreen : bool;                  (* the loading screen is shown *)
  requests : list string;
}.


Definition set_allBlogs (v : json blog) (p : page) : page :=
  {| allBlogs := v; currentBlog := currentBlog p; blogContent := blogContent p;
     relatedSection := relatedSection p; loadingScreen := loadingScreen p;
     requests := requests p |}.





Definition set_requests (v : list string) (p : page) : page :=
  {| allBlogs := allBlogs p; currentBlog := currentBlog p;
     blogContent := blogContent p; relatedSection := relatedSection p;
     loadingScreen := loadingScreen p; requests := v |}.







End BlogDetailPage.

(* ================================================================== *)
(** * Predicates on the contact form *)
(* ================================================================== *)

Module FormSpec.
Import JS ContactForm.

(** A submitted value that is present and holds a character other than
    whitespace. *)
Definition filled (v : option string) : Prop :=
  exists s, v = Some s /\ all_chars is_whitespace s = false.

(** No field carries two error messages. *)
Definition one_error_per_field (f : form) : Prop :=
  List.NoDup (List.map fst (fieldErrors f)).

(** The identities of the messages that pending timers will remove. *)
Definition removals (ts : list (Z * form_task)) : list nat :=
  List.flat_map
    (fun t => match snd t with RemoveBanner b => [b] | FinishSimulated => [] end)
    ts.

(** The timers of the overview page script: none of them is the timer of
    the simulated submission of [js/script.js]. *)
Definition overview_timers (ts : list (Z * form_task)) : Prop :=
  List.Forall (fun t => snd t <> FinishSimulated) ts.

(** At most one message is shown, and a message that is shown has its
    removal timer pending. *)
Definition messages_expire (f : form) : Prop :=
  (length (banners f) <= 1)%nat
  /\ (forall b, In b (banners f) -> In (fst b) (removals (pending f)))
  /\ overview_timers (pending f).

End FormSpec.

(* ================================================================== *)
(** * Predicates on the project detail page *)
(* ================================================================== *)

Module DetailSpec.
Import JS.


End DetailSpec.

(* ================================================================== *)
(** * Predicates on the blog detail page *)
(* ================================================================== *)

Module BlogSpec.
Import JS.


(** Two posts have a keyword in common. *)
Definition share_keyword (a b : blog) : Prop :=
  exists k, In k (keywords a) /\ In k (keywords b).

(** A post that [displayRelatedBlogs] takes for related to [current]. *)
Definition qualifies (current b : blog) : Prop :=
  blog_id b <> blog_id current
  /\ (category b = category current \/ share_keyword b current).



End BlogSpec.

(* ================================================================== *)
(** * Shapes of markdown text *)
(* ================================================================== *)

Module MarkdownSpec.
Import JS.

(** Lines put together with line feeds. *)
Fixpoint lines_text (first : string) (rest : list string) : string :=
  match rest with
  | [] => first
  | x :: xs => first +:+ String nl (lines_text x xs)
  end.

(** A bulleted line, a numbered line, and the list item both become. *)
Definition bullet (t : string) : string := "- " +:+ t.
Definition numbered (kt : string * string) : string :=
  fst kt +:+ ". " +:+ snd kt.
Definition item (t : string) : string := "<li>" +:+ t +:+ "</li>".

(** The number of a numbered line: one or more digits. *)
Definition digits (k : string) : Prop :=
  k <> EmptyString /\ all_chars is_digit k = true.

(** A line of text without markdown syntax that starts with neither a
    heading marker, a list dash nor a digit. *)
Definition plain_line (l : string) : Prop :=
  Props.inline_text l = true /\ Props.plain_start l = true.

(** A string that is one line: it holds no line terminator. *)
Definition line (l : string) : Prop :=
  Props.lacks nl l = true /\ Props.lacks cr l = true.

End MarkdownSpec.

(* ================================================================== *)
(** * Kinds of blog documents on the overview page *)
(* ================================================================== *)

Module BlogsListSpec.

(** A fetch that gives [loadBlogs] nothing to read a length from: the
    request fails, is answered with an error status, its body is not
    JSON, or the document is [null]. *)
Definition unusable (o : fetched blog) : bool :=
  match o with
  | Rejected => true
  | Response false _ => true
  | Response true None => true
  | Response true (Some JNull) => true
  | Response true (Some _) => false
  end.

(** A document whose [length] is the number 0: the empty array, or an
    object with such a member. *)
Definition zero_length (d : json blog) : bool :=
  match d with
  | JArr [] => true
  | JObj ms => match member "length" ms with
               | Some (JNum 0) => true
               | _ => false
               end
  | _ => false
  end.

Definition is_array (d : json blog) : bool :=
  match d with
  | JArr _ => true
  | _ => false
  end.

End BlogsListSpec.

(* ================================================================== *)
(** * Contracting the projects grid: what is still to happen *)
(* ================================================================== *)

Module GridSpec.
Import JS Portfolio.

(** The view-more container that [document.querySelector] finds is one of
    the projects grid whenever that grid has one: the blogs grid comes
    later in the document, or it holds no such container. *)
Definition projects_control_first (p : page) : Prop :=
  blogsGridFirst p = false
  \/ forall ch, blogsGrid p = Some ch ->
       List.Forall (fun e => is_view_more e = false) ch.

(** The cards that pending timers of [contractProjectsView] will fade or
    remove. *)
Definition pending_cards (ts : list (Z * task)) : list nat :=
  List.flat_map
    (fun t => match snd t with
              | FadeCard c | RemoveCard c => [c]
              | _ => []
              end) ts.

Definition is_pending (ts : list (Z * task)) (e : element) : bool :=
  List.existsb (Nat.eqb (eid e)) (pending_cards ts).

(** The pending button swaps. *)
Definition restores (ts : list (Z * task)) : nat :=
  length (List.filter
            (fun t => match snd t with RestoreViewMore _ => true | _ => false end)
            ts).

(** The number of callbacks that are still to run: a fade sets the timer
    of the removal. *)
Definition weight (t : Z * task) : nat :=
  match snd t with
  | FadeCard _ => 2
  | _ => 1
  end.

Definition work (ts : list (Z * task)) : nat :=
  list_sum (List.map weight ts).

Definition contract_task (s : nat) (t : Z * task) : Prop :=
  match snd t with
  | FadeCard _ | RemoveCard _ => True
  | RestoreViewMore c => c = s
  | _ => False
  end.

(** The timers that [scheduleFades] sets. *)
Fixpoint fades (cards : list element) (index : Z) (clock : Z)
  : list (Z * task) :=
  match cards with
  | [] => []
  | c :: cards' =>
      (clock + index * 50, FadeCard (eid c)) :: fades cards' (index + 1) clock
  end.

(** The grid while it contracts: the three initial cards, the further
    cards that are still to be removed, and one control, which is the
    "Show Less" container [s] until its swap has run and a "View More"
    container afterwards. *)
Definition contracting (l : loc) (ps : list project)
    (bg : option (list element)) (initial further : list element) (s : nat)
    (q : page) : Prop :=
  allProjects q = Some l
  /\ heap q !! l = Some ps
  /\ blogsGrid q = bg
  /\ (s < nextId q)%nat
  /\ List.NoDup (pending_cards (timers q))
  /\ List.incl (pending_cards (timers q)) (List.map eid further)
  /\ List.Forall (contract_task s) (timers q)
  /\ exists control,
       projectsGrid q
       = Some (initial ++ List.filter (is_pending (timers q)) further
                 ++ [control])
       /\ ((restores (timers q) = 1%nat
            /\ control = {| eid := s; widget_of := showLessButton |})
           \/ (restores (timers q) = 0%nat
               /\ (s < eid control)%nat
               /\ widget_of control
                  = viewMoreButton (Z.of_nat (length ps) - 3))).

(** The control of a blogs grid that shows three of five posts. *)
Definition blogs_control : element :=
  {| eid := 0%nat;
     widget_of :=
       ViewMoreContainer {| caption_of := ViewMoreBlogs 2;
                            onclick := CallToggleBlogsView;
                            disabled := false |} |}.

(** A page whose blogs grid comes first in the document and holds that
    control, with the array of the five project records at location 0. *)
Definition page_blogs_first : page :=
  {| heap := <[0%nat := Props.five_projects]> ∅;
     allProjects := None; allBlogs := None;
     projectsGrid := Some []; blogsGrid := Some [blogs_control];
     blogsGridFirst := true; nextId := 1%nat; clock := 0; timers := [];
     requests := []; sessionStorage := ∅; location := "./index.html" |}.

End GridSpec.

(* ================================================================== *)
(** * Project cards *)
(* ================================================================== *)

Section CardFacts.
Import JS Portfolio.



End CardFacts.


(* ================================================================== *)
(** * Printing and parsing identifiers *)
(* ================================================================== *)

Section ParseIntFacts.
Import JS.












End ParseIntFacts.

(* ================================================================== *)
(** * Handing the selected project to the detail page *)
(* ================================================================== *)

Section Handoff.
Import JS.

Lemma strict_eq_true (a b : value) : strict_eq a b = true -> a = b.
Proof.
  destruct a, b; simpl; try discriminate; intros H; try reflexivity.
  - apply Bool.eqb_prop in H. congruence.
  - apply Z.eqb_eq in H. congruence.
  - apply String.eqb_eq in H. congruence.
Qed.



End Handoff.


(* ================================================================== *)
(** * Finding a blog by the identifier in the URL *)
(* ================================================================== *)


(* ================================================================== *)
(** * Contact form *)
(* ================================================================== *)

Section FormFacts.
Import JS ContactForm Props.

Lemma showFieldError_frame (g m : string) (f : form) :
  named (showFieldError g m f) = named f
  /\ posted (showFieldError g m f) = posted f
  /\ submitButton (showFieldError g m f) = submitButton f
  /\ pending (showFieldError g m f) = pending f
  /\ banners (showFieldError g m f) = banners f
  /\ nextBanner (showFieldError g m f) = nextBanner f
  /\ action (showFieldError g m f) = action f.
Proof. unfold showFieldError. destruct (has_field g f); simpl; auto 10. Qed.

Lemma has_field_showFieldError (g m field : string) (f : form) :
  has_field field (showFieldError g m f) = has_field field f.
Proof.
  unfold has_field. destruct (showFieldError_frame g m f) as [-> _].
  reflexivity.
Qed.

Lemma In_remove_first (g field : string) (m : string)
    (es : list (string * string)) :
  field <> g -> In (field, m) es -> In (field, m) (remove_first g es).
Proof.
  intros Hne. induction es as [|[k v] es IH]; simpl; [tauto|].
  intros [Heq | Hin].
  - injection Heq as -> ->.
    destruct (String.eqb_spec field g); [contradiction|]. left. reflexivity.
  - destruct (String.eqb k g); [exact Hin|]. right. apply IH, Hin.
Qed.

(** Showing an error for one field leaves the errors of the others. *)
Lemma showFieldError_keeps (g m field : string) (f : form) :
  error_shown field f -> error_shown field (showFieldError g m f).
Proof.
  intros [msg Hin]. unfold showFieldError, error_shown.
  destruct (has_field g f); [|eauto]. simpl.
  destruct (String.eqb_spec field g) as [->|Hne].
  - exists m. apply in_or_app. right. left. reflexivity.
  - exists msg. apply in_or_app. left. apply In_remove_first; assumption.
Qed.

Lemma showFieldError_shows (g m : string) (f : form) :
  has_field g f = true -> error_shown g (showFieldError g m f).
Proof.
  intros H. unfold showFieldError, error_shown. rewrite H. simpl.
  exists m. apply in_or_app. right. left. reflexivity.
Qed.

Lemma check_frame formValues st field :
  named (snd (check formValues st field)) = named (snd st)
  /\ posted (snd (check formValues st field)) = posted (snd st)
  /\ submitButton (snd (check formValues st field)) = submitButton (snd st)
  /\ pending (snd (check formValues st field)) = pending (snd st).
Proof.
  unfold check. destruct (blank _); simpl; [|auto].
  pose proof (showFieldError_frame field "This field is required" (snd st)).
  tauto.
Qed.

Lemma check_keeps formValues st field g :
  error_shown g (snd st) -> error_shown g (snd (check formValues st field)).
Proof.
  unfold check. destruct (blank _); simpl; [|auto].
  apply showFieldError_keeps.
Qed.

Lemma check_valid formValues st field :
  fst st = false -> fst (check formValues st field) = false.
Proof. unfold check. destruct (blank _); simpl; auto. Qed.

Lemma check_blank formValues st field :
  blank (lookup_value field formValues) = true ->
  fst (check formValues st field) = false
  /\ (has_field field (snd st) = true ->
      error_shown field (snd (check formValues st field))).
Proof.
  intros H. unfold check. rewrite H. simpl. split; [reflexivity|].
  apply showFieldError_shows.
Qed.

(** The loop over a list of fields. *)
Lemma checks_spec formValues (fields : list string) :
  forall st,
    let st' := List.fold_left (check formValues) fields st in
    named (snd st') = named (snd st)
    /\ posted (snd st') = posted (snd st)
    /\ submitButton (snd st') = submitButton (snd st)
    /\ pending (snd st') = pending (snd st)
    /\ (fst st = false -> fst st' = false)
    /\ (forall g, error_shown g (snd st) -> error_shown g (snd st'))
    /\ (forall field, In field fields ->
          blank (lookup_value field formValues) = true ->
          fst st' = false
          /\ (has_field field (snd st) = true -> error_shown field (snd st'))).
Proof.
  induction fields as [|x fields IH]; intros st; cbv zeta.
  - simpl. repeat split; auto; contradiction.
  - simpl. specialize (IH (check formValues st x)). cbv zeta in IH.
    destruct IH as (Hn & Hp & Hb & Hq & Hv & Hk & Hf).
    destruct (check_frame formValues st x) as (Hn' & Hp' & Hb' & Hq').
    repeat split; try congruence.
    + intros H0. apply Hv, check_valid, H0.
    + intros g Hg. apply Hk, check_keeps, Hg.
    + destruct H as [<- | Hin].
      * apply Hv. apply (check_blank formValues st x H0).
      * apply (Hf field Hin H0).
    + intros Hhas. destruct H as [<- | Hin].
      * apply Hk. apply (check_blank formValues st x H0). exact Hhas.
      * apply (Hf field Hin H0). unfold has_field in *. rewrite Hn'. exact Hhas.
Qed.

Lemma validateContactForm_spec formValues (f : form) :
  let r := validateContactForm formValues f in
  named (snd r) = named f
  /\ posted (snd r) = posted f
  /\ submitButton (snd r) = submitButton f
  /\ pending (snd r) = pending f
  /\ (forall field, In field requiredFields ->
        blank (lookup_value field formValues) = true ->
        fst r = false
        /\ (has_field field f = true -> error_shown field (snd r))).
Proof.
  cbv zeta. unfold validateContactForm.
  pose proof (checks_spec formValues requiredFields (true, f)) as H.
  cbv zeta in H.
  destruct (List.fold_left (check formValues) requiredFields (true, f))
    as [isValid f1] eqn:E.
  simpl in H. destruct H as (Hn & Hp & Hb & Hq & _ & _ & Hf).
  set (m := "Please enter a valid email address").
  destruct (showFieldError_frame "email" m f1) as (Hn' & Hp' & Hb' & Hq' & _).
  destruct (lookup_value "email" formValues) as [email|];
    [destruct (negb (String.eqb email EmptyString) && negb (isValidEmail email))|];
    simpl; repeat split; try congruence;
    try (intros; apply (Hf field); assumption);
    try (intros; apply showFieldError_keeps; apply (Hf field); assumption).
Qed.

(** Validation never writes the form's [action]. *)
Lemma validateContactForm_action formValues (f : form) :
  action (snd (validateContactForm formValues f)) = action f.
Proof.
  unfold validateContactForm.
  assert (H : forall fields st,
            action (snd (List.fold_left (check formValues) fields st))
            = action (snd st)).
  { induction fields as [|x fields IH]; intros st; simpl; [reflexivity|].
    rewrite IH. unfold check. destruct (blank _); [|reflexivity].
    simpl. apply showFieldError_frame. }
  specialize (H requiredFields (true, f)).
  destruct (List.fold_left (check formValues) requiredFields (true, f))
    as [isValid f1].
  simpl in H.
  destruct (lookup_value "email" formValues) as [email|];
    [destruct (negb (String.eqb email EmptyString) && negb (isValidEmail email))|];
    simpl; try exact H.
  rewrite <- H. apply showFieldError_frame.
Qed.

Lemma showFormLoading_button (isLoading : bool) (f : form) (b : submit_button) :
  submitButton f = Some b ->
  submitButton (showFormLoading isLoading f)
  = Some (if isLoading then sending_button else restored_button).
Proof.
  intros H. unfold showFormLoading. rewrite H. destruct isLoading; reflexivity.
Qed.

Lemma report_errors_button (errors : list (option string * string)) :
  forall f,
    submitButton
      (List.fold_left
         (fun f e =>
            match fst e with
            | Some field =>
                if String.eqb field EmptyString then f
                else showFieldError field (snd e) f
            | None => f
            end) errors f)
    = submitButton f.
Proof.
  induction errors as [|[field m] errors IH]; intros f; simpl; [reflexivity|].
  rewrite IH. destruct field as [field|]; [|reflexivity].
  destruct (String.eqb field EmptyString); [reflexivity|].
  apply showFieldError_frame.
Qed.

(** Whatever the outcome, the handler ends with the button restored. *)
Lemma settle_button (o : submitted) (f : form) (b : submit_button) :
  submitButton f = Some b ->
  submitButton (handleContactFormSubmit_settle o f) = Some restored_button.
Proof.
  intros H. unfold handleContactFormSubmit_settle.
  destruct o as [| |[| |errors]];
    try (eapply (showFormLoading_button false); simpl; exact H).
  eapply (showFormLoading_button false). rewrite report_errors_button. exact H.
Qed.

End FormFacts.



(** C9: a run of the handler that passes validation disables the submit
    button with the text "Sending..." and issues the request; once the
    request has settled, whether it succeeded, was answered with
    field-level errors or with none, could not be parsed or failed, the
    button is enabled again with the text "Send Message". *)
Theorem C9_submit_button_restored
    (f : ContactForm.form) (b : ContactForm.submit_button)
    (o : ContactForm.submitted) :
  ContactForm.submitButton f = Some b ->
  fst (ContactForm.validateContactForm (ContactForm.formData f) f) = true ->
  snd (ContactForm.handleContactFormSubmit_begin f) = true
  /\ ContactForm.submitButton (fst (ContactForm.handleContactFormSubmit_begin f))
     = Some Props.sending_button
  /\ ContactForm.posted (fst (ContactForm.handleContactFormSubmit_begin f))
     = ContactForm.posted f ++ [(ContactForm.action f, ContactForm.formData f)]
  /\ ContactForm.submitButton (ContactForm.handleContactFormSubmit o f)
     = Some Props.restored_button
  /\ (forall g b',
        ContactForm.submitButton g = Some b' ->
        ContactForm.submitButton (ContactForm.handleContactFormSubmit_settle o g)
        = Some Props.restored_button).
Proof.
  intros Hb Hvalid.
  pose proof (validateContactForm_spec (ContactForm.formData f) f) as H.
  pose proof (validateContactForm_action (ContactForm.formData f) f) as Ha.
  cbv zeta in H.
  unfold ContactForm.handleContactFormSubmit,
    ContactForm.handleContactFormSubmit_begin.
  destruct (ContactForm.validateContactForm (ContactForm.formData f) f)
    as [isValid f1].
  simpl in Hvalid, H, Ha. subst isValid. destruct H as (Hn & Hp & Hb1 & _ & _).
  rewrite Hb in Hb1.
  pose proof (showFormLoading_button true f1 b Hb1) as Hs. simpl in Hs.
  simpl. repeat split.
  - exact Hs.
  - unfold ContactForm.showFormLoading. rewrite Hb1. simpl. congruence.
  - eapply settle_button. simpl. exact Hs.
  - intros g b' Hg. eapply settle_button. exact Hg.
Qed.

Lemma C9_witness :
  ContactForm.submitButton
    (ContactForm.handleContactFormSubmit ContactForm.SubmitRejected
       (Props.filled_form "Hello"))
  = Some Props.restored_button.
Proof.
  apply (C9_submit_button_restored (Props.filled_form "Hello")
           Props.restored_button ContactForm.SubmitRejected);
    reflexivity.
Defined.

(* ================================================================== *)
(** * Projects grid: what the view functions leave alone *)
(* ================================================================== *)

Section Frame.
Import JS Portfolio Props.

Lemma kept_refl (p : page) : kept p p.
Proof. unfold kept. auto. Qed.

Lemma kept_trans (p q r : page) : kept p q -> kept q r -> kept p r.
Proof. unfold kept. intros (? & ? & ?) (? & ? & ?). repeat split; congruence. Qed.

Local Ltac frame :=
  unfold kept;
  repeat (cbn [heap allProjects requests set_heap set_allProjects set_allBlogs
                 set_projectsGrid set_blogsGrid set_nextId set_clock set_timers
                 set_requests set_sessionStorage set_location];
          match goal with
          | |- context [match ?x with _ => _ end] => destruct x
          | |- context [if ?x then _ else _] => destruct x
          end);
  cbn [heap allProjects requests set_heap set_allProjects set_allBlogs
         set_projectsGrid set_blogsGrid set_nextId set_clock set_timers
         set_requests set_sessionStorage set_location];
  auto.

Lemma kept_setTimeout t d p : kept p (setTimeout t d p).
Proof. unfold setTimeout. frame. Qed.

Lemma kept_appendToProjects w p : kept p (appendToProjects w p).
Proof. unfold appendToProjects. frame. Qed.

Lemma kept_remove_element i p : kept p (remove_element i p).
Proof. unfold remove_element. frame. Qed.

Lemma kept_update_element i f p : kept p (update_element i f p).
Proof. unfold update_element. frame. Qed.

Lemma kept_appendCards ps : forall from p, kept p (appendCards ps from p).
Proof.
  induction ps as [|x ps IH]; intros from p; simpl; [apply kept_refl|].
  eapply kept_trans; [apply kept_appendToProjects | apply IH].
Qed.

Lemma kept_scheduleFades cs : forall index p, kept p (scheduleFades cs index p).
Proof.
  induction cs as [|c cs IH]; intros index p; simpl; [apply kept_refl|].
  eapply kept_trans; [apply kept_setTimeout | apply IH].
Qed.

Lemma kept_expandProjectsView p : kept p (expandProjectsView p).
Proof.
  unfold expandProjectsView.
  destruct (allProjects p); [|apply kept_refl].
  destruct (query_view_more p); [|apply kept_refl].
  eapply kept_trans; [apply kept_update_element | apply kept_setTimeout].
Qed.

Lemma kept_contractProjectsView p : kept p (contractProjectsView p).
Proof.
  unfold contractProjectsView.
  destruct (allProjects p); [|apply kept_refl].
  destruct (projectsGrid p); [|apply kept_refl].
  destruct (query_view_more p).
  - eapply kept_trans; [apply kept_scheduleFades | apply kept_setTimeout].
  - apply kept_scheduleFades.
Qed.

Lemma kept_toggleProjectsView p : kept p (toggleProjectsView p).
Proof.
  unfold toggleProjectsView.
  destruct (projectsGrid p); [|apply kept_refl].
  destruct (3 <? _); [apply kept_contractProjectsView | apply kept_expandProjectsView].
Qed.

Lemma kept_clickViewDetails i p : kept p (clickViewDetails i p).
Proof.
  unfold clickViewDetails. destruct (find_card i p); [|apply kept_refl].
  eapply kept_trans; [apply kept_update_element | apply kept_setTimeout].
Qed.

Lemma kept_expandBody c p : kept p (expandBody c p).
Proof.
  unfold expandBody.
  eapply kept_trans; [apply kept_remove_element|].
  destruct (allProjects _); [|apply kept_refl].
  destruct (heap _ !! _); [|apply kept_refl].
  destruct (projectsGrid _), (drop 3 _);
    try apply kept_refl;
    (eapply kept_trans; [apply kept_appendCards | apply kept_setTimeout]).
Qed.

Lemma kept_restoreViewMore c p : kept p (restoreViewMore c p).
Proof.
  unfold restoreViewMore.
  eapply kept_trans; [apply kept_remove_element|].
  destruct (allProjects _); [|apply kept_refl].
  destruct (heap _ !! _); [|apply kept_refl].
  apply kept_appendToProjects.
Qed.

Lemma kept_fire t p : kept p (fire t p).
Proof.
  destruct t; simpl.
  - apply kept_expandBody.
  - apply kept_appendToProjects.
  - apply kept_setTimeout.
  - apply kept_remove_element.
  - apply kept_restoreViewMore.
  - unfold navigateToProjectDetail. frame.
  - destruct (projectsGrid p) as [[|]|]; try apply kept_refl.
    unfold testProjectCard. destruct (projectsGrid p); [|apply kept_refl].
    eapply kept_trans; [|apply kept_appendToProjects]. frame.
Qed.

Lemma kept_tick p : kept p (tick p).
Proof.
  unfold tick. destruct (pop_earliest (timers p)) as [[[due t] rest]|];
    [|apply kept_refl].
  eapply kept_trans; [|apply kept_fire]. frame.
Qed.

Lemma kept_step p e : kept p (step p e).
Proof.
  destruct e; simpl.
  - apply kept_toggleProjectsView.
  - apply kept_expandProjectsView.
  - apply kept_contractProjectsView.
  - apply kept_clickViewDetails.
  - apply kept_tick.
Qed.

Lemma kept_run es : forall p, kept p (run es p).
Proof.
  unfold run. induction es as [|e es IH]; intros p; simpl; [apply kept_refl|].
  eapply kept_trans; [apply kept_step | apply IH].
Qed.

End Frame.

(* ================================================================== *)
(** * Projects grid: initial render and expansion *)
(* ================================================================== *)

Section Grid.
Import JS Portfolio Props.

Lemma appendCards_eq (ps : list project) :
  forall (from : Z) (p : page) (ch : list element),
    projectsGrid p = Some ch ->
    appendCards ps from p
    = set_nextId (nextId p + length ps)%nat
        (set_projectsGrid (Some (ch ++ card_elements (nextId p) ps from)) p).
Proof.
  induction ps as [|x ps IH]; intros from p ch Hg.
  - simpl. rewrite app_nil_r, Nat.add_0_r. rewrite <- Hg.
    destruct p; reflexivity.
  - simpl. unfold appendToProjects at 1. rewrite Hg.
    erewrite IH by reflexivity.
    unfold set_nextId, set_projectsGrid. simpl.
    rewrite <- app_assoc. simpl.
    replace (S (nextId p + length ps)) with (nextId p + S (length ps))%nat
      by lia.
    reflexivity.
Qed.

Lemma cards_of_app (a b : list widget) :
  cards_of (a ++ b) = cards_of a ++ cards_of b.
Proof. unfold cards_of. apply flat_map_app. Qed.

Lemma cards_of_cards (cs : list card) : cards_of (List.map ProjectCard cs) = cs.
Proof. induction cs as [|c cs IH]; simpl; [reflexivity|]. f_equal. exact IH. Qed.

Lemma card_elements_widgets (ps : list project) :
  forall i from,
    List.map widget_of (card_elements i ps from)
    = List.map ProjectCard (cards_from ps from).
Proof.
  induction ps as [|x ps IH]; intros i from; simpl; [reflexivity|].
  f_equal. apply IH.
Qed.

Lemma card_elements_ids (ps : list project) :
  forall i from e,
    In e (card_elements i ps from) ->
    (i <= eid e < i + length ps)%nat /\ is_view_more e = false.
Proof.
  induction ps as [|x ps IH]; intros i from e; simpl; [tauto|].
  intros [<- | Hin]; simpl.
  - split; [lia | reflexivity].
  - destruct (IH _ _ _ Hin) as [Hr Hv]. split; [lia | exact Hv].
Qed.

Lemma card_elements_are_cards (ps : list project) :
  forall i from e, In e (card_elements i ps from) -> is_project_card e = true.
Proof.
  induction ps as [|x ps IH]; intros i from e; simpl; [tauto|].
  intros [<- | Hin]; [reflexivity | eapply IH, Hin].
Qed.

Lemma cards_from_app (a b : list project) :
  forall from,
    cards_from (a ++ b) from
    = cards_from a from ++ cards_from b (from + Z.of_nat (length a)).
Proof.
  induction a as [|x a IH]; intros from; simpl.
  - f_equal. lia.
  - f_equal. rewrite IH. f_equal. f_equal. lia.
Qed.

Lemma cards_from_length (ps : list project) :
  forall from, length (cards_from ps from) = length ps.
Proof. induction ps as [|x ps IH]; intros from; simpl; [reflexivity|]. f_equal. apply IH. Qed.

(** Removing an element that is not a card leaves the cards, whatever
    was done to that element before. *)
Lemma cards_after_removal (c : nat) (f : widget -> widget) (ch : list element) :
  (forall e, In e ch -> is_project_card e = true -> eid e <> c) ->
  cards_of (List.map widget_of (remove_from c (update_widget c f ch)))
  = cards_of (List.map widget_of ch).
Proof.
  induction ch as [|e ch IH]; intros Hc; [reflexivity|].
  assert (IH' := IH (fun e' H => Hc e' (or_intror H))).
  simpl. destruct (Nat.eqb_spec (eid e) c) as [Heq|Hne]; simpl.
  - rewrite Heq, Nat.eqb_refl. simpl. rewrite IH'.
    destruct e as [i w]. simpl in *.
    destruct w; try reflexivity.
    exfalso. apply (Hc {| eid := i; widget_of := ProjectCard c0 |});
      [left; reflexivity | reflexivity | exact Heq].
  - destruct (Nat.eqb_spec (eid e) c); [contradiction|].
    unfold cards_of in *. simpl. f_equal. exact IH'.
Qed.

(** The state in which [displayProjects] leaves the page. *)
Lemma displayProjects_eq (l : loc) (p : page) (ps : list project)
    (ch : list element) :
  heap p !! l = Some ps ->
  projectsGrid p = Some ch ->
  let cards := card_elements (nextId p) (take 3 ps) 0 in
  let control :=
    if 3 <? Z.of_nat (length ps)
    then [{| eid := (nextId p + length (take 3 ps))%nat;
             widget_of := viewMoreButton (Z.of_nat (length ps) - 3) |}]
    else [] in
  displayProjects l p
  = set_nextId (nextId p + length (take 3 ps) + length control)%nat
      (set_projectsGrid (Some (cards ++ control))
         (set_allProjects (Some l) p)).
Proof.
  intros Hl Hg. cbv zeta. unfold displayProjects. rewrite Hl, Hg.
  erewrite appendCards_eq by reflexivity.
  destruct (3 <? Z.of_nat (length ps)).
  - unfold appendToProjects, set_nextId, set_projectsGrid, set_allProjects.
    simpl. rewrite Nat.add_1_r. reflexivity.
  - unfold set_nextId, set_projectsGrid, set_allProjects. simpl.
    rewrite app_nil_r, Nat.add_0_r. reflexivity.
Qed.

(** The projects grid once the callback of [expandProjectsView] has run. *)
Lemma expand_then_tick (q : page) (l : loc) (ps : list project)
    (elts : list element) (e : element) :
  allProjects q = Some l ->
  heap q !! l = Some ps ->
  projectsGrid q = Some elts ->
  timers q = [] ->
  query_view_more q = Some e ->
  projectsGrid (tick (expandProjectsView q))
  = Some (remove_from (eid e) (update_widget (eid e) loadingState elts)
            ++ card_elements (nextId q) (drop 3 ps) 3).
Proof.
  intros Ha Hh Hg Ht Hq.
  unfold expandProjectsView. rewrite Ha, Hq.
  unfold tick, setTimeout, update_element. simpl. rewrite Ht. simpl.
  unfold expandBody, remove_element. simpl. rewrite Ha. simpl. rewrite Hh, Hg.
  simpl.
  erewrite appendCards_eq by reflexivity.
  destruct (drop 3 ps); reflexivity.
Qed.

(** Whenever the callback of [expandProjectsView] runs, it appends the
    cards of the cached records from the fourth on. *)
Lemma expandBody_view (c : nat) (q : page) (l : loc) (ps : list project)
    (elts : list element) :
  allProjects q = Some l ->
  heap q !! l = Some ps ->
  projectsGrid q = Some elts ->
  projects_view (fire (ExpandBody c) q)
  = List.map widget_of (remove_from c elts)
      ++ List.map ProjectCard (cards_from (drop 3 ps) 3).
Proof.
  intros Ha Hh Hg. simpl. unfold expandBody, remove_element. simpl.
  rewrite Ha. simpl. rewrite Hh, Hg. simpl.
  assert (E : forall rem,
             projects_view
               (setTimeout AddShowLess (Z.of_nat (length rem) * 100 + 200)
                  (appendCards rem 3
                     (set_blogsGrid (option_map (remove_from c) (blogsGrid q))
                        (set_projectsGrid (Some (remove_from c elts)) q))))
             = List.map widget_of (remove_from c elts)
                 ++ List.map ProjectCard (cards_from rem 3)).
  { intros rem. erewrite appendCards_eq by reflexivity.
    unfold projects_view. simpl.
    rewrite List.map_app, card_elements_widgets. reflexivity. }
  destruct (drop 3 ps) as [|x rem]; apply E.
Qed.

Lemma expand_timers (q : page) (l : loc) (e : element) :
  allProjects q = Some l ->
  query_view_more q = Some e ->
  timers (expandProjectsView q)
  = timers q ++ [(clock q + 500, ExpandBody (eid e))].
Proof.
  intros Ha Hq. unfold expandProjectsView. rewrite Ha, Hq. reflexivity.
Qed.

Lemma project_cards_length (i : nat) (ps : list project) (from : Z)
    (rest : list element) :
  (forall e, In e rest -> is_project_card e = false) ->
  length (project_cards (card_elements i ps from ++ rest)) = length ps.
Proof.
  intros Hrest. unfold project_cards. rewrite List.filter_app, length_app.
  assert (H1 : List.filter is_project_card rest = []).
  { clear -Hrest. induction rest as [|e rest IH]; [reflexivity|]. simpl.
    rewrite (Hrest e (or_introl eq_refl)). apply IH.
    intros e' H. apply Hrest. right. exact H. }
  rewrite H1. simpl. rewrite Nat.add_0_r. clear.
  revert i from. induction ps as [|x ps IH]; intros i from; simpl;
    [reflexivity|]. f_equal. apply IH.
Qed.

End Grid.

(** C1: [displayProjects] renders the cards of the first three records,
    min(n, 3) cards in all; for n > 3 they are followed by the "View More
    Projects" control labelled with n - 3.  Activating it (the control
    calls [toggleProjectsView], which expands) sets a timer whose callback,
    whenever it runs, appends the cards of the remaining n - 3 records of
    the cached array in order; with no other timer pending the next timer
    to fire is this one, and the grid then holds the cards of all n
    records, the three initial ones first. *)
Theorem C1_three_cards_then_the_rest
    (p : Portfolio.page) (l : Portfolio.loc) (ps : list project)
    (ch : list Portfolio.element) :
  Portfolio.heap p !! l = Some ps ->
  Portfolio.projectsGrid p = Some ch ->
  Props.fresh_ids p ->
  let n := Z.of_nat (length ps) in
  let p1 := Portfolio.displayProjects l p in
  let p2 := Portfolio.tick (Portfolio.step p1 Portfolio.Toggle) in
  Portfolio.cards_of (Portfolio.projects_view p1)
    = Portfolio.cards_from (take 3 ps) 0
  /\ Z.of_nat (length (Portfolio.cards_of (Portfolio.projects_view p1)))
     = Z.min n 3
  /\ (n <= 3 ->
      Portfolio.projects_view p1
      = List.map Portfolio.ProjectCard (Portfolio.cards_from ps 0))
  /\ (3 < n ->
      Portfolio.projects_view p1
      = List.map Portfolio.ProjectCard (Portfolio.cards_from (take 3 ps) 0)
          ++ [Portfolio.viewMoreButton (n - 3)]
      /\ Portfolio.step p1 Portfolio.Toggle = Portfolio.expandProjectsView p1
      /\ Z.of_nat (length (Portfolio.cards_from (drop 3 ps) 3)) = n - 3
      /\ (exists c,
            Portfolio.timers (Portfolio.step p1 Portfolio.Toggle)
            = Portfolio.timers p
                ++ [(Portfolio.clock p + 500, Portfolio.ExpandBody c)])
      /\ (forall c q elts,
            Portfolio.allProjects q = Some l ->
            Portfolio.heap q !! l = Some ps ->
            Portfolio.projectsGrid q = Some elts ->
            Portfolio.projects_view (Portfolio.fire (Portfolio.ExpandBody c) q)
            = List.map Portfolio.widget_of (Portfolio.remove_from c elts)
                ++ List.map Portfolio.ProjectCard
                     (Portfolio.cards_from (drop 3 ps) 3))
      /\ (Portfolio.timers p = [] ->
          Portfolio.cards_of (Portfolio.projects_view p2)
          = Portfolio.cards_from ps 0
          /\ exists initial,
               Portfolio.projects_view p2
               = initial
                   ++ List.map Portfolio.ProjectCard
                        (Portfolio.cards_from (drop 3 ps) 3)
               /\ Portfolio.cards_of initial
                  = Portfolio.cards_from (take 3 ps) 0)).
Proof.
  intros Hl Hg Hfresh n p1 p2.
  pose proof (displayProjects_eq l p ps ch Hl Hg) as E. cbv zeta in E.
  fold p1 in E.
  set (cards := Props.card_elements (Portfolio.nextId p) (take 3 ps) 0) in *.
  set (control :=
         if 3 <? Z.of_nat (length ps)
         then [{| Portfolio.eid := (Portfolio.nextId p + length (take 3 ps))%nat;
                  Portfolio.widget_of :=
                    Portfolio.viewMoreButton (Z.of_nat (length ps) - 3) |}]
         else []) in *.
  assert (Hgrid : Portfolio.projectsGrid p1 = Some (cards ++ control))
    by (rewrite E; reflexivity).
  assert (Hview : Portfolio.projects_view p1
                  = List.map Portfolio.ProjectCard
                      (Portfolio.cards_from (take 3 ps) 0)
                      ++ List.map Portfolio.widget_of control).
  { unfold Portfolio.projects_view. rewrite Hgrid, List.map_app.
    unfold cards. rewrite card_elements_widgets. reflexivity. }
  assert (Hcontrol : Portfolio.cards_of (List.map Portfolio.widget_of control) = []).
  { unfold control. destruct (3 <? Z.of_nat (length ps)); reflexivity. }
  assert (Hcards : Portfolio.cards_of (Portfolio.projects_view p1)
                   = Portfolio.cards_from (take 3 ps) 0).
  { rewrite Hview, cards_of_app, cards_of_cards, Hcontrol. apply app_nil_r. }
  split; [exact Hcards|].
  split.
  { rewrite Hcards, cards_from_length, length_take. subst n. lia. }
  split.
  { intros Hn. rewrite Hview. unfold control.
    destruct (Z.ltb_spec 3 (Z.of_nat (length ps))); [subst n; lia|].
    rewrite take_ge by (subst n; lia). apply app_nil_r. }
  intros Hn.
  assert (Hb : (3 <? Z.of_nat (length ps)) = true) by (apply Z.ltb_lt; exact Hn).
  assert (Hlen3 : length (take 3 ps) = 3%nat)
    by (rewrite length_take; subst n; lia).
  set (b := {| Portfolio.eid := (Portfolio.nextId p + length (take 3 ps))%nat;
               Portfolio.widget_of :=
                 Portfolio.viewMoreButton (Z.of_nat (length ps) - 3) |}).
  assert (Hc : control = [b]) by (unfold control; rewrite Hb; reflexivity).
  rewrite Hc in *. clear Hc.
  assert (Hframe : Portfolio.heap p1 = Portfolio.heap p
                   /\ Portfolio.allProjects p1 = Some l
                   /\ Portfolio.timers p1 = Portfolio.timers p
                   /\ Portfolio.clock p1 = Portfolio.clock p
                   /\ Portfolio.blogsGrid p1 = Portfolio.blogsGrid p
                   /\ Portfolio.blogsGridFirst p1 = Portfolio.blogsGridFirst p)
    by (rewrite E; simpl; auto 10).
  destruct Hframe as (Hheap & Hall & Htim & Hclock & Hblogs & Hfirst).
  split; [exact Hview|].
  assert (Htoggle : Portfolio.step p1 Portfolio.Toggle
                    = Portfolio.expandProjectsView p1).
  { simpl. unfold Portfolio.toggleProjectsView. rewrite Hgrid.
    unfold cards. rewrite project_cards_length.
    - rewrite Hlen3. reflexivity.
    - intros e [<- | []]. reflexivity. }
  split; [exact Htoggle|].
  split.
  { rewrite cards_from_length, length_drop. subst n. lia. }
  (* the container found by the selector *)
  destruct (Portfolio.query_view_more p1) as [e|] eqn:Hq.
  2:{ exfalso. unfold Portfolio.query_view_more in Hq.
      pose proof (List.find_none _ _ Hq b) as Hnone.
      assert (Hin : In b (Portfolio.grid_elements p1)).
      { unfold Portfolio.grid_elements. rewrite Hgrid.
        destruct (Portfolio.blogsGridFirst p1); apply in_or_app;
          [right | left]; apply in_or_app; right; left; reflexivity. }
      specialize (Hnone Hin). discriminate. }
  assert (He : In e (Portfolio.grid_elements p1)
               /\ Portfolio.is_view_more e = true)
    by (apply List.find_some; exact Hq).
  destruct He as [Hin Hvm].
  split.
  { exists (Portfolio.eid e). rewrite Htoggle.
    rewrite (expand_timers p1 l e Hall Hq), Htim, Hclock. reflexivity. }
  split.
  { intros c q elts. apply expandBody_view. }
  intros Ht.
  assert (Hid : forall x, In x (cards ++ [b]) ->
                  Portfolio.is_project_card x = true ->
                  Portfolio.eid x <> Portfolio.eid e).
  { intros x Hx Hcard.
    apply in_app_or in Hx as [Hx | [<- | []]]; [|discriminate].
    destruct (card_elements_ids _ _ _ _ Hx) as [Hrange _].
    unfold Portfolio.grid_elements in Hin. rewrite Hgrid, Hblogs in Hin.
    assert (Hcase : In e cards \/ e = b
                    \/ In e (match Portfolio.blogsGrid p with
                             | Some c => c | None => [] end)).
    { destruct (Portfolio.blogsGridFirst p1);
        repeat (apply in_app_or in Hin as [Hin | Hin]);
        simpl in Hin; intuition congruence. }
    destruct Hcase as [Hc | [-> | Hc]].
    - destruct (card_elements_ids _ _ _ _ Hc) as [_ Hv]. congruence.
    - simpl. lia.
    - assert (Portfolio.eid e < Portfolio.nextId p)%nat; [|lia].
      unfold Props.fresh_ids in Hfresh.
      rewrite List.Forall_forall in Hfresh. apply Hfresh.
      unfold Portfolio.grid_elements.
      destruct (Portfolio.blogsGridFirst p); apply in_or_app; tauto. }
  assert (Hp2 : Portfolio.projectsGrid p2
                = Some (Portfolio.remove_from (Portfolio.eid e)
                          (Portfolio.update_widget (Portfolio.eid e)
                             Portfolio.loadingState (cards ++ [b]))
                        ++ Props.card_elements (Portfolio.nextId p1)
                             (drop 3 ps) 3)).
  { unfold p2. rewrite Htoggle.
    apply (expand_then_tick p1 l ps); try assumption; congruence. }
  set (initial := List.map Portfolio.widget_of
                    (Portfolio.remove_from (Portfolio.eid e)
                       (Portfolio.update_widget (Portfolio.eid e)
                          Portfolio.loadingState (cards ++ [b])))).
  assert (Hv2 : Portfolio.projects_view p2
                = initial ++ List.map Portfolio.ProjectCard
                               (Portfolio.cards_from (drop 3 ps) 3)).
  { unfold Portfolio.projects_view. rewrite Hp2, List.map_app,
      card_elements_widgets. reflexivity. }
  assert (Hinit : Portfolio.cards_of initial = Portfolio.cards_from (take 3 ps) 0).
  { unfold initial. rewrite cards_after_removal by exact Hid.
    rewrite <- Hcards. unfold Portfolio.projects_view. rewrite Hgrid.
    reflexivity. }
  split.
  - rewrite Hv2, cards_of_app, cards_of_cards, Hinit.
    rewrite <- (take_drop 3 ps) at 3. rewrite cards_from_app, Hlen3.
    reflexivity.
  - exists initial. split; [exact Hv2 | exact Hinit].
Qed.

Lemma C1_witness :
  Z.of_nat
    (length
       (Portfolio.cards_of
          (Portfolio.projects_view
             (Portfolio.displayProjects 0%nat Props.page_with_five))))
  = Z.min 5 3
  /\ Portfolio.cards_of
       (Portfolio.projects_view
          (Portfolio.tick
             (Portfolio.step
                (Portfolio.displayProjects 0%nat Props.page_with_five)
                Portfolio.Toggle)))
     = Portfolio.cards_from Props.five_projects 0.
Proof.
  pose proof (C1_three_cards_then_the_rest Props.page_with_five 0%nat
                Props.five_projects []) as H.
  cbv zeta in H.
  destruct H as (_ & Hlen & _ & Hmore).
  - apply lookup_insert_eq.
  - reflexivity.
  - constructor.
  - split; [exact Hlen|].
    destruct (Hmore eq_refl) as (_ & _ & _ & _ & _ & Hall).
    apply Hall. reflexivity.
Defined.

(** C7: the records are only read.  [displayProjects] caches the very
    array it was given in [window.allProjects] and leaves every array
    object as it was; whatever sequence of expanding, contracting,
    toggling, card clicks and timer callbacks follows, no array object
    changes and the cache still points to the same array with the same
    records.  [createProjectCard] is a function of the record alone. *)
Theorem C7_project_records_are_never_written
    (p : Portfolio.page) (l : Portfolio.loc) (ps : list project)
    (ch : list Portfolio.element) (es : list Portfolio.event) :
  Portfolio.heap p !! l = Some ps ->
  Portfolio.projectsGrid p = Some ch ->
  let p1 := Portfolio.displayProjects l p in
  let p' := Portfolio.run es p1 in
  Portfolio.heap p1 = Portfolio.heap p
  /\ Portfolio.allProjects p1 = Some l
  /\ Portfolio.heap p' = Portfolio.heap p
  /\ Portfolio.allProjects p' = Some l
  /\ Portfolio.heap p' !! l = Some ps.
Proof.
  intros Hl Hg p1 p'.
  pose proof (displayProjects_eq l p ps ch Hl Hg) as E. cbv zeta in E.
  fold p1 in E.
  assert (H1 : Portfolio.heap p1 = Portfolio.heap p
               /\ Portfolio.allProjects p1 = Some l)
    by (rewrite E; simpl; auto).
  destruct H1 as [Hh Ha].
  destruct (kept_run es p1) as (Hh' & Ha' & _). fold p' in Hh', Ha'.
  repeat split; try congruence.
Qed.

Lemma C7_witness :
  Portfolio.allProjects
    (Portfolio.run Props.expand_and_contract
       (Portfolio.displayProjects 0%nat Props.page_with_five))
  = Some 0%nat
  /\ Portfolio.heap
       (Portfolio.run Props.expand_and_contract
          (Portfolio.displayProjects 0%nat Props.page_with_five))
     !! 0%nat
     = Some Props.five_projects.
Proof.
  pose proof (C7_project_records_are_never_written Props.page_with_five 0%nat
                Props.five_projects [] Props.expand_and_contract) as H.
  cbv zeta in H.
  destruct H as (_ & _ & _ & Ha & Hh).
  - apply lookup_insert_eq.
  - reflexivity.
  - split; [exact Ha | exact Hh].
Defined.

(* ================================================================== *)
(** * Loading the two documents *)
(* ================================================================== *)

Section Loading.
Import JS Portfolio Props.

Lemma loadProjects_begin_eq (p : page) (ch : list element) :
  projectsGrid p = Some ch ->
  loadProjects_begin p
  = set_requests (requests p ++ [projectsDataPath])
      (set_nextId (S (nextId p))
         (set_projectsGrid
            (Some [{| eid := nextId p; widget_of := ProjectsLoading |}]) p)).
Proof.
  intros Hg. unfold loadProjects_begin, showProjectsLoading. rewrite Hg.
  reflexivity.
Qed.

Lemma settle_failed (o : fetched project) (q : page) :
  failed o = true -> loadProjects_settle o q = showProjectsError q.
Proof.
  unfold failed, projects_array, loadProjects_settle.
  destruct o as [|[|] [d|]]; try reflexivity.
  destruct d as [| | | | |ms]; try reflexivity.
  destruct (member "projects" ms) as [[| | | | |]|];
    try reflexivity; discriminate.
Qed.


Lemma showProjectsError_eq (q : page) (ch : list element) :
  projectsGrid q = Some ch ->
  showProjectsError q
  = set_nextId (S (S (nextId q)))
      (set_projectsGrid
         (Some [{| eid := nextId q; widget_of := ProjectsError CallLoadProjects |};
                {| eid := S (nextId q);
                   widget_of := ProjectCard (createProjectCard sampleProject 0) |}])
         q).
Proof. intros Hg. unfold showProjectsError. rewrite Hg. reflexivity. Qed.





End Loading.

(** C3, as the code has it: after a failed fetch of the projects document
    (network error, HTTP error status, unparsable body or a document
    without a [projects] array) the projects grid holds the static error
    placeholder with its "Try Again" button, followed by the card of a
    hard-coded sample project.  The run has issued exactly one request and
    set no timer, no later view event or timer callback issues a request,
    and calling [loadProjects] again, as the button does, issues the next
    one. *)
Theorem C3_failed_fetch_shows_error_and_sample
    (p : Portfolio.page) (ch : list Portfolio.element) (o : fetched project)
    (es : list Portfolio.event) :
  Portfolio.projectsGrid p = Some ch ->
  Props.failed o = true ->
  let p' := Portfolio.loadProjects o p in
  Portfolio.projects_view p' = Props.error_view
  /\ Portfolio.requests p'
     = Portfolio.requests p ++ [Portfolio.projectsDataPath]
  /\ Portfolio.timers p' = Portfolio.timers p
  /\ Portfolio.requests (Portfolio.run es p') = Portfolio.requests p'
  /\ Portfolio.requests (Portfolio.loadProjects_begin p')
     = Portfolio.requests p' ++ [Portfolio.projectsDataPath].
Proof.
  intros Hg Hfail. cbv zeta. unfold Portfolio.loadProjects.
  rewrite (settle_failed o _ Hfail).
  rewrite (loadProjects_begin_eq p ch Hg).
  erewrite showProjectsError_eq by reflexivity.
  repeat split. apply (kept_run es).
Qed.

Lemma C3_witness :
  Portfolio.projects_view
    (Portfolio.loadProjects (Response false None) Props.blank_page)
  = Props.error_view.
Proof.
  apply (C3_failed_fetch_shows_error_and_sample Props.blank_page []
           (Response false None) []); reflexivity.
Defined.

(** C3, as stated, fails: after a rejected fetch the grid does not hold
    the error placeholder alone, its second child is a project card. *)
Lemma C3_counterexample :
  Portfolio.projects_view (Portfolio.loadProjects Rejected Props.blank_page)
  <> [Portfolio.ProjectsError Portfolio.CallLoadProjects]
  /\ Portfolio.cards_of
       (Portfolio.projects_view
          (Portfolio.loadProjects Rejected Props.blank_page))
     = [Portfolio.createProjectCard Portfolio.sampleProject 0].
Proof. split; [discriminate | reflexivity]. Qed.




(* ================================================================== *)
(** * Markdown conversion *)
(* ================================================================== *)

#[local] Arguments String.append !_ _ / : simpl nomatch.

Section Strings.
Import JS Props.

Lemma append_nil_r (s : string) : s +:+ EmptyString = s.
Proof. induction s as [|c s IH]; simpl; [reflexivity|]. f_equal. exact IH. Qed.

Lemma append_assoc (a b c : string) : (a +:+ b) +:+ c = a +:+ b +:+ c.
Proof. induction a as [|x a IH]; simpl; [reflexivity|]. f_equal. exact IH. Qed.


Lemma all_chars_app (f : ascii -> bool) (a b : string) :
  all_chars f (a +:+ b) = all_chars f a && all_chars f b.
Proof.
  induction a as [|x a IH]; simpl; [reflexivity|].
  rewrite IH. apply andb_assoc.
Qed.

Lemma lacks_app (c : ascii) (a b : string) :
  lacks c (a +:+ b) = lacks c a && lacks c b.
Proof. apply all_chars_app. Qed.

Lemma lacks_step (c x : ascii) (s : string) :
  lacks c (String x s) = negb (Ascii.eqb x c) && lacks c s.
Proof. reflexivity. Qed.

Lemma lacks_cons (c x : ascii) (s : string) :
  lacks c (String x s) = true -> x <> c /\ lacks c s = true.
Proof.
  unfold lacks. simpl. intros H. apply andb_prop in H as [H1 H2].
  split; [|exact H2]. intros ->. rewrite Ascii.eqb_refl in H1. discriminate.
Qed.

Lemma strip_prefix_app (d rest : string) : strip_prefix d (d +:+ rest) = Some rest.
Proof.
  induction d as [|c d IH]; simpl; [reflexivity|].
  rewrite Ascii.eqb_refl. exact IH.
Qed.

Lemma strip_prefix_head (c x : ascii) (d s : string) :
  x <> c -> strip_prefix (String c d) (String x s) = None.
Proof.
  intros H. simpl. destruct (Ascii.eqb_spec c x); [congruence | reflexivity].
Qed.


Lemma is_line_terminator_spec (x : ascii) :
  is_line_terminator x = Ascii.eqb x nl || Ascii.eqb x cr.
Proof. destruct x as [[] [] [] [] [] [] [] []]; reflexivity. Qed.

Lemma not_line_terminator (x : ascii) (s : string) :
  lacks nl (String x s) = true -> lacks cr (String x s) = true ->
  is_line_terminator x = false.
Proof.
  intros H1 H2. apply lacks_cons in H1 as [H1 _]. apply lacks_cons in H2 as [H2 _].
  rewrite is_line_terminator_spec.
  destruct (Ascii.eqb_spec x nl), (Ascii.eqb_spec x cr);
    try congruence; reflexivity.
Qed.

Lemma span_stop (f : ascii -> bool) (a : string) (x : ascii) (r : string) :
  all_chars f a = true -> f x = false ->
  span f (a +:+ String x r) = (a, String x r).
Proof.
  intros Ha Hx. induction a as [|c a IH]; simpl.
  - rewrite Hx. reflexivity.
  - simpl in Ha. apply andb_prop in Ha as [Hc Ha]. rewrite Hc, (IH Ha).
    reflexivity.
Qed.

End Strings.

Section Passes.
Import JS Markdown Props.

(** ** Global replacement *)

Lemma replace_all_prefix (m : matcher) (c : ascii) (u v : string) :
  triggered_by c m -> lacks c u = true ->
  replace_all m 0 (u +:+ v) = u +:+ replace_all m 0 v.
Proof.
  intros Hm. induction u as [|x u IH]; intros Hu; [reflexivity|].
  apply lacks_cons in Hu as [Hx Hu]. simpl.
  rewrite (Hm x (u +:+ v) Hx), (IH Hu). reflexivity.
Qed.

Lemma replace_all_id (m : matcher) (c : ascii) (u : string) :
  triggered_by c m -> lacks c u = true -> replace_all m 0 u = u.
Proof.
  intros Hm Hu. rewrite <- (append_nil_r u) at 1.
  rewrite (replace_all_prefix m c u EmptyString Hm Hu). apply append_nil_r.
Qed.



Lemma span_matcher_trigger (c : ascii) (d opn cls : string) :
  triggered_by c (span_matcher (String c d) opn cls).
Proof.
  intros x r Hx. unfold span_matcher. rewrite strip_prefix_head by exact Hx.
  reflexivity.
Qed.

Lemma bold_trigger : triggered_by "*" bold.
Proof. apply span_matcher_trigger. Qed.

Lemma italic_trigger : triggered_by "*" italic.
Proof. apply span_matcher_trigger. Qed.

Lemma inline_code_trigger : triggered_by "`" inline_code.
Proof. apply span_matcher_trigger. Qed.

Lemma code_block_trigger : triggered_by "`" code_block.
Proof.
  intros x r Hx. unfold code_block, fence.
  rewrite strip_prefix_head by exact Hx. reflexivity.
Qed.

Lemma paragraph_trigger : triggered_by nl paragraph.
Proof.
  intros x r Hx. unfold paragraph. destruct r as [|y r]; [reflexivity|].
  destruct (Ascii.eqb_spec x nl); [contradiction | reflexivity].
Qed.

Lemma link_trigger : triggered_by "[" link.
Proof.
  intros x r Hx. unfold link.
  destruct x as [[] [] [] [] [] [] [] []]; try reflexivity. congruence.
Qed.

(** ** Lazy groups *)

Lemma find_close_inline (c : ascii) (d t rest : string) :
  lacks c t = true -> lacks nl t = true -> lacks cr t = true ->
  find_close false (String c d) (t +:+ String c d +:+ rest) = Some (t, rest).
Proof.
  induction t as [|x t IH]; intros Hc Hn Hr.
  - change (EmptyString +:+ String c d +:+ rest) with (String c d +:+ rest).
    destruct (String c d +:+ rest) eqn:E; [discriminate|].
    unfold find_close. rewrite <- E, strip_prefix_app. reflexivity.
  - pose proof (not_line_terminator x t Hn Hr) as Hx.
    apply lacks_cons in Hc as [Hxc Hc].
    apply lacks_cons in Hn as [_ Hn]. apply lacks_cons in Hr as [_ Hr].
    change (String x t +:+ String c d +:+ rest)
      with (String x (t +:+ String c d +:+ rest)).
    cbn [find_close]. rewrite strip_prefix_head by exact Hxc.
    rewrite Hx, (IH Hc Hn Hr). reflexivity.
Qed.


(** ** Lines *)

Lemma split_lines_single (t : string) :
  lacks nl t = true -> lacks cr t = true -> split_lines t = (t, []).
Proof.
  induction t as [|x t IH]; intros Hn Hr; [reflexivity|].
  pose proof (not_line_terminator x t Hn Hr) as Hx.
  apply lacks_cons in Hn as [_ Hn]. apply lacks_cons in Hr as [_ Hr].
  simpl. rewrite (IH Hn Hr), Hx. reflexivity.
Qed.

Lemma map_lines_single (f : string -> string) (t : string) :
  lacks nl t = true -> lacks cr t = true -> map_lines f t = f t.
Proof.
  intros Hn Hr. unfold map_lines. rewrite (split_lines_single t Hn Hr).
  simpl. apply append_nil_r.
Qed.

Lemma map_lines_cons (f : string -> string) (a : string) (c : ascii) (b : string) :
  lacks nl a = true -> lacks cr a = true -> is_line_terminator c = true ->
  map_lines f (a +:+ String c b) = f a +:+ String c (map_lines f b).
Proof.
  intros Hn Hr Hc. unfold map_lines.
  assert (H : split_lines (a +:+ String c b)
              = (a, (c, fst (split_lines b)) :: snd (split_lines b))).
  { clear f. induction a as [|x a IH].
    - simpl. rewrite Hc. destruct (split_lines b). reflexivity.
    - pose proof (not_line_terminator x a Hn Hr) as Hx.
      apply lacks_cons in Hn as [_ Hn]. apply lacks_cons in Hr as [_ Hr].
      simpl. rewrite (IH Hn Hr), Hx. reflexivity. }
  rewrite H. destruct (split_lines b) as [l ls]. reflexivity.
Qed.

(** ** The list wrapper *)

Lemma find_first_skip (d : string) (t v : string) :
  lacks "<" t = true ->
  find_first (String "<" d) v = None ->
  find_first (String "<" d) (t +:+ v) = None.
Proof.
  intros Ht Hv. induction t as [|x t IH]; [exact Hv|].
  apply lacks_cons in Ht as [Hx Ht].
  change (String x t +:+ v) with (String x (t +:+ v)).
  cbn [find_first]. rewrite strip_prefix_head by exact Hx.
  rewrite (IH Ht). reflexivity.
Qed.

Lemma find_first_lacks (d : string) (t : string) :
  lacks "<" t = true -> find_first (String "<" d) t = None.
Proof.
  intros Ht. rewrite <- (append_nil_r t).
  apply find_first_skip; [exact Ht | reflexivity].
Qed.

Lemma wrap_list_none (s : string) :
  find_first "<li>" s = None -> wrap_list s = s.
Proof. intros H. unfold wrap_list. rewrite H. reflexivity. Qed.

End Passes.

Section Stages.
Import JS Markdown Props.

Lemma plain_start_marks (s : string) (c : ascii) (d opn cls : string) :
  plain_start s = true -> (c = "#"%char \/ c = "-"%char) ->
  mark_line (String c d) opn cls s = s.
Proof.
  intros Hs Hc. destruct s as [|x s]; [reflexivity|].
  unfold mark_line. rewrite strip_prefix_head; [reflexivity|].
  simpl in Hs. apply andb_prop in Hs as [Hs _]. apply andb_prop in Hs as [H1 H2].
  intros ->. destruct Hc as [-> | ->]; simpl in *; discriminate.
Qed.

Lemma plain_start_numbered (s : string) :
  plain_start s = true -> numbered_line s = s.
Proof.
  intros Hs. destruct s as [|x s]; [reflexivity|].
  simpl in Hs. apply andb_prop in Hs as [_ Hd].
  unfold numbered_line. simpl. destruct (is_digit x); [discriminate | reflexivity].
Qed.

Lemma headers_single (s : string) :
  lacks nl s = true -> lacks cr s = true -> plain_start s = true ->
  headers s = s.
Proof.
  intros Hn Hr Hs. unfold headers.
  rewrite (map_lines_single _ s Hn Hr), plain_start_marks by auto.
  rewrite (map_lines_single _ s Hn Hr), plain_start_marks by auto.
  rewrite (map_lines_single _ s Hn Hr), plain_start_marks by auto.
  reflexivity.
Qed.




Lemma emphasis_id (s : string) : lacks "*" s = true -> emphasis s = s.
Proof.
  intros H. unfold emphasis.
  rewrite (replace_all_id bold "*" s bold_trigger H).
  apply (replace_all_id italic "*" s italic_trigger H).
Qed.

Lemma code_id (s : string) : lacks "`" s = true -> code s = s.
Proof.
  intros H. unfold code.
  rewrite (replace_all_id code_block "`" s code_block_trigger H).
  apply (replace_all_id inline_code "`" s inline_code_trigger H).
Qed.

Lemma lineBreaks_id (s : string) : lacks nl s = true -> lineBreaks s = s.
Proof. apply (replace_all_id paragraph nl s paragraph_trigger). Qed.

Lemma lists_single (s : string) :
  lacks nl s = true -> lacks cr s = true -> plain_start s = true ->
  find_first "<li>" s = None ->
  lists s = s.
Proof.
  intros Hn Hr Hs Hli. unfold lists.
  rewrite (map_lines_single _ s Hn Hr), plain_start_marks by auto.
  rewrite (wrap_list_none s Hli).
  rewrite (map_lines_single _ s Hn Hr). apply plain_start_numbered, Hs.
Qed.

Lemma links_id (s : string) : lacks "[" s = true -> links s = s.
Proof. apply (replace_all_id link "[" s link_trigger). Qed.

Lemma inline_text_lacks (t : string) :
  inline_text t = true ->
  lacks "*" t = true /\ lacks "`" t = true /\ lacks "[" t = true
  /\ lacks "<" t = true /\ lacks nl t = true /\ lacks cr t = true.
Proof.
  unfold inline_text. intros H.
  repeat (apply andb_prop in H as [H ?]). auto 10.
Qed.



End Stages.

Section Constructs.
Import JS Markdown Props.








Lemma find_close_inline_end (c : ascii) (d t : string) :
  lacks c t = true -> lacks nl t = true -> lacks cr t = true ->
  find_close false (String c d) (t +:+ String c d) = Some (t, EmptyString).
Proof.
  intros Hc Hn Hr.
  pose proof (find_close_inline c d t EmptyString Hc Hn Hr) as H.
  rewrite (append_nil_r (String c d)) in H. exact H.
Qed.















End Constructs.







(* ================================================================== *)
(** * The e-mail pattern *)
(* ================================================================== *)

Section RegexFacts.
Import JS ContactForm RegexSpec.

Lemma nullable_spec (r : regex) : nullable r = true <-> denotes r EmptyString.
Proof.
  induction r as [| |f|a IHa b IHb|a IHa b IHb|a IHa]; simpl.
  - split; [discriminate | tauto].
  - tauto.
  - split; [discriminate | intros (c & H & _); discriminate].
  - rewrite andb_true_iff, IHa, IHb. split.
    + intros [Ha Hb]. exists EmptyString, EmptyString. auto.
    + intros (s1 & s2 & H & Ha & Hb).
      destruct s1; [|discriminate]. destruct s2; [|discriminate]. auto.
  - rewrite orb_true_iff, IHa, IHb. tauto.
  - split; [|reflexivity]. intros _. exists []. split; [reflexivity | constructor].
Qed.

Lemma deriv_spec (r : regex) :
  forall c s, denotes (deriv c r) s <-> denotes r (String c s).
Proof.
  induction r as [| |f|a IHa b IHb|a IHa b IHb|a IHa]; intros c s; simpl.
  - tauto.
  - split; [tauto | discriminate].
  - destruct (f c) eqn:E; simpl.
    + split.
      * intros ->. exists c. auto.
      * intros (x & H & _). injection H as _ H. exact H.
    + split; [tauto|]. intros (x & H & Hx). injection H as -> _. congruence.
  - assert (Hcat : (exists s1 s2, s = s1 +:+ s2 /\ denotes (deriv c a) s1
                                  /\ denotes b s2)
                   <-> (exists s1 s2, String c s = String c s1 +:+ s2
                                      /\ denotes a (String c s1) /\ denotes b s2)).
    { split; intros (s1 & s2 & H & Ha & Hb); exists s1, s2.
      - subst s. repeat split; [apply IHa, Ha | exact Hb].
      - injection H as H. repeat split; [exact H | apply IHa, Ha | exact Hb]. }
    assert (Hsplit : (exists s1 s2, String c s = s1 +:+ s2 /\ denotes a s1
                                    /\ denotes b s2)
                     <-> (exists s1 s2, String c s = String c s1 +:+ s2
                                        /\ denotes a (String c s1) /\ denotes b s2)
                         \/ (denotes a EmptyString /\ denotes b (String c s))).
    { split.
      - intros (s1 & s2 & H & Ha & Hb). destruct s1 as [|x s1].
        + right. simpl in H. subst s2. auto.
        + left. simpl in H. injection H as <- H. exists s1, s2. simpl.
          repeat split; [f_equal; exact H | exact Ha | exact Hb].
      - intros [(s1 & s2 & H & Ha & Hb) | [Ha Hb]].
        + exists (String c s1), s2. auto.
        + exists EmptyString, (String c s). auto. }
    rewrite Hsplit. destruct (nullable a) eqn:E; simpl.
    + rewrite Hcat, IHb. apply nullable_spec in E. tauto.
    + rewrite Hcat. split; [tauto|]. intros [H | [Ha _]]; [exact H|].
      apply nullable_spec in Ha. congruence.
  - rewrite IHa, IHb. tauto.
  - split.
    + intros (s1 & s2 & H & Ha & pieces & Hs & Hp).
      exists (String c s1 :: pieces). split.
      * simpl. f_equal. congruence.
      * constructor; [|exact Hp]. split; [discriminate | apply IHa, Ha].
    + intros (pieces & Hs & Hp).
      destruct pieces as [|x pieces]; [discriminate|].
      inversion Hp as [|? ? [Hne Hx] Hrest]; subst.
      destruct x as [|y x]; [contradiction|].
      simpl in Hs. injection Hs as <- Hs.
      exists x, (List.fold_right String.append EmptyString pieces).
      repeat split; [exact Hs | apply IHa, Hx |].
      exists pieces. auto.
Qed.

Lemma matches_spec (s : string) :
  forall r, matches r s = true <-> denotes r s.
Proof.
  induction s as [|c s IH]; intros r; simpl.
  - apply nullable_spec.
  - rewrite IH. apply deriv_spec.
Qed.

Lemma denotes_plus_class (f : ascii -> bool) (s : string) :
  denotes (plus (Class f)) s <-> s <> EmptyString /\ all_chars f s = true.
Proof.
  unfold plus. simpl. split.
  - intros (s1 & s2 & -> & (c & -> & Hc) & pieces & -> & Hp).
    split; [discriminate|]. simpl. rewrite Hc. simpl.
    induction Hp as [|x pieces [_ (d & -> & Hd)] _ IH]; [reflexivity|].
    simpl. rewrite Hd. exact IH.
  - intros [Hne Hall]. destruct s as [|c s]; [contradiction|].
    simpl in Hall. apply andb_true_iff in Hall as [Hc Hs].
    exists (String c EmptyString), s. repeat split; [exists c; auto|].
    clear Hne Hc. induction s as [|d s IH].
    + exists []. split; [reflexivity | constructor].
    + simpl in Hs. apply andb_true_iff in Hs as [Hd Hs].
      destruct (IH Hs) as (pieces & Heq & Hp).
      exists (String d EmptyString :: pieces). split.
      * simpl. f_equal. exact Heq.
      * constructor; [|exact Hp]. split; [discriminate|]. exists d. auto.
Qed.

Lemma denotes_chr (c : ascii) (s : string) :
  denotes (chr c) s <-> s = String c EmptyString.
Proof.
  unfold chr. simpl. split.
  - intros (x & -> & Hx). apply Ascii.eqb_eq in Hx. congruence.
  - intros ->. exists c. split; [reflexivity | apply Ascii.eqb_refl].
Qed.

End RegexFacts.

(** X1: [isValidEmail] accepts exactly the strings of the form
    [local@domain.rest] in which each of the three parts has at least one
    character and none of them holds whitespace or a further at sign; the
    domain part and the rest may themselves hold dots. *)
Theorem X1_isValidEmail_accepts_exactly (email : string) :
  ContactForm.isValidEmail email = true
  <-> exists a b c,
        email = a +:+ "@" +:+ b +:+ "." +:+ c
        /\ RegexSpec.address_part a
        /\ RegexSpec.address_part b
        /\ RegexSpec.address_part c.
Proof.
  unfold ContactForm.isValidEmail. rewrite matches_spec.
  unfold ContactForm.emailRegex, RegexSpec.address_part.
  cbn [RegexSpec.denotes]. split.
  - intros (a & r1 & -> & Ha & at_ & r2 & -> & Hat & b & r3 & -> & Hb
            & dot & c & -> & Hdot & Hc).
    apply denotes_plus_class in Ha, Hb, Hc.
    apply denotes_chr in Hat, Hdot. subst at_ dot.
    exists a, b, c. auto.
  - intros (a & b & c & -> & Ha & Hb & Hc).
    apply denotes_plus_class in Ha, Hb, Hc.
    exists a, ("@" +:+ b +:+ "." +:+ c). repeat split; [exact Ha|].
    exists "@"%string, (b +:+ "." +:+ c).
    repeat split; [apply denotes_chr; reflexivity|].
    exists b, ("." +:+ c). repeat split; [exact Hb|].
    exists "."%string, c. repeat split; [apply denotes_chr; reflexivity | exact Hc].
Qed.

(* ================================================================== *)
(** * Validation of the contact form *)
(* ================================================================== *)

Section ValidationFacts.
Import JS ContactForm Props FormSpec.

Lemma drop_while_end_empty (f : ascii -> bool) (s : string) :
  drop_while_end f s = EmptyString <-> all_chars f s = true.
Proof.
  induction s as [|c s IH]; simpl; [tauto|].
  destruct (drop_while_end f s) as [|d r] eqn:E.
  - destruct (f c); simpl.
    + rewrite <- IH. tauto.
    + split; discriminate.
  - split; [discriminate|]. intros H. apply andb_true_iff in H as [_ H].
    apply IH in H. discriminate.
Qed.

Lemma all_chars_drop_while (f : ascii -> bool) (s : string) :
  all_chars f (drop_while f s) = all_chars f s.
Proof.
  induction s as [|c s IH]; simpl; [reflexivity|].
  destruct (f c) eqn:E; simpl; [exact IH|]. rewrite E. reflexivity.
Qed.

Lemma trim_empty (s : string) :
  trim s = EmptyString <-> all_chars is_whitespace s = true.
Proof.
  unfold trim. rewrite drop_while_end_empty, all_chars_drop_while. tauto.
Qed.

Lemma blank_filled (v : option string) : blank v = false <-> filled v.
Proof.
  unfold filled. destruct v as [s|]; simpl.
  - rewrite orb_false_iff. split.
    + intros [_ H]. exists s. split; [reflexivity|].
      destruct (all_chars is_whitespace s) eqn:E; [|reflexivity].
      apply trim_empty in E. rewrite E in H. discriminate.
    + intros (s' & [= <-] & H). split.
      * destruct s; [discriminate | reflexivity].
      * destruct (String.eqb_spec (trim s) EmptyString) as [E|]; [|reflexivity].
        apply trim_empty in E. congruence.
  - split; [discriminate|]. intros (s & H & _). discriminate.
Qed.

Lemma checks_filled formValues (fields : list string) (st : bool * form) :
  (forall field, In field fields ->
     blank (lookup_value field formValues) = false) ->
  List.fold_left (check formValues) fields st = st.
Proof.
  revert st. induction fields as [|x fields IH]; intros st H; simpl;
    [reflexivity|].
  unfold check at 2. rewrite (H x (or_introl eq_refl)).
  apply IH. intros field Hin. apply H. right. exact Hin.
Qed.

(** Values that are all filled in, with a well-formed address, pass and
    leave the document alone. *)
Lemma validate_accepts formValues (f : form) (email : string) :
  (forall field, In field requiredFields ->
     filled (lookup_value field formValues)) ->
  lookup_value "email" formValues = Some email ->
  isValidEmail email = true ->
  validateContactForm formValues f = (true, f).
Proof.
  intros Hall He Hv. unfold validateContactForm.
  rewrite checks_filled
    by (intros field Hin; apply blank_filled, Hall, Hin).
  rewrite He, Hv, andb_false_r. reflexivity.
Qed.

(** Nothing else passes. *)
Lemma validate_accepted formValues (f : form) :
  fst (validateContactForm formValues f) = true ->
  (forall field, In field requiredFields ->
     filled (lookup_value field formValues))
  /\ exists email,
       lookup_value "email" formValues = Some email
       /\ isValidEmail email = true.
Proof.
  intros Hv.
  assert (Hall : forall field, In field requiredFields ->
            filled (lookup_value field formValues)).
  { intros field Hin. apply blank_filled.
    destruct (blank (lookup_value field formValues)) eqn:E; [|reflexivity].
    pose proof (validateContactForm_spec formValues f) as H. cbv zeta in H.
    destruct H as (_ & _ & _ & _ & H). destruct (H field Hin E) as [H0 _].
    congruence. }
  split; [exact Hall|].
  destruct (Hall "email"%string) as (email & He & Hws); [simpl; tauto|].
  exists email. split; [exact He|].
  unfold validateContactForm in Hv.
  rewrite checks_filled in Hv
    by (intros field Hin; apply blank_filled, Hall, Hin).
  rewrite He in Hv.
  destruct (isValidEmail email); [reflexivity|].
  destruct email; [discriminate Hws | discriminate Hv].
Qed.

Lemma validate_unchanged formValues (f : form) :
  fst (validateContactForm formValues f) = true ->
  validateContactForm formValues f = (true, f).
Proof.
  intros Hv. destruct (validate_accepted formValues f Hv)
    as (Hall & email & He & Hvalid).
  exact (validate_accepts formValues f email Hall He Hvalid).
Qed.

Lemma showFormLoading_frame (isLoading : bool) (f : form) :
  named (showFormLoading isLoading f) = named f
  /\ fieldErrors (showFormLoading isLoading f) = fieldErrors f
  /\ banners (showFormLoading isLoading f) = banners f
  /\ nextBanner (showFormLoading isLoading f) = nextBanner f
  /\ pending (showFormLoading isLoading f) = pending f
  /\ action (showFormLoading isLoading f) = action f
  /\ posted (showFormLoading isLoading f) = posted f.
Proof.
  unfold showFormLoading. destruct (submitButton f); [|auto 10].
  destruct isLoading; simpl; auto 10.
Qed.

(** The loop over the errors of the service's reply. *)
Lemma report_errors_spec (errors : list (option string * string)) :
  forall f,
    let f' :=
      List.fold_left
        (fun f e =>
           match fst e with
           | Some field =>
               if String.eqb field EmptyString then f
               else showFieldError field (snd e) f
           | None => f
           end) errors f in
    named f' = named f
    /\ banners f' = banners f
    /\ pending f' = pending f
    /\ posted f' = posted f
    /\ (forall g, error_shown g f -> error_shown g f')
    /\ (forall field m, In (Some field, m) errors ->
          field <> EmptyString -> has_field field f = true ->
          error_shown field f').
Proof.
  induction errors as [|[field m] errors IH]; intros f; cbv zeta.
  - simpl. repeat split; auto. intros ? ? [].
  - simpl fold_left. cbn [fst snd].
    destruct field as [field|];
      [destruct (String.eqb_spec field EmptyString) as [Hempty|Hfield]|].
    + specialize (IH f). cbv zeta in IH.
      destruct IH as (Hn & Hb & Hp & Hq & Hk & Hs).
      do 5 (split; [assumption|]).
      intros g m' [Heq | Hin] Hne Hhas; [congruence|].
      apply (Hs g m' Hin Hne Hhas).
    + specialize (IH (showFieldError field m f)). cbv zeta in IH.
      destruct IH as (Hn & Hb & Hp & Hq & Hk & Hs).
      pose proof (showFieldError_frame field m f) as H.
      destruct H as (Hn1 & Hq1 & _ & Hp1 & Hb1 & _).
      split; [congruence|]. split; [congruence|]. split; [congruence|].
      split; [congruence|]. split.
      * intros g Hg. apply Hk, showFieldError_keeps, Hg.
      * intros g m' [Heq | Hin] Hne Hhas.
        -- injection Heq as -> ->. apply Hk, showFieldError_shows, Hhas.
        -- apply (Hs g m' Hin Hne). rewrite has_field_showFieldError.
           exact Hhas.
    + specialize (IH f). cbv zeta in IH.
      destruct IH as (Hn & Hb & Hp & Hq & Hk & Hs).
      do 5 (split; [assumption|]).
      intros g m' [Heq | Hin] Hne Hhas; [discriminate|].
      apply (Hs g m' Hin Hne Hhas).
Qed.


End ValidationFacts.

(** X2: [validateContactForm] returns true exactly when each of the four
    required fields is present with a character other than whitespace and
    the e-mail value matches the address pattern; it then leaves the
    document as it was, error messages of earlier attempts included. *)
Theorem X2_validateContactForm_accepts_exactly
    (formValues : list (string * string)) (f : ContactForm.form) :
  (fst (ContactForm.validateContactForm formValues f) = true
   <-> (forall field, In field ContactForm.requiredFields ->
          FormSpec.filled (ContactForm.lookup_value field formValues))
       /\ exists email,
            ContactForm.lookup_value "email" formValues = Some email
            /\ ContactForm.isValidEmail email = true)
  /\ (fst (ContactForm.validateContactForm formValues f) = true ->
      snd (ContactForm.validateContactForm formValues f) = f).
Proof.
  split; [split|].
  - apply validate_accepted.
  - intros (Hall & email & He & Hv).
    rewrite (validate_accepts formValues f email Hall He Hv). reflexivity.
  - intros Hv. rewrite (validate_unchanged formValues f Hv). reflexivity.
Qed.

Lemma X2_witness :
  fst (ContactForm.validateContactForm
         (ContactForm.formData (Props.filled_form "Hello"))
         (Props.filled_form "Hello")) = true
  /\ snd (ContactForm.validateContactForm
            (ContactForm.formData (Props.filled_form "Hello"))
            (Props.filled_form "Hello")) = Props.filled_form "Hello".
Proof.
  destruct (X2_validateContactForm_accepts_exactly
              (ContactForm.formData (Props.filled_form "Hello"))
              (Props.filled_form "Hello")) as [_ H].
  split; [reflexivity | apply H; reflexivity].
Defined.



(* ================================================================== *)
(** * Field errors under the listeners of the form *)
(* ================================================================== *)

Section FieldErrorFacts.
Import JS ContactForm Props FormSpec FormEvents.

Lemma remove_first_incl (g : string) (es : list (string * string)) :
  forall k, In k (List.map fst (remove_first g es)) -> In k (List.map fst es).
Proof.
  induction es as [|[k0 m] es IH]; intros k; simpl; [tauto|].
  destruct (String.eqb k0 g); simpl; [tauto|]. intros [H | H]; auto.
Qed.

Lemma remove_first_nodup (g : string) (es : list (string * string)) :
  List.NoDup (List.map fst es) ->
  List.NoDup (List.map fst (remove_first g es))
  /\ ~ In g (List.map fst (remove_first g es)).
Proof.
  induction es as [|[k m] es IH]; simpl; intros Hnd.
  - split; [constructor | tauto].
  - inversion Hnd as [|? ? Hk Hrest]; subst.
    destruct (String.eqb_spec k g) as [->|Hne]; [auto|].
    destruct (IH Hrest) as [Hnd' Hg]. simpl. split.
    + constructor; [|exact Hnd']. intros Hin. apply Hk.
      apply (remove_first_incl g es k Hin).
    + intros [H | H]; [contradiction | exact (Hg H)].
Qed.

Lemma remove_first_other (g k m : string) (es : list (string * string)) :
  k <> g -> (In (k, m) (remove_first g es) <-> In (k, m) es).
Proof.
  intros Hne. induction es as [|[k0 m0] es IH]; simpl; [tauto|].
  destruct (String.eqb_spec k0 g) as [->|Hk0]; simpl.
  - split; [auto|]. intros [H | H]; [congruence | exact H].
  - rewrite IH. tauto.
Qed.

Lemma nodup_snoc (A : Type) (l : list A) (x : A) :
  List.NoDup l -> ~ In x l -> List.NoDup (l ++ [x]).
Proof.
  induction l as [|y l IH]; simpl; intros Hnd Hx.
  - constructor; [simpl; tauto | constructor].
  - inversion Hnd as [|? ? Hy Hl]; subst. constructor.
    + rewrite List.in_app_iff. simpl. intros [H | [H | []]]; [tauto|].
      apply Hx. left. symmetry. exact H.
    + apply IH; [exact Hl | tauto].
Qed.

Lemma showFieldError_one (g m : string) (f : form) :
  one_error_per_field f -> one_error_per_field (showFieldError g m f).
Proof.
  unfold one_error_per_field, showFieldError. intros Hnd.
  destruct (has_field g f); [|exact Hnd]. simpl.
  destruct (remove_first_nodup g (fieldErrors f) Hnd) as [Hnd' Hg].
  rewrite List.map_app. simpl. apply nodup_snoc; assumption.
Qed.

Lemma clearFieldError_one (field : control) (f : form) :
  one_error_per_field f -> one_error_per_field (clearFieldError field f).
Proof.
  unfold one_error_per_field, clearFieldError. simpl.
  intros Hnd. apply (remove_first_nodup _ _ Hnd).
Qed.

Lemma validateFormField_one (field : control) (f : form) :
  one_error_per_field f -> one_error_per_field (validateFormField field f).
Proof.
  intros Hnd. unfold validateFormField.
  pose proof (clearFieldError_one field f Hnd) as H.
  destruct (_ && _); [apply showFieldError_one, H|].
  destruct (_ && _); [apply showFieldError_one, H | exact H].
Qed.

Lemma validateContactForm_one formValues (f : form) :
  one_error_per_field f ->
  one_error_per_field (snd (validateContactForm formValues f)).
Proof.
  intros Hnd. unfold validateContactForm.
  assert (H : forall fields st,
            one_error_per_field (snd st) ->
            one_error_per_field
              (snd (List.fold_left (check formValues) fields st))).
  { induction fields as [|x fields IH]; intros st Hst; simpl; [exact Hst|].
    apply IH. unfold check. destruct (blank _); [|exact Hst].
    simpl. apply showFieldError_one, Hst. }
  specialize (H requiredFields (true, f) Hnd).
  destruct (List.fold_left (check formValues) requiredFields (true, f))
    as [isValid f1].
  simpl in H.
  destruct (lookup_value "email" formValues) as [email|]; [|exact H].
  destruct (_ && _); [|exact H]. simpl. apply showFieldError_one, H.
Qed.

Lemma begin_one (f : form) :
  one_error_per_field f ->
  one_error_per_field (fst (handleContactFormSubmit_begin f)).
Proof.
  intros Hnd. unfold handleContactFormSubmit_begin.
  pose proof (validateContactForm_one (formData f) f Hnd) as H.
  destruct (validateContactForm (formData f) f) as [isValid f1].
  simpl in H. destruct isValid; simpl; [|exact H].
  unfold one_error_per_field. simpl.
  destruct (showFormLoading_frame true f1) as (_ & -> & _). exact H.
Qed.

Lemma settle_one (o : submitted) (f : form) :
  one_error_per_field f ->
  one_error_per_field (handleContactFormSubmit_settle o f).
Proof.
  intros Hnd. unfold handleContactFormSubmit_settle, one_error_per_field.
  match goal with
  | |- context [showFormLoading false ?g] =>
      destruct (showFormLoading_frame false g) as (_ & -> & _)
  end.
  destruct o as [| |[| |errors]]; try exact Hnd.
  revert f Hnd. induction errors as [|[field m] errors IH]; intros f Hnd;
    [exact Hnd|].
  simpl. apply IH. destruct field as [field|]; [|exact Hnd].
  destruct (String.eqb field EmptyString); [exact Hnd|].
  apply showFieldError_one, Hnd.
Qed.

Lemma fireTimer_errors (i : nat) (f : form) :
  fieldErrors (fireTimer i f) = fieldErrors f.
Proof.
  unfold fireTimer. destruct (pending f !! i) as [[d t]|]; [|reflexivity].
  destruct t; simpl; [reflexivity|].
  match goal with
  | |- context [showFormLoading false ?g] =>
      destruct (showFormLoading_frame false g) as (_ & -> & _)
  end.
  reflexivity.
Qed.

Lemma step_one (f : form) (e : event) :
  one_error_per_field f -> one_error_per_field (step f e).
Proof.
  intros Hnd. destruct e as [|o|field|field|i v|i]; simpl.
  - apply begin_one, Hnd.
  - apply settle_one, Hnd.
  - apply validateFormField_one, Hnd.
  - apply clearFieldError_one, Hnd.
  - exact Hnd.
  - unfold one_error_per_field. rewrite fireTimer_errors. exact Hnd.
Qed.

Lemma run_one (es : list event) :
  forall f, one_error_per_field f -> one_error_per_field (run es f).
Proof.
  induction es as [|e es IH]; intros f Hnd; [exact Hnd|].
  simpl. apply IH, step_one, Hnd.
Qed.

End FieldErrorFacts.

(** X4: no field ever carries two error messages.  In a document where
    that holds, it still holds after any sequence of submissions, replies
    of the service, blur and input events, edits and timers; the input
    listener then removes the message of the field that is edited, and
    that message only. *)
Theorem X4_one_error_message_per_field
    (f : ContactForm.form) (es : list FormEvents.event) :
  FormSpec.one_error_per_field f ->
  FormSpec.one_error_per_field (FormEvents.run es f)
  /\ (forall field : FormEvents.control,
        ~ Props.error_shown (FormEvents.ctl_name field)
            (FormEvents.step (FormEvents.run es f)
               (FormEvents.InputEvent field)))
  /\ (forall (field : FormEvents.control) (g m : string),
        g <> FormEvents.ctl_name field ->
        (In (g, m)
           (ContactForm.fieldErrors
              (FormEvents.step (FormEvents.run es f)
                 (FormEvents.InputEvent field)))
         <-> In (g, m) (ContactForm.fieldErrors (FormEvents.run es f)))).
Proof.
  intros Hnd. pose proof (run_one es f Hnd) as Hrun.
  split; [exact Hrun|]. split.
  - intros field [m Hin]. simpl in Hin.
    destruct (remove_first_nodup (FormEvents.ctl_name field) _ Hrun) as [_ Hg].
    apply Hg. apply List.in_map_iff. exists (FormEvents.ctl_name field, m).
    split; [reflexivity | exact Hin].
  - intros field g m Hne. simpl. apply remove_first_other, Hne.
Qed.

Lemma X4_witness :
  FormSpec.one_error_per_field
    (FormEvents.run
       [FormEvents.Submit; FormEvents.Submit;
        FormEvents.Blur {| FormEvents.ctl_name := "subject";
                           FormEvents.ctl_value := " ";
                           FormEvents.ctl_required := true;
                           FormEvents.ctl_type := "text" |}]
       (Props.filled_form "   ")).
Proof.
  apply (X4_one_error_message_per_field (Props.filled_form "   ")).
  constructor.
Defined.

Section BlurFacts.
Import JS ContactForm Props FormSpec FormEvents.

(** After [showFieldError] the field shows this message and no other. *)
Lemma showFieldError_only (g m : string) (f : form) :
  one_error_per_field f -> has_field g f = true ->
  forall m', In (g, m') (fieldErrors (showFieldError g m f)) <-> m' = m.
Proof.
  intros Hnd Hhas m'. unfold showFieldError. rewrite Hhas. simpl.
  destruct (remove_first_nodup g (fieldErrors f) Hnd) as [_ Hg].
  rewrite List.in_app_iff. simpl. split.
  - intros [H | [H | []]]; [|congruence].
    exfalso. apply Hg. apply List.in_map_iff. exists (g, m'). auto.
  - intros ->. auto.
Qed.

Lemma showFieldError_others (g m k m' : string) (f : form) :
  k <> g ->
  (In (k, m') (fieldErrors (showFieldError g m f)) <-> In (k, m') (fieldErrors f)).
Proof.
  intros Hne. unfold showFieldError. destruct (has_field g f); [|tauto].
  simpl. rewrite List.in_app_iff, remove_first_other by exact Hne.
  simpl. split; [|auto]. intros [H | [H | []]]; [exact H | congruence].
Qed.

End BlurFacts.

(** X5: the blur listener [validateFormField] decides what the field
    shows from the field alone, whatever it showed before: "This field is
    required" when the field is required and holds only whitespace,
    "Please enter a valid email address" when it is an e-mail field whose
    trimmed value is not empty and does not match the address pattern, and
    no message otherwise.  The messages of the other fields stay. *)
Theorem X5_blur_decides_the_field_error
    (field : FormEvents.control) (f : ContactForm.form) :
  FormSpec.one_error_per_field f ->
  ContactForm.has_field (FormEvents.ctl_name field) f = true ->
  let f' := FormEvents.validateFormField field f in
  let name := FormEvents.ctl_name field in
  let value := FormEvents.ctl_value field in
  (FormEvents.ctl_required field = true ->
   JS.all_chars JS.is_whitespace value = true ->
   forall m, In (name, m) (ContactForm.fieldErrors f')
             <-> m = "This field is required"%string)
  /\ (FormEvents.ctl_type field = "email"%string ->
      JS.all_chars JS.is_whitespace value = false ->
      ContactForm.isValidEmail (JS.trim value) = false ->
      forall m, In (name, m) (ContactForm.fieldErrors f')
                <-> m = "Please enter a valid email address"%string)
  /\ ((FormEvents.ctl_required field = false
       \/ JS.all_chars JS.is_whitespace value = false) ->
      (FormEvents.ctl_type field <> "email"%string
       \/ JS.all_chars JS.is_whitespace value = true
       \/ ContactForm.isValidEmail (JS.trim value) = true) ->
      ~ Props.error_shown name f')
  /\ (forall g m, g <> name ->
        (In (g, m) (ContactForm.fieldErrors f')
         <-> In (g, m) (ContactForm.fieldErrors f))).
Proof.
  intros Hnd Hhas. cbv zeta.
  set (f1 := FormEvents.clearFieldError field f).
  assert (Hnd1 : FormSpec.one_error_per_field f1)
    by (apply clearFieldError_one, Hnd).
  assert (Hhas1 : ContactForm.has_field (FormEvents.ctl_name field) f1 = true)
    by exact Hhas.
  assert (Hnone : ~ Props.error_shown (FormEvents.ctl_name field) f1).
  { intros [m Hin]. unfold f1 in Hin. simpl in Hin.
    destruct (remove_first_nodup (FormEvents.ctl_name field) _ Hnd) as [_ Hg].
    apply Hg. apply List.in_map_iff. exists (FormEvents.ctl_name field, m).
    auto. }
  assert (Hother : forall g m, g <> FormEvents.ctl_name field ->
            (In (g, m) (ContactForm.fieldErrors f1)
             <-> In (g, m) (ContactForm.fieldErrors f))).
  { intros g m Hne. unfold f1. simpl. apply remove_first_other, Hne. }
  assert (Hempty : String.eqb (JS.trim (FormEvents.ctl_value field)) EmptyString
                   = JS.all_chars JS.is_whitespace (FormEvents.ctl_value field)).
  { destruct (JS.all_chars JS.is_whitespace (FormEvents.ctl_value field)) eqn:E.
    - apply trim_empty in E. rewrite E. reflexivity.
    - destruct (String.eqb_spec (JS.trim (FormEvents.ctl_value field))
                  EmptyString) as [H|]; [|reflexivity].
      apply trim_empty in H. congruence. }
  unfold FormEvents.validateFormField. cbv zeta. fold f1. rewrite Hempty.
  split; [|split; [|split]].
  - intros Hreq Hws. rewrite Hreq, Hws. simpl.
    apply showFieldError_only; assumption.
  - intros Hty Hws Hinv. rewrite Hws, andb_false_r, Hty, Hinv. simpl.
    apply showFieldError_only; assumption.
  - intros Hno Hok.
    assert (E1 : FormEvents.ctl_required field
                 && JS.all_chars JS.is_whitespace (FormEvents.ctl_value field)
                 = false).
    { destruct Hno as [-> | ->]; [reflexivity | apply andb_false_r]. }
    rewrite E1.
    assert (E2 : String.eqb (FormEvents.ctl_type field) "email"
                 && negb (JS.all_chars JS.is_whitespace
                            (FormEvents.ctl_value field))
                 && negb (ContactForm.isValidEmail
                            (JS.trim (FormEvents.ctl_value field)))
                 = false).
    { destruct Hok as [Hty | [-> | ->]].
      - destruct (String.eqb_spec (FormEvents.ctl_type field) "email");
          [contradiction | reflexivity].
      - simpl. rewrite andb_false_r. reflexivity.
      - apply andb_false_r. }
    rewrite E2. exact Hnone.
  - intros g m Hne.
    destruct (_ && _); [rewrite showFieldError_others by exact Hne; auto|].
    destruct (_ && _); [rewrite showFieldError_others by exact Hne; auto|].
    auto.
Qed.

Lemma X5_witness :
  In ("email"%string, "Please enter a valid email address"%string)
     (ContactForm.fieldErrors
        (FormEvents.validateFormField
           {| FormEvents.ctl_name := "email"; FormEvents.ctl_value := " ada@example ";
              FormEvents.ctl_required := true; FormEvents.ctl_type := "email" |}
           (Props.filled_form "Hello"))).
Proof.
  destruct (X5_blur_decides_the_field_error
              {| FormEvents.ctl_name := "email";
                 FormEvents.ctl_value := " ada@example ";
                 FormEvents.ctl_required := true;
                 FormEvents.ctl_type := "email" |}
              (Props.filled_form "Hello")) as (_ & H & _).
  - constructor.
  - reflexivity.
  - apply H; reflexivity.
Defined.

(* ================================================================== *)
(** * Messages of the form and their timers *)
(* ================================================================== *)

Section MessageFacts.
Import JS ContactForm Props FormSpec FormEvents.

Lemma validateContactForm_banners formValues (f : form) :
  banners (snd (validateContactForm formValues f)) = banners f.
Proof.
  unfold validateContactForm.
  assert (H : forall fields st,
            banners (snd (List.fold_left (check formValues) fields st))
            = banners (snd st)).
  { induction fields as [|x fields IH]; intros st; simpl; [reflexivity|].
    rewrite IH. unfold check. destruct (blank _); [|reflexivity].
    simpl. apply showFieldError_frame. }
  specialize (H requiredFields (true, f)).
  destruct (List.fold_left (check formValues) requiredFields (true, f))
    as [isValid f1].
  simpl in H.
  destruct (lookup_value "email" formValues) as [email|];
    [destruct (negb (String.eqb email EmptyString) && negb (isValidEmail email))|];
    simpl; try exact H.
  rewrite <- H. apply showFieldError_frame.
Qed.

Lemma removals_app (a b : list (Z * form_task)) :
  removals (a ++ b) = removals a ++ removals b.
Proof. unfold removals. apply List.flat_map_app. Qed.

Lemma removals_delete (ts : list (Z * form_task)) :
  forall (i : nat) (d : Z) (b x : nat),
    ts !! i = Some (d, RemoveBanner b) ->
    In x (removals ts) -> x <> b -> In x (removals (delete i ts)).
Proof.
  induction ts as [|[d0 t0] ts IH]; intros i d b x Hi Hin Hne; [contradiction|].
  destruct i as [|i]; simpl in *.
  - injection Hi as -> ->. simpl in Hin. destruct Hin as [H | H]; [congruence|].
    exact H.
  - change (removals ((d0, t0) :: ts))
      with (removals [(d0, t0)] ++ removals ts) in Hin.
    change (removals ((d0, t0) :: delete i ts))
      with (removals [(d0, t0)] ++ removals (delete i ts)).
    apply List.in_app_iff in Hin. apply List.in_app_iff.
    destruct Hin as [H | H]; [left; exact H | right].
    apply (IH i d b x Hi H Hne).
Qed.

Lemma overview_timers_delete (ts : list (Z * form_task)) (i : nat) :
  overview_timers ts -> overview_timers (delete i ts).
Proof.
  unfold overview_timers. revert i.
  induction ts as [|t ts IH]; intros i H; [destruct i; exact H|].
  inversion H as [|? ? Ht Hts]; subst.
  destruct i as [|i]; simpl; [exact Hts|].
  constructor; [exact Ht | apply IH, Hts].
Qed.

Lemma overview_timers_lookup (ts : list (Z * form_task)) :
  forall (i : nat) (d : Z) (t : form_task),
    overview_timers ts -> ts !! i = Some (d, t) -> exists b, t = RemoveBanner b.
Proof.
  induction ts as [|t0 ts IH]; intros i d t H Hi; [destruct i; discriminate|].
  inversion H as [|? ? Ht Hts]; subst.
  destruct i as [|i]; simpl in Hi.
  - injection Hi as ->. simpl in Ht. destruct t as [b|]; [eauto | contradiction].
  - apply (IH i d t Hts Hi).
Qed.

(** What a new message does to the invariant. *)
Lemma addBanner_expire (b : banner) (delay : Z) (f : form) :
  overview_timers (pending f) ->
  messages_expire (addBanner b delay (set_banners [] f)).
Proof.
  intros Ht. unfold messages_expire. simpl. split; [lia|]. split.
  - intros x [<- | []]. simpl. rewrite removals_app. apply List.in_app_iff.
    right. left. reflexivity.
  - apply List.Forall_app. split; [exact Ht|].
    constructor; [discriminate | constructor].
Qed.

Lemma messages_expire_frame (f g : form) :
  banners g = banners f -> pending g = pending f ->
  messages_expire f -> messages_expire g.
Proof. unfold messages_expire. intros -> ->. tauto. Qed.

Lemma step_expire (f : form) (e : event) :
  messages_expire f -> messages_expire (step f e).
Proof.
  intros Hinv. destruct e as [|o|field|field|i v|i]; simpl.
  - apply (messages_expire_frame f); [| |exact Hinv].
    + unfold handleContactFormSubmit_begin.
      pose proof (validateContactForm_banners (formData f) f) as H.
      destruct (validateContactForm (formData f) f) as [isValid f1].
      simpl in H. destruct isValid; simpl; [|exact H].
      destruct (showFormLoading_frame true f1) as (_ & _ & -> & _). exact H.
    + unfold handleContactFormSubmit_begin.
      pose proof (validateContactForm_spec (formData f) f) as H.
      cbv zeta in H. destruct H as (_ & _ & _ & H & _).
      destruct (validateContactForm (formData f) f) as [isValid f1].
      simpl in H. destruct isValid; simpl; [|exact H].
      destruct (showFormLoading_frame true f1) as (_ & _ & _ & _ & -> & _).
      exact H.
  - unfold handleContactFormSubmit_settle.
    match goal with
    | |- context [showFormLoading false ?g] =>
        apply (messages_expire_frame g);
          [apply (showFormLoading_frame false g)
          |apply (showFormLoading_frame false g)|]
    end.
    destruct Hinv as (Hlen & Hrem & Ht).
    destruct o as [| |[| |errors]].
    + apply addBanner_expire, Ht.
    + apply (messages_expire_frame (showFormSuccess f)); [reflexivity..|].
      apply addBanner_expire, Ht.
    + apply addBanner_expire, Ht.
    + apply addBanner_expire, Ht.
    + pose proof (report_errors_spec errors f) as H. cbv zeta in H.
      destruct H as (_ & Hb & Hp & _).
      apply (messages_expire_frame f); [exact Hb | exact Hp |].
      unfold messages_expire. auto.
  - apply (messages_expire_frame f); [| |exact Hinv];
      unfold validateFormField; cbv zeta;
      repeat (destruct (_ && _));
      try (etransitivity; [apply showFieldError_frame|]); reflexivity.
  - exact Hinv.
  - exact Hinv.
  - unfold fireTimer. destruct (pending f !! i) as [[d t]|] eqn:Hi; [|exact Hinv].
    destruct Hinv as (Hlen & Hrem & Ht).
    destruct (overview_timers_lookup _ i d t Ht Hi) as [b ->].
    unfold messages_expire. simpl. split; [|split].
    + pose proof (List.filter_length_le
                    (fun x => negb (Nat.eqb (fst x) b)) (banners f)). lia.
    + intros x Hx. apply List.filter_In in Hx as [Hx Hne].
      apply (removals_delete _ i d b); [exact Hi | apply Hrem, Hx |].
      destruct (Nat.eqb_spec (fst x) b); [discriminate | assumption].
    + apply overview_timers_delete, Ht.
Qed.

End MessageFacts.

(** X6: at any time at most one message (success or error) is shown in
    the form container, and a message that is shown has its removal timer
    pending, so it disappears again.  This holds after any sequence of
    submissions, replies of the service, blur and input events, edits and
    timers, the timers firing in any order. *)
Theorem X6_messages_are_single_and_expire
    (f : ContactForm.form) (es : list FormEvents.event) :
  FormSpec.messages_expire f ->
  FormSpec.messages_expire (FormEvents.run es f)
  /\ (length (ContactForm.banners (FormEvents.run es f)) <= 1)%nat.
Proof.
  intros Hinv.
  assert (H : FormSpec.messages_expire (FormEvents.run es f)).
  { revert f Hinv. induction es as [|e es IH]; intros f Hinv; [exact Hinv|].
    simpl. apply IH, step_expire, Hinv. }
  split; [exact H | apply H].
Qed.

Lemma X6_witness :
  (length
     (ContactForm.banners
        (FormEvents.run
           [FormEvents.Submit; FormEvents.Settle ContactForm.SubmitRejected;
            FormEvents.Submit; FormEvents.Settle ContactForm.SubmitOk;
            FormEvents.Timer 0%nat]
           (Props.filled_form "Hello"))) <= 1)%nat.
Proof.
  apply (X6_messages_are_single_and_expire (Props.filled_form "Hello")).
  split; [simpl; lia|]. split; [intros ? [] | constructor].
Defined.

(* ================================================================== *)
(** * Debounced functions *)
(* ================================================================== *)

Section DebounceFacts.
Import Debounce.
Context {A : Type}.

Lemma last_default (B : Type) (l : list B) :
  forall x d d' : B, List.last (x :: l) d = List.last (x :: l) d'.
Proof.
  induction l as [|y l IH]; intros x d d'; [reflexivity|].
  change (List.last (y :: l) d = List.last (y :: l) d'). apply IH.
Qed.

(** Calls that arrive while a timer is pending only replace the timer. *)
Lemma burst_pending (wait : Z) (immediate : bool) (cs : list (Z * A)) :
  forall (s : state A) (c : Z * A),
    timeout s = Some (fst c + wait, snd c) ->
    let s' := run wait immediate (burst cs) s in
    timeout s' = Some (fst (List.last cs c) + wait, snd (List.last cs c))
    /\ calls s' = calls s.
Proof.
  induction cs as [|c0 cs IH]; intros s c Hs; cbv zeta.
  - simpl. auto.
  - simpl run.
    specialize (IH (executedFunction wait immediate (fst c0) (snd c0) s) c0
                  eq_refl).
    cbv zeta in IH. destruct IH as [Ht Hc].
    change (step wait immediate s (Call (fst c0) (snd c0)))
      with (executedFunction wait immediate (fst c0) (snd c0) s).
    split.
    + rewrite Ht. destruct cs as [|p cs]; [reflexivity|].
      change (List.last (c0 :: p :: cs) c) with (List.last (p :: cs) c).
      rewrite (last_default _ cs p c0 c). reflexivity.
    + rewrite Hc. unfold executedFunction. rewrite Hs, andb_false_r.
      reflexivity.
Qed.

End DebounceFacts.

(** X7: a debounced function turns a burst of calls into one call of the
    function it wraps.  When no timer is pending and a burst of calls
    arrives, the timer is due [wait] ms after the last call of the burst.
    Without [immediate] nothing is called during the burst and the timer
    calls the function once, with the arguments of the last call; with
    [immediate] the function is called at the first call of the burst,
    with its arguments, and not again, neither by the later calls nor by
    the timer. *)
Theorem X7_debounce_one_call_per_burst
    (A : Type) (wait : Z) (immediate : bool) (s : Debounce.state A)
    (first : Z * A) (rest : list (Z * A)) :
  Debounce.timeout s = None ->
  let last := List.last rest first in
  let s1 := Debounce.run wait immediate (Debounce.burst (first :: rest)) s in
  let s2 := Debounce.step wait immediate s1 Debounce.Fire in
  Debounce.timeout s1 = Some (fst last + wait, snd last)
  /\ Debounce.timeout s2 = None
  /\ (immediate = false ->
      Debounce.calls s1 = Debounce.calls s
      /\ Debounce.calls s2 = Debounce.calls s ++ [snd last])
  /\ (immediate = true ->
      Debounce.calls s1 = Debounce.calls s ++ [snd first]
      /\ Debounce.calls s2 = Debounce.calls s ++ [snd first]).
Proof.
  intros Hs. cbv zeta. simpl Debounce.run.
  change (Debounce.step wait immediate s
            (Debounce.Call (fst first) (snd first)))
    with (Debounce.executedFunction wait immediate (fst first) (snd first) s).
  pose proof (burst_pending wait immediate rest
                (Debounce.executedFunction wait immediate (fst first)
                   (snd first) s) first eq_refl) as H.
  cbv zeta in H. destruct H as [Ht Hc].
  fold (Debounce.run wait immediate (Debounce.burst rest)
          (Debounce.executedFunction wait immediate (fst first) (snd first) s)).
  split; [exact Ht|].
  unfold Debounce.step, Debounce.later. rewrite Ht, Hc. simpl.
  unfold Debounce.executedFunction. rewrite Hs. simpl.
  split; [reflexivity|].
  split; intros ->; simpl; auto.
Qed.

Lemma X7_witness :
  Debounce.calls
    (Debounce.run 100 false
       (Debounce.burst [(0, "a"%string); (40, "b"%string); (90, "c"%string)]
          ++ [Debounce.Fire])
       {| Debounce.timeout := None; Debounce.calls := [] |})
  = ["c"%string].
Proof.
  destruct (X7_debounce_one_call_per_burst string 100 false
              {| Debounce.timeout := None; Debounce.calls := [] |}
              (0, "a"%string) [(40, "b"%string); (90, "c"%string)] eq_refl)
    as (_ & _ & H & _).
  destruct (H eq_refl) as [_ H2]. exact H2.
Defined.

(* ================================================================== *)
(** * The mobile menu *)
(* ================================================================== *)

Section MenuFacts.
Import JS Navigation.

Lemma toggle_consistent (m : menu) :
  hamburgerActive m = navMenuActive m -> consistent (toggleMobileMenu m).
Proof. intros H. unfold consistent, toggleMobileMenu. simpl. rewrite H. auto. Qed.

Lemma step_consistent (st : menu * view) (e : event) :
  consistent (fst st) -> consistent (fst (step st e)).
Proof.
  intros Hc. pose proof Hc as [Hh _].
  pose proof (toggle_consistent (fst st) Hh) as Ht.
  destruct e as [|inside|key|[h|] r|r|r]; simpl; try exact Hc.
  - exact Ht.
  - unfold handleDocumentClick.
    destruct (_ && _); [exact Ht | exact Hc].
  - unfold onKeydown.
    destruct (_ && _); [exact Ht | exact Hc].
  - unfold handleNavLinkClick.
    destruct h as [|c h]; [exact Hc|].
    destruct (Ascii.eqb_spec c "#") as [->|Hne].
    + simpl. destruct (navMenuActive (fst st)); [exact Ht | exact Hc].
    + destruct c as [[] [] [] [] [] [] [] []]; try exact Hc.
      exfalso. apply Hne. reflexivity.
Qed.

Lemma run_consistent (es : list event) :
  forall st, consistent (fst st) -> consistent (fst (run es st)).
Proof.
  induction es as [|e es IH]; intros st Hc; [exact Hc|].
  simpl. apply IH, step_consistent, Hc.
Qed.

Lemma closed_menu (m : menu) :
  consistent m -> navMenuActive m = false ->
  navMenuActive m = false /\ bodyOverflow m = EmptyString.
Proof. intros [_ Ho] Ha. rewrite Ha in Ho. auto. Qed.

End MenuFacts.

(** X8: the mobile menu stays consistent and can always be closed.  From a
    state in which the hamburger and the menu agree and the body scrolls
    exactly when the menu is closed, every sequence of clicks and key
    presses leads to such a state again; there the hamburger toggles the
    menu back and forth, and a click outside the navigation bar, the
    Escape key and a click on a link to an anchor each leave the menu
    closed and the body scrolling. *)
Theorem X8_mobile_menu_consistent_and_closable
    (st : Navigation.menu * Navigation.view) (es : list Navigation.event) :
  Navigation.consistent (fst st) ->
  let st' := Navigation.run es st in
  Navigation.consistent (fst st')
  /\ Navigation.toggleMobileMenu (Navigation.toggleMobileMenu (fst st'))
     = fst st'
  /\ Navigation.navMenuActive (Navigation.toggleMobileMenu (fst st'))
     = negb (Navigation.navMenuActive (fst st'))
  /\ (forall e,
        (e = Navigation.ClickDocument false
         \/ e = Navigation.Keydown "Escape"
         \/ exists targetId r,
              e = Navigation.ClickNavLink (Some ("#" +:+ targetId)) r) ->
        Navigation.navMenuActive (fst (Navigation.step st' e)) = false
        /\ Navigation.bodyOverflow (fst (Navigation.step st' e)) = EmptyString).
Proof.
  intros Hc. cbv zeta. pose proof (run_consistent es st Hc) as Hrun.
  set (st' := Navigation.run es st) in *.
  split; [exact Hrun|]. split; [|split; [reflexivity|]].
  - destruct Hrun as [Hh Ho]. destruct (fst st') as [h a o]. simpl in *.
    subst h o. unfold Navigation.toggleMobileMenu. simpl.
    rewrite negb_involutive. destruct a; reflexivity.
  - intros e He. apply closed_menu; [apply step_consistent, Hrun|].
    destruct He as [-> | [-> | (targetId & r & ->)]]; simpl.
    + unfold Navigation.handleDocumentClick. simpl.
      destruct (Navigation.navMenuActive (fst st')) eqn:E; simpl;
        [rewrite E; reflexivity | exact E].
    + unfold Navigation.onKeydown. simpl.
      destruct (Navigation.navMenuActive (fst st')) eqn:E; simpl;
        [rewrite E; reflexivity | exact E].
    + destruct (Navigation.navMenuActive (fst st')) eqn:E; simpl;
        [rewrite E; reflexivity | exact E].
Qed.

Lemma X8_witness :
  Navigation.navMenuActive
    (fst (Navigation.run
            [Navigation.ClickHamburger; Navigation.Keydown "Escape"]
            ({| Navigation.hamburgerActive := false;
                Navigation.navMenuActive := false;
                Navigation.bodyOverflow := EmptyString |},
             {| Navigation.sections := []; Navigation.anchors := [];
                Navigation.navLinks := []; Navigation.navbarScrolled := false;
                Navigation.scrollRequests := [] |})))
  = false.
Proof.
  destruct (X8_mobile_menu_consistent_and_closable
              ({| Navigation.hamburgerActive := false;
                  Navigation.navMenuActive := false;
                  Navigation.bodyOverflow := EmptyString |},
               {| Navigation.sections := []; Navigation.anchors := [];
                  Navigation.navLinks := []; Navigation.navbarScrolled := false;
                  Navigation.scrollRequests := [] |})
              [Navigation.ClickHamburger]) as (_ & _ & _ & H).
  - split; reflexivity.
  - destruct (H (Navigation.Keydown "Escape")) as [Ha _]; [tauto|]. exact Ha.
Defined.

(* ================================================================== *)
(** * The active navigation link and the scroll animations *)
(* ================================================================== *)

Section ScrollFacts.
Import JS Navigation QArith_base.
Local Open Scope Z_scope.

Lemma within_spec (pos : Q) (s : section) :
  within pos s = true
  <-> Qle (inject_Z (offsetTop s - 180)) pos
      /\ Qlt pos (inject_Z (offsetTop s - 180 + offsetHeight s)).
Proof.
  unfold within, scrollOffset. cbv zeta.
  replace (offsetTop s - 80 - 100) with (offsetTop s - 180) by lia.
  rewrite andb_true_iff, negb_true_iff, Qle_bool_iff.
  split; intros [H1 H2]; split; try exact H1.
  - apply Qnot_le_lt. intros H. apply Qle_bool_iff in H. congruence.
  - destruct (Qle_bool _ pos) eqn:E; [|reflexivity].
    apply Qle_bool_iff in E. exfalso. exact (Qlt_not_le _ _ H2 E).
Qed.

Lemma active_none (pos : Q) (ss : list section) (a : string) :
  List.Forall (fun x => within pos x = false) ss ->
  List.fold_left
    (fun active s => if within pos s then section_id s else active) ss a = a.
Proof.
  intros H. revert a. induction H as [|s ss Hs _ IH]; intros a; [reflexivity|].
  simpl. rewrite Hs. apply IH.
Qed.

Lemma isElementInViewport_spec (r : rect) (v : viewport) :
  isElementInViewport r v = true
  <-> Qle (inject_Z 0) (top r) /\ Qle (inject_Z 0) (left r)
      /\ Qle (bottom r) (inject_Z (or_else (innerHeight v) (clientHeight v)))
      /\ Qle (right r) (inject_Z (or_else (innerWidth v) (clientWidth v))).
Proof.
  unfold isElementInViewport.
  rewrite !andb_true_iff, !Qle_bool_iff. tauto.
Qed.

Lemma check_lookup (v : viewport) (els : list (rect * bool)) :
  forall (i : nat) (e : rect * bool),
    els !! i = Some e ->
    checkElementsInViewport v els !! i
    = Some (if isElementInViewport (fst e) v then true else snd e).
Proof.
  intros i e He. unfold checkElementsInViewport.
  rewrite list_lookup_fmap_Some. exists e. auto.
Qed.

End ScrollFacts.

(** X9: [updateActiveNavLink] marks the links to the last section, in
    document order, whose band contains the scroll position, the band of
    a section reaching from 180 px above its top over its height.  It
    marks exactly the links whose [href] is [#] followed by that section's
    id and unmarks all others; when no band contains the position these
    are the links whose [href] is the bare [#]. *)
Theorem X9_active_link_is_last_section_in_view
    (r : Navigation.reading) (w : Navigation.view) :
  let pos := Navigation.getCurrentScrollPosition r in
  let w' := Navigation.updateActiveNavLink r w in
  (forall s,
     Navigation.within pos s = true
     <-> QArith_base.Qle
           (QArith_base.inject_Z (Navigation.offsetTop s - 180)) pos
         /\ QArith_base.Qlt pos
              (QArith_base.inject_Z
                 (Navigation.offsetTop s - 180 + Navigation.offsetHeight s)))
  /\ (forall pre s post,
        Navigation.sections w = pre ++ s :: post ->
        Navigation.within pos s = true ->
        List.Forall (fun x => Navigation.within pos x = false) post ->
        Navigation.activeSection pos w = Navigation.section_id s)
  /\ (List.Forall (fun x => Navigation.within pos x = false)
        (Navigation.sections w) ->
      Navigation.activeSection pos w = EmptyString)
  /\ List.map Navigation.href (Navigation.navLinks w')
     = List.map Navigation.href (Navigation.navLinks w)
  /\ (forall l, In l (Navigation.navLinks w') ->
        (Navigation.link_active l = true
         <-> Navigation.href l
             = Some ("#" +:+ Navigation.activeSection pos w))).
Proof.
  cbv zeta. split; [intros s; apply within_spec|].
  split; [|split; [|split]].
  - intros pre s post Hs Hin Hpost. unfold Navigation.activeSection.
    rewrite Hs, List.fold_left_app. simpl. rewrite Hin.
    apply active_none, Hpost.
  - intros Hnone. apply active_none, Hnone.
  - unfold Navigation.updateActiveNavLink. simpl.
    rewrite List.map_map. reflexivity.
  - intros l Hin. unfold Navigation.updateActiveNavLink in Hin. simpl in Hin.
    apply List.in_map_iff in Hin as (l0 & <- & _). simpl.
    destruct (Navigation.href l0) as [h|]; [|split; discriminate].
    rewrite String.eqb_eq. split; congruence.
Qed.

(** X10: [checkElementsInViewport] only ever adds the class [visible].
    An element that is visible stays visible, an element whose rectangle
    lies within the viewport becomes visible, and any other element is
    left as it was.  In particular an element that is higher or wider
    than the viewport is never made visible by this check, wherever it is
    scrolled to. *)
Theorem X10_viewport_check_only_adds_visible
    (v : Navigation.viewport) (els : list (Navigation.rect * bool)) :
  let height :=
    Navigation.or_else (Navigation.innerHeight v) (Navigation.clientHeight v) in
  let width :=
    Navigation.or_else (Navigation.innerWidth v) (Navigation.clientWidth v) in
  let after := Navigation.checkElementsInViewport v els in
  length after = length els
  /\ (forall i e, els !! i = Some e -> snd e = true -> after !! i = Some true)
  /\ (forall i e, els !! i = Some e ->
        QArith_base.Qle (QArith_base.inject_Z 0) (Navigation.top (fst e)) ->
        QArith_base.Qle (QArith_base.inject_Z 0) (Navigation.left (fst e)) ->
        QArith_base.Qle (Navigation.bottom (fst e))
          (QArith_base.inject_Z height) ->
        QArith_base.Qle (Navigation.right (fst e))
          (QArith_base.inject_Z width) ->
        after !! i = Some true)
  /\ (forall i e, els !! i = Some e ->
        Navigation.isElementInViewport (fst e) v = false ->
        after !! i = Some (snd e))
  /\ (forall r,
        QArith_base.Qlt (QArith_base.inject_Z height)
          (QArith_base.Qminus (Navigation.bottom r) (Navigation.top r))
        \/ QArith_base.Qlt (QArith_base.inject_Z width)
             (QArith_base.Qminus (Navigation.right r) (Navigation.left r)) ->
        Navigation.isElementInViewport r v = false).
Proof.
  cbv zeta. split; [apply List.length_map|].
  split; [|split; [|split]].
  - intros i e He Hv. rewrite (check_lookup v els i e He), Hv.
    destruct (Navigation.isElementInViewport _ _); reflexivity.
  - intros i e He H1 H2 H3 H4. rewrite (check_lookup v els i e He).
    assert (Hin : Navigation.isElementInViewport (fst e) v = true)
      by (apply isElementInViewport_spec; auto).
    rewrite Hin. reflexivity.
  - intros i e He Hout. rewrite (check_lookup v els i e He), Hout. reflexivity.
  - intros r Hbig.
    destruct (Navigation.isElementInViewport r v) eqn:E; [|reflexivity].
    apply isElementInViewport_spec in E. destruct E as (H1 & H2 & H3 & H4).
    exfalso. unfold QArith_base.inject_Z in *.
    destruct Hbig as [Hbig | Hbig]; Lqa.lra.
Qed.

(* ================================================================== *)
(** * The failsafe check of the overview page *)
(* ================================================================== *)

Section FailsafeFacts.
Import JS Portfolio Props.


End FailsafeFacts.



(* ================================================================== *)
(** * Project detail page: how the initializer ends *)
(* ================================================================== *)

Section DetailFacts.
Import JS ProjectDetail DetailSpec.



End DetailFacts.




(* ================================================================== *)
(** * Project detail page: the description *)
(* ================================================================== *)

Section DescriptionFacts.
Import JS ProjectDetailView.






End DescriptionFacts.


(* ================================================================== *)
(** * Blog detail page *)
(* ================================================================== *)

Section BlogPageFacts.
Import JS BlogDetailPage BlogSpec.

Lemma strict_eq_refl (a : value) : strict_eq a a = true.
Proof.
  destruct a as [| |b|n|s]; simpl; try reflexivity.
  - destruct b; reflexivity.
  - apply Z.eqb_refl.
  - apply String.eqb_refl.
Qed.

Lemma strict_eq_false (a b : value) : strict_eq a b = false <-> a <> b.
Proof.
  split.
  - intros H ->. rewrite strict_eq_refl in H. discriminate.
  - intros H. destruct (strict_eq a b) eqn:E; [|reflexivity].
    apply strict_eq_true in E. contradiction.
Qed.

Lemma includes_In (x : string) (l : list string) :
  includes x l = true <-> In x l.
Proof.
  unfold includes. rewrite List.existsb_exists. split.
  - intros (y & Hy & E). apply String.eqb_eq in E. subst. exact Hy.
  - intros H. exists x. split; [exact H | apply String.eqb_refl].
Qed.

Lemma related_spec (current b : blog) :
  related current b = true
  <-> category b = category current \/ share_keyword b current.
Proof.
  unfold related, share_keyword.
  rewrite orb_true_iff, String.eqb_eq, List.existsb_exists.
  split; intros [H | H]; auto; right.
  - destruct H as (k & Hk & Hin). apply includes_In in Hin. eauto.
  - destruct H as (k & Hk & Hin). exists k. split; [exact Hk|].
    apply includes_In, Hin.
Qed.

(** The posts that pass both filters. *)
Lemma candidates_spec (allBlogs : list blog) (current b : blog) :
  In b (List.filter (related current)
          (List.filter
             (fun b => negb (strict_eq (blog_id b) (blog_id current)))
             allBlogs))
  <-> In b allBlogs /\ qualifies current b.
Proof.
  rewrite !List.filter_In, negb_true_iff, strict_eq_false, related_spec.
  unfold qualifies. tauto.
Qed.

Lemma sublist_List_filter (A : Type) (f : A -> bool) (l : list A) :
  sublist (List.filter f l) l.
Proof.
  induction l as [|x l IH]; simpl; [constructor|].
  destruct (f x); [apply sublist_skip | apply sublist_cons]; exact IH.
Qed.

Lemma In_take (A : Type) (n : nat) (l : list A) (x : A) :
  In x (take n l) -> In x l.
Proof.
  revert n. induction l as [|y l IH]; intros [|n]; simpl; try tauto.
  intros [H | H]; [auto | right; apply (IH n H)].
Qed.




End BlogPageFacts.

(** X16: [displayRelatedBlogs] shows at most three posts, in the order of
    the blogs document; each of them is a post of the document other than
    the current one (by strict comparison of the [id]s) that has the
    category of the current post or a keyword in common with it, and when
    fewer than three are shown no other post qualifies.  The section is
    hidden exactly when no post qualifies.  A card always ends its
    description with "...", also when the description is short. *)
Theorem X16_related_posts
    (allBlogs : list blog) (currentBlog : blog) :
  let rs := BlogDetailPage.relatedBlogs allBlogs currentBlog in
  (length rs <= 3)%nat
  /\ sublist rs allBlogs
  /\ (forall b, In b rs -> In b allBlogs /\ BlogSpec.qualifies currentBlog b)
  /\ ((length rs < 3)%nat ->
      forall b, In b allBlogs -> BlogSpec.qualifies currentBlog b -> In b rs)
  /\ (BlogDetailPage.displayRelatedBlogs allBlogs currentBlog
      = BlogDetailPage.RelatedHidden
      <-> forall b, In b allBlogs -> ~ BlogSpec.qualifies currentBlog b)
  /\ (rs <> [] ->
      BlogDetailPage.displayRelatedBlogs allBlogs currentBlog
      = BlogDetailPage.RelatedCards (List.map BlogDetailPage.relatedCard rs))
  /\ (forall b,
        BlogDetailPage.rel_description (BlogDetailPage.relatedCard b)
        = JS.substring_to 120 (shortDescription b) +:+ "...").
Proof.
  cbv zeta. unfold BlogDetailPage.relatedBlogs.
  set (cands := List.filter (BlogDetailPage.related currentBlog)
                  (List.filter
                     (fun b => negb (JS.strict_eq (blog_id b)
                                       (blog_id currentBlog)))
                     allBlogs)).
  assert (Hc : forall b, In b cands
                         <-> In b allBlogs /\ BlogSpec.qualifies currentBlog b)
    by (intros b; apply candidates_spec).
  split; [rewrite length_take; lia|].
  split.
  { transitivity cands; [apply sublist_take|].
    unfold cands. etransitivity; apply sublist_List_filter. }
  split; [intros b Hb; apply Hc, (In_take _ 3), Hb|].
  split.
  { intros Hlen b Hin Hq. rewrite length_take in Hlen.
    rewrite take_ge by lia. apply Hc. auto. }
  split.
  { unfold BlogDetailPage.displayRelatedBlogs, BlogDetailPage.relatedBlogs.
    fold cands. split.
    - intros H b Hin Hq.
      assert (Hb : In b cands) by (apply Hc; auto).
      destruct cands as [|x xs]; [contradiction|]. discriminate.
    - intros H. destruct cands as [|x xs] eqn:E; [reflexivity|].
      exfalso. assert (Hx : In x (x :: xs)) by (left; reflexivity).
      apply Hc in Hx as [Hin Hq]. exact (H x Hin Hq). }
  split; [|reflexivity].
  intros Hne. unfold BlogDetailPage.displayRelatedBlogs,
    BlogDetailPage.relatedBlogs. fold cands.
  destruct (take 3 cands); [contradiction | reflexivity].
Qed.




(* ================================================================== *)
(** * Markdown conversion of several lines *)
(* ================================================================== *)

Section LinesFacts.
Import JS Markdown Props MarkdownSpec.

(** A line: no line terminator in it. *)
Lemma lines_text_head (c : ascii) (x : string) (xs : list string) :
  lines_text (String c x) xs = String c (lines_text x xs).
Proof. destruct xs; reflexivity. Qed.

Lemma lines_text_prefix (a l : string) (ls : list string) :
  a +:+ lines_text l ls = lines_text (a +:+ l) ls.
Proof. destruct ls; simpl; [reflexivity|]. rewrite append_assoc. reflexivity. Qed.

Lemma map_lines_text (f : string -> string) (ls : list string) :
  forall l, line l -> List.Forall line ls ->
    map_lines f (lines_text l ls) = lines_text (f l) (List.map f ls).
Proof.
  induction ls as [|x xs IH]; intros l [Hn Hr] Hls.
  - apply map_lines_single; assumption.
  - inversion Hls as [|? ? Hx Hxs]; subst. simpl.
    rewrite map_lines_cons by (try assumption; reflexivity).
    rewrite (IH x Hx Hxs). reflexivity.
Qed.

Lemma map_lines_fixed (f : string -> string) (l : string) (ls : list string) :
  line l -> List.Forall line ls ->
  f l = l -> List.Forall (fun x => f x = x) ls ->
  map_lines f (lines_text l ls) = lines_text l ls.
Proof.
  intros Hl Hls Hf Hfs. rewrite (map_lines_text f ls l Hl Hls), Hf.
  f_equal. clear -Hfs. induction Hfs as [|x xs Hx _ IH]; [reflexivity|].
  simpl. rewrite Hx, IH. reflexivity.
Qed.

Lemma lacks_lines_text (c : ascii) (ls : list string) :
  forall l, c <> nl -> lacks c l = true ->
    List.Forall (fun x => lacks c x = true) ls ->
    lacks c (lines_text l ls) = true.
Proof.
  induction ls as [|x xs IH]; intros l Hc Hl Hls; [exact Hl|].
  inversion Hls as [|? ? Hx Hxs]; subst. simpl.
  rewrite lacks_app, Hl, lacks_step, (IH x Hc Hx Hxs).
  destruct (Ascii.eqb_spec nl c); [congruence | reflexivity].
Qed.

Lemma paragraph_skip (c : ascii) (r : string) :
  c <> nl ->
  replace_all paragraph 0 (String nl (String c r))
  = String nl (replace_all paragraph 0 (String c r)).
Proof.
  intros Hc.
  assert (E : paragraph (String nl (String c r)) = None).
  { unfold paragraph. destruct (Ascii.eqb_spec c nl); [contradiction|].
    rewrite andb_false_r. reflexivity. }
  change (replace_all paragraph 0 (String nl (String c r)))
    with (match paragraph (String nl (String c r)) with
          | Some (out, n) =>
              out +:+ replace_all paragraph (Nat.pred n) (String c r)
          | None => String nl (replace_all paragraph 0 (String c r))
          end).
  rewrite E. reflexivity.
Qed.

(** Without an empty line there is no paragraph break. *)
Lemma lineBreaks_lines (ls : list string) :
  forall l, lacks nl l = true ->
    List.Forall (fun x => x <> EmptyString /\ lacks nl x = true) ls ->
    lineBreaks (lines_text l ls) = lines_text l ls.
Proof.
  unfold lineBreaks.
  induction ls as [|x xs IH]; intros l Hl Hls.
  - apply (replace_all_id paragraph nl l paragraph_trigger Hl).
  - inversion Hls as [|? ? [Hne Hx] Hxs]; subst. simpl lines_text.
    rewrite (replace_all_prefix paragraph nl l _ paragraph_trigger Hl).
    f_equal. destruct x as [|c x]; [contradiction|].
    rewrite lines_text_head.
    pose proof (IH (String c x) Hx Hxs) as E. rewrite lines_text_head in E.
    apply lacks_cons in Hx as [Hc _].
    rewrite (paragraph_skip c _ Hc), E. reflexivity.
Qed.

(** Lines that do not start with [#] are no headings. *)
Lemma mark_line_other (c : ascii) (d opn cls l : string) :
  match l with String x _ => x <> c | EmptyString => True end ->
  mark_line (String c d) opn cls l = l.
Proof.
  intros H. unfold mark_line. destruct l as [|x l]; [reflexivity|].
  rewrite strip_prefix_head by exact H. reflexivity.
Qed.

Lemma headers_lines (l : string) (ls : list string) :
  line l -> List.Forall line ls ->
  List.Forall
    (fun x => match x with String c _ => c <> "#"%char | EmptyString => True end)
    (l :: ls) ->
  headers (lines_text l ls) = lines_text l ls.
Proof.
  intros Hl Hls Hh. inversion Hh as [|? ? Hhl Hhls]; subst.
  assert (Hfix : forall d opn cls,
            map_lines (mark_line (String "#" d) opn cls) (lines_text l ls)
            = lines_text l ls).
  { intros d opn cls. apply map_lines_fixed; try assumption.
    - apply mark_line_other, Hhl.
    - eapply List.Forall_impl; [|exact Hhls].
      intros x Hx. apply mark_line_other, Hx. }
  unfold headers. rewrite !Hfix. reflexivity.
Qed.

(** The stages before the lists leave lines alone that hold no markdown
    syntax, do not start with [#] and are not empty after the first. *)
Lemma before_lists (l : string) (ls : list string) :
  List.Forall (fun x => inline_text x = true) (l :: ls) ->
  List.Forall
    (fun x => match x with String c _ => c <> "#"%char | EmptyString => True end)
    (l :: ls) ->
  List.Forall (fun x => x <> EmptyString) ls ->
  lineBreaks (code (emphasis (headers (lines_text l ls)))) = lines_text l ls.
Proof.
  intros Hin Hh Hne.
  assert (Hall : List.Forall
                   (fun x => lacks "*" x = true /\ lacks "`" x = true
                             /\ lacks "[" x = true /\ lacks "<" x = true
                             /\ lacks nl x = true /\ lacks cr x = true)
                   (l :: ls)).
  { eapply List.Forall_impl; [|exact Hin]. intros x. apply inline_text_lacks. }
  inversion Hall as [|? ? Hl Hls]; subst.
  destruct Hl as (Hs & Hq & Hb & Hlt & Hn & Hr).
  rewrite headers_lines; [|split; assumption| |exact Hh].
  - rewrite emphasis_id.
    + rewrite code_id.
      * apply lineBreaks_lines; [exact Hn|].
        apply List.Forall_forall. intros x Hx. split.
        -- exact (proj1 (List.Forall_forall _ _) Hne x Hx).
        -- apply (proj1 (List.Forall_forall _ _) Hls x Hx).
      * apply lacks_lines_text; [discriminate | exact Hq |].
        eapply List.Forall_impl; [|exact Hls]. intros x Hx. apply Hx.
    + apply lacks_lines_text; [discriminate | exact Hs |].
      eapply List.Forall_impl; [|exact Hls]. intros x Hx. apply Hx.
  - eapply List.Forall_impl; [|exact Hls]. intros x Hx. split; apply Hx.
Qed.

Lemma find_last_end (d X : string) :
  d <> EmptyString -> find_last d (X +:+ d) = Some (X, EmptyString).
Proof.
  intros Hd.
  assert (Hshort : forall s, (String.length s < String.length d)%nat ->
                             find_last d s = None).
  { induction s as [|c s IH]; intros Hlen; [reflexivity|].
    simpl in Hlen. cbn [find_last]. rewrite IH by lia.
    assert (Hsp : forall p s', (String.length s' < String.length p)%nat ->
                               strip_prefix p s' = None).
    { induction p as [|a p IHp]; intros s' Hl; simpl in Hl; [lia|].
      destruct s' as [|b s']; [reflexivity|]. simpl in Hl. simpl.
      destruct (Ascii.eqb a b); [apply IHp; lia | reflexivity]. }
    rewrite Hsp by (simpl; lia). reflexivity. }
  induction X as [|c X IH].
  - simpl. destruct d as [|a d]; [contradiction|].
    cbn [find_last]. rewrite Hshort by (simpl; lia).
    rewrite <- (append_nil_r (String a d)) at 2. rewrite strip_prefix_app.
    reflexivity.
  - change (String c X +:+ d) with (String c (X +:+ d)).
    cbn [find_last]. rewrite IH. reflexivity.
Qed.

(** Items one below the other start with [<li>] and end with [</li>]. *)
Lemma items_shape (ts : list string) :
  forall t, exists X,
    lines_text (item t) (List.map item ts) = "<li>" +:+ X +:+ "</li>".
Proof.
  induction ts as [|t' ts IH]; intros t.
  - exists t. reflexivity.
  - destruct (IH t') as [X HX].
    change (lines_text (item t) (List.map item (t' :: ts)))
      with (item t +:+ String nl (lines_text (item t') (List.map item ts))).
    rewrite HX.
    exists (t +:+ "</li>" +:+ String nl ("<li>" +:+ X)).
    unfold item. rewrite ?append_assoc. simpl. rewrite ?append_assoc.
    reflexivity.
Qed.

Lemma wrap_items (t : string) (ts : list string) :
  wrap_list (lines_text (item t) (List.map item ts))
  = "<ul>" +:+ lines_text (item t) (List.map item ts) +:+ "</ul>".
Proof.
  destruct (items_shape ts t) as [X HX]. rewrite HX.
  unfold wrap_list.
  change (find_first "<li>" ("<li>" +:+ X +:+ "</li>"))
    with (Some (EmptyString, X +:+ "</li>")).
  cbv beta iota. rewrite find_last_end by discriminate.
  rewrite ?append_assoc. simpl. rewrite ?append_nil_r. reflexivity.
Qed.

(** Appending to the last line. *)
Lemma lines_text_suffix (z : string) (ls : list string) :
  forall l, exists l' ls',
    lines_text l ls +:+ z = lines_text l' ls'
    /\ (line z -> line l -> List.Forall line ls ->
        line l' /\ List.Forall line ls')
    /\ (forall c, (exists r, l = String c r) -> exists r', l' = String c r')
    /\ (forall c, List.Forall (fun x => exists r, x = String c r) ls ->
                  List.Forall (fun x => exists r, x = String c r) ls').
Proof.
  induction ls as [|x xs IH]; intros l.
  - exists (l +:+ z), []. split; [reflexivity|]. split; [|split].
    + intros [Hz1 Hz2] [Hl1 Hl2] _. split; [|constructor].
      split; rewrite lacks_app; [rewrite Hl1, Hz1 | rewrite Hl2, Hz2];
        reflexivity.
    + intros c [r ->]. eexists. reflexivity.
    + intros c _. constructor.
  - destruct (IH x) as (x' & xs' & E & Hline & Hhead & Hheads).
    exists l, (x' :: xs'). split; [|split; [|split]].
    + simpl. rewrite append_assoc. simpl. rewrite E. reflexivity.
    + intros Hz Hl Hls. inversion Hls as [|? ? Hx Hxs]; subst.
      destruct (Hline Hz Hx Hxs) as [Hx' Hxs'].
      split; [exact Hl | constructor; assumption].
    + intros c H. exact H.
    + intros c Hc. inversion Hc as [|? ? Hx Hxs]; subst.
      constructor; [apply Hhead, Hx | apply Hheads, Hxs].
Qed.

Lemma numbered_line_tag (r : string) :
  numbered_line (String "<" r) = String "<" r.
Proof. reflexivity. Qed.

(** The numbered pass leaves the wrapped items alone. *)
Lemma numbered_wrapped (t : string) (ts : list string) :
  List.Forall (fun x => inline_text x = true) (t :: ts) ->
  map_lines numbered_line
    ("<ul>" +:+ lines_text (item t) (List.map item ts) +:+ "</ul>")
  = "<ul>" +:+ lines_text (item t) (List.map item ts) +:+ "</ul>".
Proof.
  intros Hin.
  assert (Hitem : forall x, inline_text x = true -> line (item x)).
  { intros x Hx. apply inline_text_lacks in Hx as (_ & _ & _ & _ & Hn & Hr).
    unfold item. split; rewrite !lacks_app; [rewrite Hn | rewrite Hr];
      reflexivity. }
  inversion Hin as [|? ? Ht Hts]; subst.
  destruct (lines_text_suffix "</ul>" (List.map item ts) (item t))
    as (l' & ls' & E & Hline & Hhead & Hheads).
  rewrite E, lines_text_prefix.
  destruct Hline as [Hl' Hls'].
  { split; reflexivity. }
  { apply Hitem, Ht. }
  { apply List.Forall_map. eapply List.Forall_impl; [|exact Hts].
    intros x. apply Hitem. }
  destruct (Hhead "<"%char) as [r' ->]; [eexists; reflexivity|].
  assert (Hls : List.Forall (fun x => exists r, x = String "<" r) ls').
  { apply Hheads. apply List.Forall_map. apply List.Forall_forall.
    intros x _. eexists. reflexivity. }
  apply map_lines_fixed.
  - destruct Hl' as [H1 H2]. split; assumption.
  - exact Hls'.
  - reflexivity.
  - eapply List.Forall_impl; [|exact Hls]. intros x [r ->]. reflexivity.
Qed.

(** What the list stage and the link stage do to lines that hold no
    markdown syntax in which the list stage finds nothing. *)
Lemma plain_lists (l : string) (ls : list string) :
  List.Forall (fun x => inline_text x = true) (l :: ls) ->
  List.Forall (fun x => plain_start x = true) (l :: ls) ->
  links (lists (lines_text l ls)) = lines_text l ls.
Proof.
  intros Hin Hps.
  assert (Hall : List.Forall
                   (fun x => lacks "*" x = true /\ lacks "`" x = true
                             /\ lacks "[" x = true /\ lacks "<" x = true
                             /\ lacks nl x = true /\ lacks cr x = true)
                   (l :: ls)).
  { eapply List.Forall_impl; [|exact Hin]. intros x. apply inline_text_lacks. }
  inversion Hall as [|? ? Hl Hls]; subst.
  inversion Hps as [|? ? Hpl Hpls]; subst.
  destruct Hl as (Hs & Hq & Hb & Hlt & Hn & Hr).
  assert (Hlines : List.Forall line ls).
  { eapply List.Forall_impl; [|exact Hls]. intros x Hx. split; apply Hx. }
  unfold lists.
  rewrite map_lines_fixed; [|split; assumption|exact Hlines| |].
  - rewrite wrap_list_none.
    + rewrite map_lines_fixed; [|split; assumption|exact Hlines| |].
      * apply links_id. apply lacks_lines_text; [discriminate | exact Hb |].
        eapply List.Forall_impl; [|exact Hls]. intros x Hx. apply Hx.
      * apply plain_start_numbered, Hpl.
      * eapply List.Forall_impl; [|exact Hpls].
        intros x. apply plain_start_numbered.
    + apply find_first_lacks. apply lacks_lines_text;
        [discriminate | exact Hlt |].
      eapply List.Forall_impl; [|exact Hls]. intros x Hx. apply Hx.
  - apply plain_start_marks; auto.
  - eapply List.Forall_impl; [|exact Hpls].
    intros x Hx. apply plain_start_marks; auto.
Qed.

Lemma plain_start_head (x : string) :
  plain_start x = true ->
  match x with String c _ => c <> "#"%char | EmptyString => True end.
Proof.
  destruct x as [|c x]; [tauto|]. simpl. intros H ->. discriminate.
Qed.

Lemma inline_bullet (t : string) :
  inline_text t = true -> inline_text (bullet t) = true.
Proof.
  intros H. apply inline_text_lacks in H as (Hs & Hq & Hb & Hlt & Hn & Hr).
  unfold inline_text, bullet. rewrite !lacks_app, Hs, Hq, Hb, Hlt, Hn, Hr.
  reflexivity.
Qed.

Lemma inline_item (t : string) :
  inline_text t = true ->
  lacks "[" (item t) = true /\ line (item t).
Proof.
  intros H. apply inline_text_lacks in H as (Hs & Hq & Hb & Hlt & Hn & Hr).
  unfold item, line. rewrite !lacks_app, Hb, Hn, Hr. auto.
Qed.

Lemma digits_lack (c : ascii) (k : string) :
  is_digit c = false -> all_chars is_digit k = true -> lacks c k = true.
Proof.
  intros Hc. induction k as [|x k IH]; [reflexivity|]. simpl.
  intros H. apply andb_prop in H as [Hx Hk]. rewrite lacks_step, (IH Hk).
  destruct (Ascii.eqb_spec x c) as [->|]; [congruence | reflexivity].
Qed.

Lemma inline_numbered (kt : string * string) :
  digits (fst kt) -> inline_text (snd kt) = true ->
  inline_text (numbered kt) = true
  /\ numbered kt <> EmptyString
  /\ match numbered kt with
     | String c _ => c <> "#"%char /\ c <> "-"%char
     | EmptyString => True
     end
  /\ numbered_line (numbered kt) = item (snd kt).
Proof.
  destruct kt as [k t]. simpl. intros [Hne Hk] H.
  apply inline_text_lacks in H as (Hs & Hq & Hb & Hlt & Hn & Hr).
  unfold numbered. simpl fst. simpl snd. split; [|split; [|split]].
  - unfold inline_text. rewrite !lacks_app, Hs, Hq, Hb, Hlt, Hn, Hr.
    rewrite !(digits_lack _ k) by (reflexivity || exact Hk). reflexivity.
  - destruct k; [contradiction | discriminate].
  - destruct k as [|c k]; [contradiction|]. simpl in Hk.
    apply andb_prop in Hk as [Hc _]. simpl.
    split; intros ->; discriminate.
  - unfold numbered_line.
    change (k +:+ ". " +:+ t) with (k +:+ String "." (" " +:+ t)).
    rewrite (span_stop is_digit k "." (" " +:+ t) Hk eq_refl).
    destruct k; [contradiction|]. reflexivity.
Qed.

End LinesFacts.

(** X19: a bulleted list becomes one [ul] element.  For items that hold
    no markdown syntax, lines of the form [- item] one below the other are
    converted to the items as [li] elements, still one to a line, inside a
    single pair of [<ul>] and [</ul>]. *)
Theorem X19_bulleted_list_becomes_one_ul (t : string) (ts : list string) :
  List.Forall (fun x => Props.inline_text x = true) (t :: ts) ->
  Markdown.convertMarkdownToHTML
    (MarkdownSpec.lines_text (MarkdownSpec.bullet t)
       (List.map MarkdownSpec.bullet ts))
  = "<ul>"
      +:+ MarkdownSpec.lines_text (MarkdownSpec.item t)
            (List.map MarkdownSpec.item ts)
      +:+ "</ul>".
Proof.
  intros Hin. inversion Hin as [|? ? Ht Hts]; subst.
  assert (Hbs : List.Forall (fun x => Props.inline_text x = true)
                  (MarkdownSpec.bullet t :: List.map MarkdownSpec.bullet ts)).
  { constructor; [apply inline_bullet, Ht|]. apply List.Forall_map.
    eapply List.Forall_impl; [|exact Hts]. intros x. apply inline_bullet. }
  assert (Hlines : List.Forall MarkdownSpec.line
                     (MarkdownSpec.bullet t :: List.map MarkdownSpec.bullet ts)).
  { eapply List.Forall_impl; [|exact Hbs]. intros x Hx.
    apply inline_text_lacks in Hx. split; apply Hx. }
  inversion Hlines as [|? ? Hl Hls]; subst.
  unfold Markdown.convertMarkdownToHTML.
  rewrite before_lists.
  - unfold Markdown.lists.
    rewrite (map_lines_text _ _ _ Hl Hls).
    replace (Markdown.mark_line "- " "<li>" "</li>" (MarkdownSpec.bullet t))
      with (MarkdownSpec.item t) by reflexivity.
    rewrite List.map_map.
    rewrite (List.map_ext _ MarkdownSpec.item) by reflexivity.
    rewrite wrap_items, (numbered_wrapped t ts Hin).
    apply links_id. rewrite !lacks_app.
    rewrite lacks_lines_text; [reflexivity | discriminate | |].
    + apply inline_item, Ht.
    + apply List.Forall_map. eapply List.Forall_impl; [|exact Hts].
      intros x. apply inline_item.
  - exact Hbs.
  - constructor; [discriminate|]. apply List.Forall_map, List.Forall_forall.
    intros x _. discriminate.
  - apply List.Forall_map, List.Forall_forall. intros x _. discriminate.
Qed.

Lemma X19_witness :
  Markdown.convertMarkdownToHTML
    (String.append "- tea" (String JS.nl "- milk"))
  = String.append "<ul><li>tea</li>" (String JS.nl "<li>milk</li></ul>").
Proof.
  apply (X19_bulleted_list_becomes_one_ul "tea" ["milk"]).
  repeat constructor.
Defined.

(** X20: numbered lines become bare list items.  For items that hold no
    markdown syntax, lines of the form [number. item] are converted to the
    items as [li] elements, one to a line, and nothing is put around them:
    the result has no [ul] or [ol] element. *)
Theorem X20_numbered_lines_become_bare_items
    (kt : string * string) (kts : list (string * string)) :
  List.Forall
    (fun x => MarkdownSpec.digits (fst x) /\ Props.inline_text (snd x) = true)
    (kt :: kts) ->
  Markdown.convertMarkdownToHTML
    (MarkdownSpec.lines_text (MarkdownSpec.numbered kt)
       (List.map MarkdownSpec.numbered kts))
  = MarkdownSpec.lines_text (MarkdownSpec.item (snd kt))
      (List.map (fun x => MarkdownSpec.item (snd x)) kts).
Proof.
  intros Hin.
  assert (Hall : List.Forall
            (fun x => Props.inline_text (MarkdownSpec.numbered x) = true
               /\ MarkdownSpec.numbered x <> EmptyString
               /\ match MarkdownSpec.numbered x with
                  | String c _ => c <> "#"%char /\ c <> "-"%char
                  | EmptyString => True
                  end
               /\ Markdown.numbered_line (MarkdownSpec.numbered x)
                  = MarkdownSpec.item (snd x)) (kt :: kts)).
  { eapply List.Forall_impl; [|exact Hin]. intros x [Hk Hx].
    apply inline_numbered; assumption. }
  assert (Hns : List.Forall (fun x => Props.inline_text x = true)
                  (List.map MarkdownSpec.numbered (kt :: kts))).
  { apply List.Forall_map. eapply List.Forall_impl; [|exact Hall].
    intros x Hx. apply Hx. }
  assert (Hlines : List.Forall MarkdownSpec.line
                     (List.map MarkdownSpec.numbered (kt :: kts))).
  { eapply List.Forall_impl; [|exact Hns]. intros x Hx.
    apply inline_text_lacks in Hx. split; apply Hx. }
  assert (Hlt : List.Forall (fun x => Props.lacks "<" x = true)
                  (List.map MarkdownSpec.numbered (kt :: kts))).
  { eapply List.Forall_impl; [|exact Hns]. intros x Hx.
    apply inline_text_lacks in Hx. apply Hx. }
  simpl List.map in Hns, Hlines, Hlt.
  inversion Hlines as [|? ? Hl Hls]; subst.
  inversion Hall as [|? ? Hkt Hkts]; subst.
  inversion Hin as [|? ? [_ Hit] Hits]; subst.
  inversion Hlt as [|? ? Hlt1 Hlts]; subst.
  unfold Markdown.convertMarkdownToHTML.
  rewrite before_lists.
  - unfold Markdown.lists.
    rewrite map_lines_fixed; [|exact Hl|exact Hls| |].
    + rewrite wrap_list_none.
      * rewrite (map_lines_text _ _ _ Hl Hls).
        destruct Hkt as (_ & _ & _ & ->).
        rewrite List.map_map.
        rewrite (List.map_ext_in _ (fun x => MarkdownSpec.item (snd x))).
        -- apply links_id. apply lacks_lines_text; [discriminate | |].
           ++ apply inline_item, Hit.
           ++ apply List.Forall_map. eapply List.Forall_impl; [|exact Hits].
              intros x [_ Hx]. apply inline_item, Hx.
        -- intros x Hx. rewrite List.Forall_forall in Hkts.
           apply (Hkts x Hx).
      * apply find_first_lacks.
        apply lacks_lines_text; [discriminate | exact Hlt1 | exact Hlts].
    + apply mark_line_other.
      destruct Hkt as (_ & _ & Hc & _).
      destruct (MarkdownSpec.numbered kt); [exact I | apply Hc].
    + apply List.Forall_map. eapply List.Forall_impl; [|exact Hkts].
      intros x (_ & _ & Hc & _). apply mark_line_other.
      destruct (MarkdownSpec.numbered x); [exact I | apply Hc].
  - exact Hns.
  - apply (List.Forall_map MarkdownSpec.numbered
             (fun y => match y with
                       | String c _ => c <> "#"%char
                       | EmptyString => True
                       end) (kt :: kts)).
    eapply List.Forall_impl; [|exact Hall].
    intros x (_ & _ & Hc & _).
    destruct (MarkdownSpec.numbered x); [exact I | apply Hc].
  - apply List.Forall_map. eapply List.Forall_impl; [|exact Hkts].
    intros x Hx. apply Hx.
Qed.

Lemma X20_witness :
  Markdown.convertMarkdownToHTML
    (String.append "1. tea" (String JS.nl "2. milk"))
  = String.append "<li>tea</li>" (String JS.nl "<li>milk</li>").
Proof.
  apply (X20_numbered_lines_become_bare_items ("1", "tea") [("2", "milk")]).
  repeat constructor; discriminate.
Defined.

(** X21: text without markdown syntax is returned as it is.  Lines that
    hold none of the characters the converter looks for and start with
    neither a heading marker, a list dash nor a digit, separated by single
    line feeds, come out of the converter unchanged: the line feeds stay
    and no paragraph or break element is inserted. *)
Theorem X21_plain_lines_are_unchanged (l : string) (ls : list string) :
  MarkdownSpec.plain_line l ->
  List.Forall (fun x => MarkdownSpec.plain_line x /\ x <> EmptyString) ls ->
  Markdown.convertMarkdownToHTML (MarkdownSpec.lines_text l ls)
  = MarkdownSpec.lines_text l ls.
Proof.
  intros [Hl Hpl] Hls.
  assert (Hin : List.Forall (fun x => Props.inline_text x = true) (l :: ls)).
  { constructor; [exact Hl|]. eapply List.Forall_impl; [|exact Hls].
    intros x Hx. apply Hx. }
  assert (Hps : List.Forall (fun x => Props.plain_start x = true) (l :: ls)).
  { constructor; [exact Hpl|]. eapply List.Forall_impl; [|exact Hls].
    intros x Hx. apply Hx. }
  unfold Markdown.convertMarkdownToHTML.
  rewrite before_lists.
  - apply plain_lists; assumption.
  - exact Hin.
  - eapply List.Forall_impl; [|exact Hps]. intros x. apply plain_start_head.
  - eapply List.Forall_impl; [|exact Hls]. intros x Hx. apply Hx.
Qed.

Lemma X21_witness :
  Markdown.convertMarkdownToHTML
    (String.append "Hello world" (String JS.nl "second line"))
  = String.append "Hello world" (String JS.nl "second line").
Proof.
  apply (X21_plain_lines_are_unchanged "Hello world" ["second line"]).
  - split; reflexivity.
  - repeat constructor; discriminate.
Defined.

(* ================================================================== *)
(** * Overview page: what [loadBlogs] shows for each kind of document *)
(* ================================================================== *)

Section BlogsListFacts.
Import Portfolio Props BlogsListSpec.

Lemma loadBlogs_begin_eq (p : page) (bch : list element) :
  blogsGrid p = Some bch ->
  loadBlogs_begin p
  = set_requests (requests p ++ [blogsDataPath])
      (set_nextId (S (nextId p))
         (set_blogsGrid
            (Some [{| eid := nextId p; widget_of := BlogsLoading |}]) p)).
Proof.
  intros Hb. unfold loadBlogs_begin, showBlogsLoading, fetch, appendToBlogs.
  rewrite Hb. reflexivity.
Qed.

Lemma showBlogError_view (q : page) (ch : list element) :
  blogsGrid q = Some ch ->
  blogs_view (showBlogError q) = [BlogsError CallLoadBlogs]
  /\ requests (showBlogError q) = requests q
  /\ timers (showBlogError q) = timers q
  /\ allBlogs (showBlogError q) = allBlogs q.
Proof.
  intros Hq. unfold showBlogError, blogs_view, appendToBlogs. rewrite Hq.
  simpl. auto.
Qed.

End BlogsListFacts.

(** X22: what the overview page shows in the blogs grid for each kind of
    fetched document.  When the fetch fails, is answered with an error
    status, cannot be parsed or yields [null], the grid holds only the
    error placeholder with its retry button.  A document that is falsy
    ([false], [0], the empty string) or has length 0 gives the "No blogs
    available" message.  Every other document that is not an array gives
    the error placeholder, after it has been cached.  In all these cases
    exactly one request has been made and no timer has been set. *)
Theorem X22_loadBlogs_outcomes
    (p : Portfolio.page) (bch : list Portfolio.element) :
  Portfolio.blogsGrid p = Some bch ->
  (forall o, BlogsListSpec.unusable o = true ->
     let p' := Portfolio.loadBlogs o p in
     Props.blogs_view p' = [Portfolio.BlogsError Portfolio.CallLoadBlogs]
     /\ Portfolio.allBlogs p' = Portfolio.allBlogs p
     /\ Portfolio.requests p'
        = Portfolio.requests p ++ [Portfolio.blogsDataPath]
     /\ Portfolio.timers p' = Portfolio.timers p)
  /\ (forall d : json blog,
        d <> JNull ->
        json_truthy d = false \/ BlogsListSpec.zero_length d = true ->
        let p' := Portfolio.loadBlogs (Response true (Some d)) p in
        Props.blogs_view p' = [Portfolio.NoBlogsMessage]
        /\ Portfolio.allBlogs p' = Some d
        /\ Portfolio.requests p'
           = Portfolio.requests p ++ [Portfolio.blogsDataPath]
        /\ Portfolio.timers p' = Portfolio.timers p)
  /\ (forall d : json blog,
        json_truthy d = true ->
        BlogsListSpec.zero_length d = false ->
        BlogsListSpec.is_array d = false ->
        let p' := Portfolio.loadBlogs (Response true (Some d)) p in
        Props.blogs_view p' = [Portfolio.BlogsError Portfolio.CallLoadBlogs]
        /\ Portfolio.allBlogs p' = Some d
        /\ Portfolio.requests p'
           = Portfolio.requests p ++ [Portfolio.blogsDataPath]
        /\ Portfolio.timers p' = Portfolio.timers p).
Proof.
  intros Hb.
  pose proof (loadBlogs_begin_eq p bch Hb) as Hbegin.
  split; [|split].
  - intros o Ho. cbv zeta. unfold Portfolio.loadBlogs. rewrite Hbegin.
    assert (E : Portfolio.loadBlogs_settle o
                  (Portfolio.set_requests
                     (Portfolio.requests p ++ [Portfolio.blogsDataPath])
                     (Portfolio.set_nextId (S (Portfolio.nextId p))
                        (Portfolio.set_blogsGrid
                           (Some [{| Portfolio.eid := Portfolio.nextId p;
                                     Portfolio.widget_of := Portfolio.BlogsLoading |}])
                           p)))
                = Portfolio.showBlogError
                    (Portfolio.set_requests
                       (Portfolio.requests p ++ [Portfolio.blogsDataPath])
                       (Portfolio.set_nextId (S (Portfolio.nextId p))
                          (Portfolio.set_blogsGrid
                             (Some [{| Portfolio.eid := Portfolio.nextId p;
                                       Portfolio.widget_of := Portfolio.BlogsLoading |}])
                             p)))).
    { destruct o as [|[] [[]|]]; try discriminate Ho; reflexivity. }
    rewrite E. repeat split; reflexivity.
  - intros d Hnull Hd. cbv zeta. unfold Portfolio.loadBlogs. rewrite Hbegin.
    destruct d as [|b|n|s|bs|ms]; try contradiction.
    + destruct Hd as [Hd|Hd]; [|discriminate]. simpl in Hd. subst b.
      repeat split; reflexivity.
    + destruct Hd as [Hd|Hd]; [|discriminate]. simpl in Hd.
      apply negb_false_iff, Z.eqb_eq in Hd. subst n.
      repeat split; reflexivity.
    + destruct Hd as [Hd|Hd]; [|discriminate]. simpl in Hd.
      apply negb_false_iff, String.eqb_eq in Hd. subst s.
      repeat split; reflexivity.
    + destruct Hd as [Hd|Hd]; [discriminate|].
      destruct bs; [|discriminate]. repeat split; reflexivity.
    + destruct Hd as [Hd|Hd]; [discriminate|].
      unfold Portfolio.loadBlogs_settle, Portfolio.displayBlogs.
      cbn [Portfolio.blogsGrid Portfolio.set_allBlogs Portfolio.set_requests
           Portfolio.set_nextId Portfolio.set_blogsGrid json_truthy negb orb].
      simpl in Hd.
      destruct (member "length" ms) as [[| |[]| | |]|]; try discriminate Hd.
      repeat split; reflexivity.
  - intros d Ht Hz Ha. cbv zeta. unfold Portfolio.loadBlogs. rewrite Hbegin.
    destruct d as [|b|n|s|bs|ms]; try discriminate.
    + simpl in Ht. subst b. repeat split; reflexivity.
    + unfold Portfolio.loadBlogs_settle, Portfolio.displayBlogs.
      cbn [Portfolio.blogsGrid Portfolio.set_allBlogs Portfolio.set_requests
           Portfolio.set_nextId Portfolio.set_blogsGrid].
      rewrite Ht. repeat split; reflexivity.
    + unfold Portfolio.loadBlogs_settle, Portfolio.displayBlogs.
      cbn [Portfolio.blogsGrid Portfolio.set_allBlogs Portfolio.set_requests
           Portfolio.set_nextId Portfolio.set_blogsGrid].
      rewrite Ht. repeat split; reflexivity.
    + unfold Portfolio.loadBlogs_settle, Portfolio.displayBlogs.
      cbn [Portfolio.blogsGrid Portfolio.set_allBlogs Portfolio.set_requests
           Portfolio.set_nextId Portfolio.set_blogsGrid json_truthy negb orb].
      simpl in Hz. rewrite Hz. repeat split; reflexivity.
Qed.

Lemma X22_witness :
  Props.blogs_view
    (Portfolio.loadBlogs (Response true (Some (JStr "none"))) Props.blank_page)
  = [Portfolio.BlogsError Portfolio.CallLoadBlogs].
Proof.
  destruct (X22_loadBlogs_outcomes Props.blank_page [] eq_refl)
    as (_ & _ & H).
  apply (H (JStr "none")); reflexivity.
Defined.

(* ================================================================== *)
(** * js/script.js: the simulated submission *)
(* ================================================================== *)

Section SimulatedFacts.
Import JS ContactForm.

Lemma reset_defaults (f : form) :
  forall e, In e (named (reset f)) ->
    el_in_form e = true -> el_value e = el_default e.
Proof.
  intros e He Hin. unfold reset in He. simpl in He.
  apply List.in_map_iff in He as (x & <- & _).
  destruct (el_in_form x) eqn:Ex; [reflexivity|]. congruence.
Qed.

End SimulatedFacts.

(** X23: the contact form of [js/script.js] never sends anything.  Its
    submit handler posts nothing whatever the form holds.  For values that
    pass validation it disables the button with the text "Sending..." and
    sets one timer of 2000 ms; when that timer fires, the button is
    enabled again, a success message is added after the messages already
    shown, with a timer of 5000 ms for its removal, and every control of
    the form is back at its default value, still without a request. *)
Theorem X23_simulated_submission_posts_nothing
    (f : ContactForm.form) (b : ContactForm.submit_button) :
  ContactForm.submitButton f = Some b ->
  fst (ContactForm.validateContactForm (ContactForm.formData f) f) = true ->
  (forall g, ContactForm.posted (ScriptJs.handleContactFormSubmit g)
             = ContactForm.posted g)
  /\ (let f1 := ScriptJs.handleContactFormSubmit f in
      ContactForm.submitButton f1 = Some Props.sending_button
      /\ ContactForm.pending f1
         = ContactForm.pending f ++ [(2000, ContactForm.FinishSimulated)]
      /\ ContactForm.banners f1 = ContactForm.banners f
      /\ ContactForm.fieldErrors f1 = ContactForm.fieldErrors f
      /\ ContactForm.named f1 = ContactForm.named f)
  /\ (forall g b',
        ContactForm.submitButton g = Some b' ->
        let g' := ScriptJs.finishSimulated g in
        ContactForm.posted g' = ContactForm.posted g
        /\ ContactForm.submitButton g' = Some Props.restored_button
        /\ ContactForm.banners g'
           = ContactForm.banners g
               ++ [(ContactForm.nextBanner g, ContactForm.FormSuccess)]
        /\ ContactForm.pending g'
           = ContactForm.pending g
               ++ [(5000, ContactForm.RemoveBanner (ContactForm.nextBanner g))]
        /\ List.map ContactForm.el_name (ContactForm.named g')
           = List.map ContactForm.el_name (ContactForm.named g)
        /\ forall e, In e (ContactForm.named g') ->
             ContactForm.el_in_form e = true ->
             ContactForm.el_value e = ContactForm.el_default e).
Proof.
  intros Hb Hvalid. split; [|split].
  - intros g. unfold ScriptJs.handleContactFormSubmit.
    pose proof (validateContactForm_spec (ContactForm.formData g) g) as H.
    cbv zeta in H.
    destruct (ContactForm.validateContactForm (ContactForm.formData g) g)
      as [isValid g1].
    simpl in H. destruct H as (_ & Hp & _).
    destruct isValid; simpl; [|exact Hp].
    destruct (showFormLoading_frame true g1) as (_ & _ & _ & _ & _ & _ & E).
    rewrite E. exact Hp.
  - cbv zeta. unfold ScriptJs.handleContactFormSubmit.
    rewrite (validate_unchanged _ _ Hvalid). simpl negb. cbv iota.
    unfold ContactForm.showFormLoading. rewrite Hb. simpl.
    repeat split; reflexivity.
  - intros g b' Hg. cbv zeta. unfold ScriptJs.finishSimulated.
    split; [|split; [|split; [|split; [|split]]]].
    + unfold ContactForm.showFormLoading. rewrite Hg. reflexivity.
    + unfold ContactForm.showFormLoading. rewrite Hg. reflexivity.
    + unfold ContactForm.showFormLoading. rewrite Hg. reflexivity.
    + unfold ContactForm.showFormLoading. rewrite Hg. reflexivity.
    + unfold ContactForm.showFormLoading. rewrite Hg.
      unfold ContactForm.reset. simpl. rewrite List.map_map.
      apply List.map_ext. intros e. destruct (ContactForm.el_in_form e);
        reflexivity.
    + apply reset_defaults.
Qed.

Lemma X23_witness :
  ContactForm.pending (ScriptJs.handleContactFormSubmit (Props.filled_form "Hello"))
  = [(2000, ContactForm.FinishSimulated)].
Proof.
  destruct (X23_simulated_submission_posts_nothing
              (Props.filled_form "Hello") Props.restored_button
              eq_refl eq_refl) as (_ & (_ & H & _) & _).
  exact H.
Defined.

(* ================================================================== *)
(** * Projects grid: expanding and contracting again *)
(* ================================================================== *)

Section TimerFacts.
Import JS Portfolio Props GridSpec.

Lemma pop_earliest_none (ts : list (Z * task)) :
  pop_earliest ts = None -> ts = [].
Proof.
  destruct ts as [|a ts]; [reflexivity|]. simpl.
  destruct (pop_earliest ts) as [[y r']|]; [|discriminate].
  destruct (fst y <? fst a); discriminate.
Qed.

Lemma pop_earliest_perm (ts : list (Z * task)) :
  forall x r, pop_earliest ts = Some (x, r) -> Permutation ts (x :: r).
Proof.
  induction ts as [|a ts IH]; intros x r H; [discriminate|].
  simpl in H. destruct (pop_earliest ts) as [[y r']|] eqn:E.
  - specialize (IH y r' eq_refl).
    destruct (fst y <? fst a); inversion H; subst; clear H.
    + rewrite IH. apply perm_swap.
    + reflexivity.
  - inversion H; subst. rewrite (pop_earliest_none ts E). reflexivity.
Qed.

Lemma tick_idle (q : page) : timers q = [] -> tick q = q.
Proof. intros H. unfold tick. rewrite H. reflexivity. Qed.

Lemma ticks_idle (k : nat) (q : page) :
  timers q = [] -> run (repeat Tick k) q = q.
Proof.
  intros H. induction k as [|k IH]; [reflexivity|].
  simpl. rewrite (tick_idle q H). exact IH.
Qed.

Lemma run_app (a b : list event) (q : page) :
  run (a ++ b) q = run b (run a q).
Proof. unfold run. apply fold_left_app. Qed.

Lemma pending_cards_perm (a b : list (Z * task)) :
  Permutation a b -> Permutation (pending_cards a) (pending_cards b).
Proof. intros H. unfold pending_cards. apply Permutation_flat_map, H. Qed.

Lemma restores_perm (a b : list (Z * task)) :
  Permutation a b -> restores a = restores b.
Proof.
  intros H. unfold restores. apply Permutation_length.
  induction H; simpl.
  - constructor.
  - destruct (match snd x with RestoreViewMore _ => true | _ => false end);
      [constructor|]; assumption.
  - destruct (match snd x with RestoreViewMore _ => true | _ => false end),
             (match snd y with RestoreViewMore _ => true | _ => false end);
      try reflexivity. apply perm_swap.
  - etransitivity; eassumption.
Qed.

Lemma work_perm (a b : list (Z * task)) : Permutation a b -> work a = work b.
Proof.
  intros H. unfold work. induction H; simpl; lia.
Qed.

Lemma existsb_perm (f : nat -> bool) (a b : list nat) :
  Permutation a b -> List.existsb f a = List.existsb f b.
Proof.
  intros H. induction H; simpl.
  - reflexivity.
  - rewrite IHPermutation. reflexivity.
  - destruct (f x), (f y); reflexivity.
  - congruence.
Qed.

Lemma is_pending_perm (a b : list (Z * task)) (e : element) :
  Permutation a b -> is_pending a e = is_pending b e.
Proof.
  intros H. unfold is_pending. apply existsb_perm, pending_cards_perm, H.
Qed.

Lemma filter_pending_perm (a b : list (Z * task)) (es : list element) :
  Permutation a b ->
  List.filter (is_pending a) es = List.filter (is_pending b) es.
Proof.
  intros H. apply List.filter_ext. intros e. apply is_pending_perm, H.
Qed.

Lemma pending_cards_app (a b : list (Z * task)) :
  pending_cards (a ++ b) = pending_cards a ++ pending_cards b.
Proof. unfold pending_cards. apply flat_map_app. Qed.

Lemma restores_app (a b : list (Z * task)) :
  restores (a ++ b) = (restores a + restores b)%nat.
Proof. unfold restores. rewrite List.filter_app, length_app. reflexivity. Qed.

Lemma work_app (a b : list (Z * task)) :
  work (a ++ b) = (work a + work b)%nat.
Proof.
  unfold work. induction a as [|x a IH]; simpl; [reflexivity|]. lia.
Qed.

Lemma work_nil (ts : list (Z * task)) : work ts = 0%nat -> ts = [].
Proof.
  destruct ts as [|t ts]; [reflexivity|]. unfold work, weight. simpl.
  destruct (snd t); lia.
Qed.

(** [scheduleFades] sets one timer for each card, in order. *)
Lemma scheduleFades_eq (cs : list element) :
  forall index q,
    scheduleFades cs index q
    = set_timers (timers q ++ fades cs index (clock q)) q.
Proof.
  induction cs as [|c cs IH]; intros index q; simpl.
  - rewrite app_nil_r. destruct q; reflexivity.
  - rewrite IH. unfold setTimeout. simpl. rewrite <- app_assoc. reflexivity.
Qed.

Lemma fades_pending (cs : list element) :
  forall index clock,
    pending_cards (fades cs index clock) = List.map eid cs
    /\ restores (fades cs index clock) = 0%nat
    /\ work (fades cs index clock) = (2 * length cs)%nat
    /\ forall s, List.Forall (contract_task s) (fades cs index clock).
Proof.
  induction cs as [|c cs IH]; intros index clock; simpl.
  - repeat split. constructor.
  - destruct (IH (index + 1) clock) as (Hp & Hr & Hw & Hf).
    repeat split.
    + unfold pending_cards in *. simpl. rewrite Hp. reflexivity.
    + exact Hr.
    + unfold work in *. simpl. rewrite Hw. unfold weight. simpl. lia.
    + intros s. constructor; [exact I | apply Hf].
Qed.

End TimerFacts.

Section Contraction.
Import JS Portfolio Props GridSpec.

Variables (l : loc) (ps : list project) (bg : option (list element)).
Variables (initial further : list element) (lo s : nat).
Hypothesis Hinitial : forall e, In e initial -> (eid e < lo)%nat.
Hypothesis Hfurther : forall e, In e further -> (lo <= eid e < s)%nat.
Hypothesis Hbg : forall ch e, bg = Some ch -> In e ch -> (eid e < lo)%nat.
Hypothesis Hlo : (lo <= s)%nat.

Lemma remove_from_other (c : nat) (es : list element) :
  (forall e, In e es -> eid e <> c) -> remove_from c es = es.
Proof.
  intros H. unfold remove_from. induction es as [|e es IH]; [reflexivity|].
  simpl. destruct (Nat.eqb_spec (eid e) c) as [Heq|_].
  - exfalso. apply (H e); [left; reflexivity | exact Heq].
  - simpl. f_equal. apply IH. intros e' He'. apply H. right. exact He'.
Qed.

Lemma remove_from_app (c : nat) (a b : list element) :
  remove_from c (a ++ b) = remove_from c a ++ remove_from c b.
Proof. unfold remove_from. apply List.filter_app. Qed.

Lemma remove_from_filter (c : nat) (P P' : element -> bool)
    (es : list element) :
  (forall e, In e es -> P e = Nat.eqb (eid e) c || P' e) ->
  (forall e, In e es -> eid e = c -> P' e = false) ->
  remove_from c (List.filter P es) = List.filter P' es.
Proof.
  intros HP Hc. induction es as [|e es IH]; [reflexivity|].
  assert (IH' : remove_from c (List.filter P es) = List.filter P' es).
  { apply IH; intros e' He'; [apply HP | apply Hc]; right; exact He'. }
  simpl. rewrite (HP e (or_introl eq_refl)).
  destruct (Nat.eqb_spec (eid e) c) as [Heq|Hne]; simpl.
  - rewrite (Hc e (or_introl eq_refl) Heq).
    destruct (Nat.eqb_spec (eid e) c); [|contradiction]. simpl. exact IH'.
  - destruct (P' e); [|exact IH']. simpl.
    destruct (Nat.eqb_spec (eid e) c); [contradiction|]. simpl.
    f_equal. exact IH'.
Qed.

Lemma blogs_untouched (c : nat) :
  (lo <= c)%nat -> option_map (remove_from c) bg = bg.
Proof.
  intros Hc. destruct bg as [ch|] eqn:E; [|reflexivity]. simpl. f_equal.
  apply remove_from_other. intros e He.
  pose proof (Hbg ch e eq_refl He). lia.
Qed.

(** One timer of a contracting grid fires. *)
Lemma tick_contracting (q : page) :
  contracting l ps bg initial further s q ->
  timers q <> [] ->
  contracting l ps bg initial further s (tick q)
  /\ (work (timers (tick q)) + 1 = work (timers q))%nat.
Proof.
  intros (Ha & Hh & Hb & Hn & Hnd & Hincl & Hall & control & Hg & Hc) Hne.
  unfold tick.
  destruct (pop_earliest (timers q)) as [[[due t] r]|] eqn:E;
    [|apply pop_earliest_none in E; contradiction].
  pose proof (pop_earliest_perm _ _ _ E) as Hperm.
  pose proof (pending_cards_perm _ _ Hperm) as Hpp.
  pose proof (restores_perm _ _ Hperm) as Hrs.
  pose proof (work_perm _ _ Hperm) as Hw.
  pose proof (Permutation_Forall Hperm Hall) as Hall'.
  apply List.Forall_cons_iff in Hall' as [Ht Hr].
  pose proof (Permutation_NoDup Hpp Hnd) as Hnd'.
  assert (Hincl' : List.incl (pending_cards ((due, t) :: r))
                     (List.map eid further)).
  { intros c Hc'. apply Hincl. eapply Permutation_in; [|exact Hc'].
    symmetry. exact Hpp. }
  rewrite (filter_pending_perm _ _ further Hperm) in Hg.
  rewrite Hrs in Hc. rewrite Hw.
  clear Hperm Hpp Hrs Hw Hall Hnd Hincl E Hne.
  unfold contract_task in Ht. simpl in Ht.
  destruct t as [c|  |c|c|c|v| ]; try contradiction.
  - (* the fade of a card sets the timer of its removal *)
    cbn [fire]. unfold setTimeout.
    cbn [timers clock set_timers set_clock allProjects heap blogsGrid nextId
         projectsGrid].
    set (ts := r ++ [(Z.max (clock q) due + 400, RemoveCard c)]).
    assert (Hpp : Permutation (pending_cards ts)
                    (pending_cards ((due, FadeCard c) :: r))).
    { unfold ts. rewrite pending_cards_app. simpl.
      apply Permutation_app_comm. }
    assert (Hfil : List.filter (is_pending ts) further
                   = List.filter (is_pending ((due, FadeCard c) :: r)) further).
    { apply List.filter_ext. intros e. unfold is_pending.
      apply existsb_perm, Hpp. }
    assert (Hrs : restores ts = restores ((due, FadeCard c) :: r)).
    { unfold ts. rewrite restores_app. unfold restores. simpl. lia. }
    split.
    + unfold contracting.
      cbn [timers clock set_timers set_clock allProjects heap blogsGrid nextId
           projectsGrid].
      fold ts. rewrite Hfil, Hrs.
      split; [exact Ha|]. split; [exact Hh|]. split; [exact Hb|].
      split; [exact Hn|]. split; [|split; [|split]].
      * symmetry in Hpp. exact (Permutation_NoDup Hpp Hnd').
      * intros x Hx. apply Hincl'. eapply Permutation_in; [exact Hpp|exact Hx].
      * unfold ts. apply List.Forall_app. split; [exact Hr|].
        constructor; [exact I | constructor].
      * exists control. split; assumption.
    + fold ts. unfold ts. rewrite work_app. unfold work, weight. simpl. lia.
  - (* a card is removed *)
    cbn [fire]. unfold remove_element.
    cbn [timers clock set_timers set_clock allProjects heap blogsGrid nextId
         projectsGrid set_blogsGrid set_projectsGrid].
    assert (Hcin : In c (List.map eid further)).
    { apply Hincl'. left. reflexivity. }
    apply List.in_map_iff in Hcin as (ec & Hec & Hecin).
    pose proof (Hfurther ec Hecin) as Hrange. rewrite Hec in Hrange.
    change (pending_cards ((due, RemoveCard c) :: r))
      with (c :: pending_cards r) in Hnd', Hincl'.
    apply List.NoDup_cons_iff in Hnd' as [Hfresh Hnd'].
    split.
    + unfold contracting.
      cbn [timers clock set_timers set_clock allProjects heap blogsGrid nextId
           projectsGrid set_blogsGrid set_projectsGrid].
      split; [exact Ha|]. split; [exact Hh|].
      split; [rewrite Hb; apply blogs_untouched; lia|].
      split; [exact Hn|]. split; [exact Hnd'|].
      split; [intros x Hx; apply Hincl'; right; exact Hx|].
      split; [exact Hr|].
      exists control. split.
      * rewrite Hg. cbn [option_map]. f_equal.
        rewrite !remove_from_app.
        rewrite (remove_from_other c initial)
          by (intros e He; pose proof (Hinitial e He); lia).
        rewrite (remove_from_other c [control]).
        2:{ intros e [<-|[]].
            destruct Hc as [[_ ->] | (_ & Hs & _)]; simpl; lia. }
        f_equal. f_equal.
        apply remove_from_filter.
        -- intros e _. reflexivity.
        -- intros e _ He. unfold is_pending. rewrite He.
           destruct (List.existsb (Nat.eqb c) (pending_cards r)) eqn:Ex;
             [|reflexivity].
           apply List.existsb_exists in Ex as (x & Hx & Hxc).
           apply Nat.eqb_eq in Hxc. subst x. contradiction.
      * exact Hc.
    + unfold work, weight. simpl. lia.
  - (* the button swap *)
    subst c.
    assert (Hctl : control = {| eid := s; widget_of := showLessButton |}
                   /\ restores r = 0%nat).
    { destruct Hc as [[H1 H2] | [H1 _]].
      - split; [exact H2|]. unfold restores in *. simpl in H1. lia.
      - unfold restores in H1. simpl in H1. discriminate. }
    destruct Hctl as [-> Hr0]. clear Hc.
    change (pending_cards ((due, RestoreViewMore s) :: r))
      with (pending_cards r) in Hnd', Hincl'.
    change (is_pending ((due, RestoreViewMore s) :: r))
      with (is_pending r) in Hg.
    cbn [fire]. unfold restoreViewMore, remove_element.
    cbn [timers clock set_timers set_clock allProjects heap blogsGrid nextId
         projectsGrid set_blogsGrid set_projectsGrid].
    rewrite Ha, Hh. unfold appendToProjects.
    cbn [timers clock set_timers set_clock allProjects heap blogsGrid nextId
         projectsGrid set_blogsGrid set_projectsGrid set_nextId].
    rewrite Hg. cbn [option_map].
    split.
    + unfold contracting.
      cbn [timers clock set_timers set_clock allProjects heap blogsGrid nextId
           projectsGrid set_blogsGrid set_projectsGrid set_nextId].
      split; [exact Ha|]. split; [exact Hh|].
      split; [rewrite Hb; apply blogs_untouched; exact Hlo|].
      split; [lia|]. split; [exact Hnd'|]. split; [exact Hincl'|].
      split; [exact Hr|].
      eexists. split.
      * f_equal. rewrite !remove_from_app.
        rewrite (remove_from_other s initial).
        2:{ intros e He. pose proof (Hinitial e He). lia. }
        rewrite (remove_from_other s (List.filter (is_pending r) further)).
        2:{ intros e He. apply List.filter_In in He as [He _].
            pose proof (Hfurther e He). lia. }
        unfold remove_from at 1. simpl. rewrite Nat.eqb_refl. simpl.
        rewrite app_nil_r, <- !app_assoc. reflexivity.
      * right. simpl. split; [exact Hr0|]. split; [lia | reflexivity].
    + unfold work, weight. simpl. lia.
Qed.

(** Once every timer has fired, the grid shows the three initial cards
    and the "View More" control again. *)
Lemma ticks_contracting (k : nat) :
  forall q,
    contracting l ps bg initial further s q ->
    (work (timers q) <= k)%nat ->
    contracting l ps bg initial further s (run (repeat Tick k) q)
    /\ timers (run (repeat Tick k) q) = [].
Proof.
  induction k as [|k IH]; intros q Hq Hk.
  - simpl. split; [exact Hq|]. apply work_nil. lia.
  - destruct (timers q) as [|t ts] eqn:E.
    + rewrite (ticks_idle _ q E). split; [exact Hq | exact E].
    + destruct (tick_contracting q Hq) as [Hq' Hw]; [rewrite E; discriminate|].
      simpl. apply IH; [exact Hq'|]. rewrite <- E in Hk. lia.
Qed.

Lemma contracted_view (q : page) :
  contracting l ps bg initial further s q ->
  timers q = [] ->
  projects_view q
  = List.map widget_of initial
      ++ [viewMoreButton (Z.of_nat (length ps) - 3)]
  /\ blogsGrid q = bg.
Proof.
  intros (_ & _ & Hb & _ & _ & _ & _ & control & Hg & Hc) Ht.
  rewrite Ht in Hg, Hc. split; [|exact Hb].
  destruct Hc as [[Hc _] | (_ & _ & Hw)]; [discriminate|].
  unfold projects_view. rewrite Hg.
  assert (E : List.filter (is_pending []) further = []).
  { clear. induction further as [|e es IH]; [reflexivity | exact IH]. }
  rewrite E, List.map_app. simpl. rewrite Hw. reflexivity.
Qed.


Lemma find_skip (f : element -> bool) (a b : list element) :
  (forall e, In e a -> f e = false) ->
  List.find f (a ++ b) = List.find f b.
Proof.
  intros H. induction a as [|x a IH]; [reflexivity|]. simpl.
  rewrite (H x (or_introl eq_refl)). apply IH.
  intros e He. apply H. right. exact He.
Qed.

Lemma filter_all (f : element -> bool) (a : list element) :
  (forall e, In e a -> f e = true) -> List.filter f a = a.
Proof.
  intros H. induction a as [|x a IH]; [reflexivity|]. simpl.
  rewrite (H x (or_introl eq_refl)). f_equal. apply IH.
  intros e He. apply H. right. exact He.
Qed.

(** The control that the selector finds in a grid whose only view-more
    container is its last child. *)
Lemma query_last_control (q : page) (cards : list element) (b : element) :
  projects_control_first q ->
  projectsGrid q = Some (cards ++ [b]) ->
  (forall e, In e cards -> is_project_card e = true) ->
  is_view_more b = true ->
  query_view_more q = Some b.
Proof.
  intros Hfirst Hg Hcards Hb. unfold query_view_more, grid_elements.
  rewrite Hg.
  assert (Hskip : forall e, In e cards -> is_view_more e = false).
  { intros e He. specialize (Hcards e He).
    unfold is_project_card in Hcards. unfold is_view_more.
    destruct (widget_of e); try discriminate. reflexivity. }
  assert (Hpg : forall rest,
            List.find is_view_more ((cards ++ [b]) ++ rest) = Some b).
  { intros rest. rewrite <- app_assoc, (find_skip _ _ _ Hskip). simpl.
    rewrite Hb. reflexivity. }
  destruct Hfirst as [-> | Hno]; [apply Hpg|].
  destruct (blogsGridFirst q); [|apply Hpg].
  destruct (blogsGrid q) as [ch|] eqn:E.
  - rewrite find_skip.
    + rewrite <- (app_nil_r (cards ++ [b])). apply Hpg.
    + intros e He. specialize (Hno ch eq_refl).
      rewrite List.Forall_forall in Hno. apply Hno, He.
  - simpl. rewrite <- (app_nil_r (cards ++ [b])). apply Hpg.
Qed.

Hypothesis Hcards :
  forall e, In e (initial ++ further) -> is_project_card e = true.
Hypothesis Hthree : length initial = 3%nat.
Hypothesis Hnodup : List.NoDup (List.map eid further).

(** A click on "Show Less" in the expanded grid. *)
Lemma contract_starts (q : page) :
  allProjects q = Some l ->
  heap q !! l = Some ps ->
  blogsGrid q = bg ->
  (s < nextId q)%nat ->
  timers q = [] ->
  projects_control_first q ->
  projectsGrid q
  = Some (initial ++ further ++ [{| eid := s; widget_of := showLessButton |}]) ->
  further <> [] ->
  step q Toggle = contractProjectsView q
  /\ contracting l ps bg initial further s (contractProjectsView q)
  /\ work (timers (contractProjectsView q)) = (2 * length further + 1)%nat.
Proof.
  intros Ha Hh Hb Hn Ht Hfirst Hg Hne.
  set (b := {| eid := s; widget_of := showLessButton |}) in *.
  assert (Hpc : project_cards (initial ++ further ++ [b]) = initial ++ further).
  { unfold project_cards. rewrite app_assoc, List.filter_app. simpl.
    rewrite app_nil_r. apply filter_all, Hcards. }
  assert (Hq : query_view_more q = Some b).
  { apply (query_last_control q (initial ++ further) b Hfirst);
      [rewrite <- app_assoc; exact Hg | exact Hcards | reflexivity]. }
  assert (Hdrop : drop 3 (initial ++ further) = further).
  { rewrite <- Hthree. apply drop_app_length. }
  split; [|split].
  - simpl. unfold toggleProjectsView. rewrite Hg, Hpc.
    rewrite length_app, Hthree.
    destruct (Z.ltb_spec 3 (Z.of_nat (3 + length further))) as [_|Hle];
      [reflexivity|].
    destruct further; [contradiction | simpl in Hle; lia].
  - unfold contractProjectsView. rewrite Ha, Hg, Hq, Hpc, Hdrop.
    rewrite scheduleFades_eq, Ht. unfold setTimeout.
    cbn [timers clock set_timers set_clock allProjects heap blogsGrid nextId
         projectsGrid app].
    destruct (fades_pending further 0 (clock q)) as (Hp & Hr & Hw & Hf).
    set (ts := fades further 0 (clock q) ++ _).
    assert (Hpts : pending_cards ts = List.map eid further).
    { unfold ts. rewrite pending_cards_app, Hp. apply app_nil_r. }
    unfold contracting.
    cbn [timers clock set_timers set_clock allProjects heap blogsGrid nextId
         projectsGrid].
    split; [exact Ha|]. split; [exact Hh|]. split; [exact Hb|].
    split; [exact Hn|]. rewrite Hpts.
    split; [exact Hnodup|]. split; [apply List.incl_refl|].
    split.
    { unfold ts. apply List.Forall_app. split; [apply Hf|].
      constructor; [reflexivity | constructor]. }
    exists b. split.
    + rewrite Hg. f_equal. f_equal. f_equal. symmetry.
      apply filter_all. intros e He. unfold is_pending. rewrite Hpts.
      apply List.existsb_exists. exists (eid e).
      split; [apply List.in_map, He | apply Nat.eqb_refl].
    + left. split; [|reflexivity]. unfold ts. rewrite restores_app, Hr.
      reflexivity.
  - unfold contractProjectsView. rewrite Ha, Hg, Hq, Hpc, Hdrop.
    rewrite scheduleFades_eq, Ht. unfold setTimeout.
    cbn [timers clock set_timers set_clock app].
    destruct (fades_pending further 0 (clock q)) as (_ & _ & Hw & _).
    rewrite work_app, Hw. unfold work, weight. simpl. lia.
Qed.

End Contraction.

Section Expansion.
Import JS Portfolio Props GridSpec.

Lemma update_widget_other (c : nat) (f : widget -> widget) (es : list element) :
  (forall e, In e es -> eid e <> c) -> update_widget c f es = es.
Proof.
  intros H. unfold update_widget. induction es as [|e es IH]; [reflexivity|].
  simpl. destruct (Nat.eqb_spec (eid e) c) as [Heq|_].
  - exfalso. apply (H e); [left; reflexivity | exact Heq].
  - f_equal. apply IH. intros e' He'. apply H. right. exact He'.
Qed.

Lemma update_widget_app (c : nat) (f : widget -> widget) (a b : list element) :
  update_widget c f (a ++ b) = update_widget c f a ++ update_widget c f b.
Proof. unfold update_widget. apply List.map_app. Qed.

(** The expanded grid: a click on "View More" and the two timers that
    follow it. *)
Lemma expanded (q : page) (l : loc) (ps : list project)
    (cards : list element) (b : element) :
  allProjects q = Some l ->
  heap q !! l = Some ps ->
  projectsGrid q = Some (cards ++ [b]) ->
  timers q = [] ->
  query_view_more q = Some b ->
  (forall e, In e cards -> eid e <> eid b) ->
  (forall ch e, blogsGrid q = Some ch -> In e ch -> eid e <> eid b) ->
  let q' := tick (tick (expandProjectsView q)) in
  let s := (nextId q + length (drop 3 ps))%nat in
  projectsGrid q'
  = Some (cards ++ card_elements (nextId q) (drop 3 ps) 3
            ++ [{| eid := s; widget_of := showLessButton |}])
  /\ timers q' = []
  /\ nextId q' = S s
  /\ blogsGrid q' = blogsGrid q
  /\ blogsGridFirst q' = blogsGridFirst q
  /\ allProjects q' = Some l
  /\ heap q' = heap q.
Proof.
  intros Ha Hh Hg Ht Hq Hcards Hblogs. cbv zeta.
  assert (Hbl : forall f, option_map (remove_from (eid b))
                            (option_map (update_widget (eid b) f) (blogsGrid q))
                          = blogsGrid q).
  { intros f. destruct (blogsGrid q) as [ch|] eqn:E; [|reflexivity]. simpl.
    rewrite update_widget_other by (intros e He; exact (Hblogs ch e eq_refl He)).
    rewrite remove_from_other by (intros e He; exact (Hblogs ch e eq_refl He)).
    reflexivity. }
  assert (Hpg : remove_from (eid b)
                  (update_widget (eid b) loadingState (cards ++ [b]))
                = cards).
  { rewrite update_widget_app, remove_from_app.
    rewrite update_widget_other by exact Hcards.
    rewrite remove_from_other by exact Hcards.
    unfold update_widget, remove_from. simpl. rewrite Nat.eqb_refl. simpl.
    rewrite Nat.eqb_refl. simpl. apply app_nil_r. }
  assert (E1 : exists q0,
            tick (expandProjectsView q)
            = setTimeout AddShowLess
                (Z.of_nat (length (drop 3 ps)) * 100 + 200)
                (appendCards (drop 3 ps) 3 q0)
            /\ projectsGrid q0 = Some cards
            /\ timers q0 = []
            /\ nextId q0 = nextId q
            /\ blogsGrid q0 = blogsGrid q
            /\ blogsGridFirst q0 = blogsGridFirst q
            /\ allProjects q0 = allProjects q
            /\ heap q0 = heap q).
  { unfold expandProjectsView. rewrite Ha, Hq.
    unfold tick, setTimeout, update_element.
    cbn [timers clock set_timers set_clock allProjects heap blogsGrid nextId
         projectsGrid set_blogsGrid set_projectsGrid set_nextId blogsGridFirst].
    rewrite Ht. cbn [app pop_earliest].
    cbn [fire]. unfold expandBody, remove_element.
    cbn [timers clock set_timers set_clock allProjects heap blogsGrid nextId
         projectsGrid set_blogsGrid set_projectsGrid set_nextId blogsGridFirst].
    rewrite Ha, Hh, Hg, Hbl. cbn [option_map]. rewrite Hpg.
    eexists. split.
    { destruct (drop 3 ps); reflexivity. }
    repeat split; first [reflexivity | exact Ha]. }
  destruct E1 as (q0 & -> & Hg0 & Ht0 & Hn0 & Hb0 & Hf0 & Ha0 & Hh0).
  rewrite (appendCards_eq (drop 3 ps) 3 q0 cards Hg0).
  unfold tick, setTimeout.
  cbn [timers clock set_timers set_clock allProjects heap blogsGrid nextId
       projectsGrid set_blogsGrid set_projectsGrid set_nextId blogsGridFirst].
  rewrite Ht0. cbn [app pop_earliest fire]. unfold addShowLess, appendToProjects.
  cbn [timers clock set_timers set_clock allProjects heap blogsGrid nextId
       projectsGrid set_blogsGrid set_projectsGrid set_nextId blogsGridFirst].
  rewrite <- app_assoc, Hn0. repeat split; congruence.
Qed.

End Expansion.

Section RoundTripFacts.
Import JS Portfolio Props GridSpec.

Lemma card_elements_length (ps : list project) :
  forall i from, length (card_elements i ps from) = length ps.
Proof.
  induction ps as [|x ps IH]; intros i from; simpl; [reflexivity|].
  f_equal. apply IH.
Qed.

Lemma card_elements_nodup (ps : list project) :
  forall i from, List.NoDup (List.map eid (card_elements i ps from)).
Proof.
  induction ps as [|x ps IH]; intros i from; simpl; constructor.
  - intros Hin. apply List.in_map_iff in Hin as (e & He & Hin).
    destruct (card_elements_ids _ _ _ _ Hin) as [Hr _]. lia.
  - apply IH.
Qed.

Lemma run_ticks (k : nat) (q : page) :
  run (repeat Tick (S k)) q = run (repeat Tick k) (tick q).
Proof. reflexivity. Qed.

End RoundTripFacts.

(** X14: expanding the projects grid and contracting it again gives the
    initial view back.  For more than three records, with no other timer
    pending and the projects' control the first view-more container of the
    document: after a click on "View More" and its timers the grid shows
    the cards of all records followed by "Show Less"; a click on that
    control contracts the grid, and once the timers of the contraction
    have fired, the grid shows the first three cards and the "View More"
    control with the count again, no timer is pending, and the blogs grid
    is as it was. *)
Theorem X14_expand_then_contract_restores_the_view
    (p : Portfolio.page) (l : Portfolio.loc) (ps : list project)
    (ch : list Portfolio.element) (j k : nat) :
  Portfolio.heap p !! l = Some ps ->
  Portfolio.projectsGrid p = Some ch ->
  Props.fresh_ids p ->
  Portfolio.timers p = [] ->
  GridSpec.projects_control_first p ->
  (3 < length ps)%nat ->
  (2 <= j)%nat ->
  (2 * (length ps - 3) + 1 <= k)%nat ->
  let p1 := Portfolio.displayProjects l p in
  let p2 := Portfolio.run (Portfolio.Toggle :: repeat Portfolio.Tick j) p1 in
  let p3 := Portfolio.run (Portfolio.Toggle :: repeat Portfolio.Tick k) p2 in
  Portfolio.projects_view p2
  = List.map Portfolio.ProjectCard (Portfolio.cards_from ps 0)
      ++ [Portfolio.showLessButton]
  /\ Portfolio.timers p2 = []
  /\ Portfolio.step p2 Portfolio.Toggle = Portfolio.contractProjectsView p2
  /\ Portfolio.projects_view p3 = Portfolio.projects_view p1
  /\ Portfolio.projects_view p3
     = List.map Portfolio.ProjectCard (Portfolio.cards_from (take 3 ps) 0)
         ++ [Portfolio.viewMoreButton (Z.of_nat (length ps) - 3)]
  /\ Portfolio.timers p3 = []
  /\ Portfolio.blogsGrid p3 = Portfolio.blogsGrid p.
Proof.
  intros Hl Hg Hfresh Ht Hfirst Hn Hj Hk p1 p2 p3.
  pose proof (displayProjects_eq l p ps ch Hl Hg) as E. cbv zeta in E.
  fold p1 in E.
  assert (Hb3 : (3 <? Z.of_nat (length ps)) = true) by (apply Z.ltb_lt; lia).
  assert (Hlen3 : length (take 3 ps) = 3%nat) by (rewrite length_take; lia).
  rewrite Hb3, Hlen3 in E.
  set (initial := Props.card_elements (Portfolio.nextId p) (take 3 ps) 0) in *.
  set (b := {| Portfolio.eid := (Portfolio.nextId p + 3)%nat;
               Portfolio.widget_of :=
                 Portfolio.viewMoreButton (Z.of_nat (length ps) - 3) |}) in *.
  assert (H1 : Portfolio.projectsGrid p1 = Some (initial ++ [b])
               /\ Portfolio.heap p1 = Portfolio.heap p
               /\ Portfolio.allProjects p1 = Some l
               /\ Portfolio.timers p1 = []
               /\ Portfolio.blogsGrid p1 = Portfolio.blogsGrid p
               /\ Portfolio.blogsGridFirst p1 = Portfolio.blogsGridFirst p
               /\ Portfolio.nextId p1 = (Portfolio.nextId p + 4)%nat).
  { rewrite E. simpl. repeat split; try assumption; try reflexivity. lia. }
  destruct H1 as (Hg1 & Hh1 & Ha1 & Ht1 & Hb1 & Hf1 & Hn1).
  assert (Hblog : forall ch' e, Portfolio.blogsGrid p = Some ch' -> In e ch' ->
                    (Portfolio.eid e < Portfolio.nextId p)%nat).
  { intros ch' e Hch He. unfold Props.fresh_ids in Hfresh.
    rewrite List.Forall_forall in Hfresh. apply Hfresh.
    unfold Portfolio.grid_elements. rewrite Hch.
    destruct (Portfolio.blogsGridFirst p); apply in_or_app; tauto. }
  assert (Hinit : forall e, In e initial ->
                    (Portfolio.eid e < Portfolio.nextId p + 3)%nat
                    /\ Portfolio.is_project_card e = true).
  { intros e He. split; [|eapply card_elements_are_cards, He].
    destruct (card_elements_ids _ _ _ _ He) as [Hr _]. lia. }
  assert (Hview1 : Portfolio.projects_view p1
                   = List.map Portfolio.ProjectCard
                       (Portfolio.cards_from (take 3 ps) 0)
                       ++ [Portfolio.viewMoreButton (Z.of_nat (length ps) - 3)]).
  { unfold Portfolio.projects_view. rewrite Hg1, List.map_app.
    unfold initial. rewrite card_elements_widgets. reflexivity. }
  (* expanding *)
  assert (Hfirst1 : GridSpec.projects_control_first p1).
  { unfold GridSpec.projects_control_first. rewrite Hf1, Hb1. exact Hfirst. }
  assert (Hq1 : Portfolio.query_view_more p1 = Some b).
  { apply (query_last_control p1 initial b Hfirst1 Hg1);
      [intros e He; apply Hinit, He | reflexivity]. }
  assert (Htoggle : Portfolio.step p1 Portfolio.Toggle
                    = Portfolio.expandProjectsView p1).
  { simpl. unfold Portfolio.toggleProjectsView. rewrite Hg1.
    unfold initial. rewrite project_cards_length.
    - rewrite Hlen3. reflexivity.
    - intros e [<- | []]. reflexivity. }
  rewrite <- Hh1 in Hl.
  pose proof (expanded p1 l ps initial b Ha1 Hl Hg1 Ht1 Hq1) as Hex.
  cbv zeta in Hex.
  destruct Hex as (Hg2 & Ht2 & Hn2 & Hb2 & Hf2 & Ha2 & Hh2).
  { intros e He. destruct (Hinit e He) as [Hr _]. simpl. lia. }
  { intros ch' e Hch He. rewrite Hb1 in Hch.
    pose proof (Hblog ch' e Hch He). simpl. lia. }
  assert (Hp2 : p2 = Portfolio.tick
                       (Portfolio.tick (Portfolio.expandProjectsView p1))).
  { unfold p2. destruct j as [|[|j]]; try lia.
    change (Portfolio.run (Portfolio.Toggle :: repeat Portfolio.Tick (S (S j))) p1)
      with (Portfolio.run (repeat Portfolio.Tick j)
              (Portfolio.tick (Portfolio.tick
                 (Portfolio.step p1 Portfolio.Toggle)))).
    rewrite Htoggle. apply ticks_idle, Ht2. }
  rewrite <- Hp2 in Hg2, Ht2, Hn2, Hb2, Hf2, Ha2, Hh2.
  set (further := Props.card_elements (Portfolio.nextId p1) (drop 3 ps) 3) in *.
  set (s := (Portfolio.nextId p1 + length (drop 3 ps))%nat) in *.
  assert (Hfur : forall e, In e further ->
                   (Portfolio.nextId p1 <= Portfolio.eid e < s)%nat).
  { intros e He. destruct (card_elements_ids _ _ _ _ He) as [Hr _].
    unfold s. lia. }
  assert (Hne : further <> []).
  { unfold further. destruct (drop 3 ps) eqn:Ed; [|discriminate].
    apply (f_equal length) in Ed. rewrite length_drop in Ed. simpl in Ed. lia. }
  assert (Hview2 : Portfolio.projects_view p2
                   = List.map Portfolio.ProjectCard (Portfolio.cards_from ps 0)
                       ++ [Portfolio.showLessButton]).
  { unfold Portfolio.projects_view. rewrite Hg2, !List.map_app.
    unfold initial, further. rewrite !card_elements_widgets.
    rewrite app_assoc, <- List.map_app. simpl.
    rewrite <- (take_drop 3 ps) at 3. rewrite cards_from_app, Hlen3.
    reflexivity. }
  (* contracting *)
  assert (Hfirst2 : GridSpec.projects_control_first p2).
  { unfold GridSpec.projects_control_first. rewrite Hf2, Hb2. exact Hfirst1. }
  rewrite <- Hh2 in Hl.
  destruct (contract_starts l ps (Portfolio.blogsGrid p) initial further
              (Portfolio.nextId p1) s Hfur) with (q := p2)
    as (Hstep & Hinv & Hwork); try assumption.
  { unfold s. lia. }
  { intros e He. apply in_app_or in He as [He|He].
    - apply Hinit, He.
    - eapply card_elements_are_cards, He. }
  { unfold initial. rewrite card_elements_length. exact Hlen3. }
  { apply card_elements_nodup. }
  { congruence. }
  { lia. }
  assert (Hp3 : p3 = Portfolio.run (repeat Portfolio.Tick k)
                       (Portfolio.contractProjectsView p2)).
  { unfold p3. rewrite <- Hstep. reflexivity. }
  destruct (ticks_contracting l ps (Portfolio.blogsGrid p) initial further
              (Portfolio.nextId p1) s) with (k := k)
              (q := Portfolio.contractProjectsView p2)
    as (Hinv3 & Ht3); try assumption.
  { intros e He. destruct (Hinit e He) as [Hr _]. lia. }
  { intros ch' e Hch He. pose proof (Hblog ch' e Hch He). lia. }
  { unfold s. lia. }
  { rewrite Hwork. unfold further. rewrite card_elements_length, length_drop.
    lia. }
  rewrite <- Hp3 in Hinv3, Ht3.
  destruct (contracted_view _ _ _ _ _ _ _ Hinv3 Ht3) as (Hview3 & Hb3').
  assert (Hview3' : Portfolio.projects_view p3
                    = List.map Portfolio.ProjectCard
                        (Portfolio.cards_from (take 3 ps) 0)
                        ++ [Portfolio.viewMoreButton (Z.of_nat (length ps) - 3)]).
  { rewrite Hview3. unfold initial. rewrite card_elements_widgets.
    reflexivity. }
  split; [exact Hview2|]. split; [exact Ht2|]. split; [exact Hstep|].
  split; [rewrite Hview1; exact Hview3'|]. split; [exact Hview3'|].
  split; [exact Ht3 | exact Hb3'].
Qed.

Lemma X14_witness :
  Portfolio.projects_view
    (Portfolio.run (Portfolio.Toggle :: repeat Portfolio.Tick 5)
       (Portfolio.run (Portfolio.Toggle :: repeat Portfolio.Tick 2)
          (Portfolio.displayProjects 0%nat Props.page_with_five)))
  = Portfolio.projects_view
      (Portfolio.displayProjects 0%nat Props.page_with_five).
Proof.
  destruct (X14_expand_then_contract_restores_the_view
              Props.page_with_five 0%nat Props.five_projects [] 2 5)
    as (_ & _ & _ & H & _).
  - apply lookup_insert_eq.
  - reflexivity.
  - constructor.
  - reflexivity.
  - left. reflexivity.
  - simpl. lia.
  - lia.
  - simpl. lia.
  - exact H.
Defined.

(* ================================================================== *)
(** * Blog cards *)
(* ================================================================== *)


(* ================================================================== *)
(** * Projects grid: the container that [expandProjectsView] finds *)
(* ================================================================== *)

Section SelectorFacts.
Import JS Portfolio Props GridSpec.

(** The two grids after a call of [expandProjectsView] and after each of
    its two timers, whatever container the selector found. *)
Lemma expanding (q : page) (l : loc) (ps : list project)
    (pg : list element) (e : element) :
  allProjects q = Some l ->
  heap q !! l = Some ps ->
  projectsGrid q = Some pg ->
  timers q = [] ->
  query_view_more q = Some e ->
  let c := eid e in
  let q1 := expandProjectsView q in
  let q2 := tick q1 in
  let q3 := tick q2 in
  let pg2 := remove_from c (update_widget c loadingState pg)
               ++ card_elements (nextId q) (drop 3 ps) 3 in
  let bg2 := option_map (remove_from c)
               (option_map (update_widget c loadingState) (blogsGrid q)) in
  projectsGrid q1 = Some (update_widget c loadingState pg)
  /\ blogsGrid q1 = option_map (update_widget c loadingState) (blogsGrid q)
  /\ projectsGrid q2 = Some pg2
  /\ blogsGrid q2 = bg2
  /\ projectsGrid q3
     = Some (pg2 ++ [{| eid := (nextId q + length (drop 3 ps))%nat;
                        widget_of := showLessButton |}])
  /\ blogsGrid q3 = bg2
  /\ timers q3 = [].
Proof.
  intros Ha Hh Hg Ht Hq. cbv zeta.
  assert (E1 : expandProjectsView q
               = setTimeout (ExpandBody (eid e)) 500
                   (update_element (eid e) loadingState q)).
  { unfold expandProjectsView. rewrite Ha, Hq. reflexivity. }
  rewrite E1.
  assert (E2 : exists q0,
            tick (setTimeout (ExpandBody (eid e)) 500
                    (update_element (eid e) loadingState q))
            = setTimeout AddShowLess
                (Z.of_nat (length (drop 3 ps)) * 100 + 200)
                (appendCards (drop 3 ps) 3 q0)
            /\ projectsGrid q0
               = Some (remove_from (eid e)
                         (update_widget (eid e) loadingState pg))
            /\ timers q0 = []
            /\ nextId q0 = nextId q
            /\ blogsGrid q0
               = option_map (remove_from (eid e))
                   (option_map (update_widget (eid e) loadingState)
                      (blogsGrid q))).
  { unfold tick, setTimeout, update_element.
    cbn [timers clock set_timers set_clock allProjects heap blogsGrid nextId
         projectsGrid set_blogsGrid set_projectsGrid set_nextId blogsGridFirst].
    rewrite Ht. cbn [app pop_earliest].
    cbn [fire]. unfold expandBody, remove_element.
    cbn [timers clock set_timers set_clock allProjects heap blogsGrid nextId
         projectsGrid set_blogsGrid set_projectsGrid set_nextId blogsGridFirst].
    rewrite Ha, Hh, Hg. cbn [option_map].
    eexists. split.
    { destruct (drop 3 ps); reflexivity. }
    repeat split; reflexivity. }
  destruct E2 as (q0 & -> & Hg0 & Ht0 & Hn0 & Hb0).
  split.
  { unfold setTimeout, update_element. simpl. rewrite Hg. reflexivity. }
  split.
  { reflexivity. }
  rewrite (appendCards_eq (drop 3 ps) 3 q0 _ Hg0).
  unfold tick, setTimeout.
  cbn [timers clock set_timers set_clock allProjects heap blogsGrid nextId
       projectsGrid set_blogsGrid set_projectsGrid set_nextId blogsGridFirst].
  rewrite Ht0. cbn [app pop_earliest fire]. unfold addShowLess, appendToProjects.
  cbn [timers clock set_timers set_clock allProjects heap blogsGrid nextId
       projectsGrid set_blogsGrid set_projectsGrid set_nextId blogsGridFirst].
  rewrite Hn0. repeat split; assumption || reflexivity.
Qed.

Lemma update_widget_unique (f : widget -> widget) (a b : list element)
    (e : element) :
  List.NoDup (List.map eid (a ++ e :: b)) ->
  update_widget (eid e) f (a ++ e :: b)
  = a ++ {| eid := eid e; widget_of := f (widget_of e) |} :: b
  /\ forall w,
       remove_from (eid e) (a ++ {| eid := eid e; widget_of := w |} :: b)
       = a ++ b.
Proof.
  intros Hnd. rewrite List.map_app in Hnd. simpl in Hnd.
  apply List.NoDup_remove in Hnd as [_ Hnot].
  assert (Ha : forall x, In x a -> eid x <> eid e).
  { intros x Hx Heq. apply Hnot. apply in_or_app. left.
    rewrite <- Heq. apply List.in_map, Hx. }
  assert (Hb : forall x, In x b -> eid x <> eid e).
  { intros x Hx Heq. apply Hnot. apply in_or_app. right.
    rewrite <- Heq. apply List.in_map, Hx. }
  split.
  - rewrite update_widget_app. rewrite (update_widget_other _ _ a Ha).
    unfold update_widget at 1. simpl. rewrite Nat.eqb_refl.
    fold (update_widget (eid e) f b).
    rewrite (update_widget_other _ _ b Hb). reflexivity.
  - intros w. rewrite remove_from_app, (remove_from_other _ a Ha).
    unfold remove_from at 1. simpl. rewrite Nat.eqb_refl. simpl.
    fold (remove_from (eid e) b). rewrite (remove_from_other _ b Hb).
    reflexivity.
Qed.

End SelectorFacts.

(** X24: [expandProjectsView] works on the first view-more container of
    the document, whichever grid holds it.  When the blogs grid precedes
    the projects grid and shows a view-more container, a click on "View
    More Projects" puts the control of the blogs grid into the loading
    state and the timer removes it for good, while the projects grid keeps
    its own "View More Projects" control, unchanged, between the first
    three cards and the cards of the further records; the second timer
    then adds "Show Less" at the end. *)
Theorem X24_expand_takes_the_first_container_of_the_document
    (p : Portfolio.page) (l : Portfolio.loc) (ps : list project)
    (ch before after : list Portfolio.element) (e : Portfolio.element) :
  Portfolio.heap p !! l = Some ps ->
  Portfolio.projectsGrid p = Some ch ->
  Portfolio.blogsGrid p = Some (before ++ e :: after) ->
  Portfolio.blogsGridFirst p = true ->
  Portfolio.is_view_more e = true ->
  List.Forall (fun x => Portfolio.is_view_more x = false) before ->
  List.NoDup (List.map Portfolio.eid (before ++ e :: after)) ->
  Props.fresh_ids p ->
  Portfolio.timers p = [] ->
  (3 < length ps)%nat ->
  let p1 := Portfolio.displayProjects l p in
  let p2 := Portfolio.step p1 Portfolio.Toggle in
  let p3 := Portfolio.tick p2 in
  let p4 := Portfolio.tick p3 in
  let initial :=
    List.map Portfolio.ProjectCard (Portfolio.cards_from (take 3 ps) 0)
      ++ [Portfolio.viewMoreButton (Z.of_nat (length ps) - 3)] in
  let further :=
    List.map Portfolio.ProjectCard (Portfolio.cards_from (drop 3 ps) 3) in
  Portfolio.projects_view p1 = initial
  /\ Portfolio.projects_view p2 = initial
  /\ Portfolio.blogsGrid p2
     = Some (before
               ++ {| Portfolio.eid := Portfolio.eid e;
                     Portfolio.widget_of :=
                       Portfolio.loadingState (Portfolio.widget_of e) |}
               :: after)
  /\ Portfolio.projects_view p3 = initial ++ further
  /\ Portfolio.blogsGrid p3 = Some (before ++ after)
  /\ Portfolio.projects_view p4
     = initial ++ further ++ [Portfolio.showLessButton]
  /\ Portfolio.blogsGrid p4 = Some (before ++ after).
Proof.
  intros Hl Hg Hbg Hbf He Hbefore Hnd Hfresh Ht Hn p1 p2 p3 p4 initial further.
  pose proof (displayProjects_eq l p ps ch Hl Hg) as E. cbv zeta in E.
  fold p1 in E.
  assert (Hb3 : (3 <? Z.of_nat (length ps)) = true) by (apply Z.ltb_lt; lia).
  assert (Hlen3 : length (take 3 ps) = 3%nat) by (rewrite length_take; lia).
  rewrite Hb3, Hlen3 in E.
  set (cards := Props.card_elements (Portfolio.nextId p) (take 3 ps) 0) in *.
  set (b := {| Portfolio.eid := (Portfolio.nextId p + 3)%nat;
               Portfolio.widget_of :=
                 Portfolio.viewMoreButton (Z.of_nat (length ps) - 3) |}) in *.
  assert (H1 : Portfolio.projectsGrid p1 = Some (cards ++ [b])
               /\ Portfolio.heap p1 = Portfolio.heap p
               /\ Portfolio.allProjects p1 = Some l
               /\ Portfolio.timers p1 = []
               /\ Portfolio.blogsGrid p1 = Portfolio.blogsGrid p
               /\ Portfolio.blogsGridFirst p1 = Portfolio.blogsGridFirst p
               /\ Portfolio.nextId p1 = (Portfolio.nextId p + 4)%nat).
  { rewrite E. simpl. repeat split; try assumption; try reflexivity. lia. }
  destruct H1 as (Hg1 & Hh1 & Ha1 & Ht1 & Hb1 & Hf1 & Hn1).
  assert (Hold : (Portfolio.eid e < Portfolio.nextId p)%nat).
  { unfold Props.fresh_ids in Hfresh. rewrite List.Forall_forall in Hfresh.
    apply Hfresh. unfold Portfolio.grid_elements. rewrite Hbg, Hbf.
    apply in_or_app. left. apply in_or_app. right. left. reflexivity. }
  assert (Hnew : forall x, In x (cards ++ [b]) ->
                   Portfolio.eid x <> Portfolio.eid e).
  { intros x Hx. apply in_app_or in Hx as [Hx | [<- | []]].
    - destruct (card_elements_ids _ _ _ _ Hx) as [Hr _]. lia.
    - simpl. lia. }
  assert (Hview1 : Portfolio.projects_view p1 = initial).
  { unfold Portfolio.projects_view. rewrite Hg1, List.map_app.
    unfold cards. rewrite card_elements_widgets. reflexivity. }
  assert (Hq1 : Portfolio.query_view_more p1 = Some e).
  { unfold Portfolio.query_view_more, Portfolio.grid_elements.
    rewrite Hg1, Hb1, Hf1, Hbg, Hbf. rewrite <- app_assoc.
    rewrite find_skip
      by (intros x Hx; rewrite List.Forall_forall in Hbefore;
          apply Hbefore, Hx).
    simpl. rewrite He. reflexivity. }
  assert (Htoggle : p2 = Portfolio.expandProjectsView p1).
  { unfold p2. simpl. unfold Portfolio.toggleProjectsView. rewrite Hg1.
    unfold cards. rewrite project_cards_length.
    - rewrite Hlen3. reflexivity.
    - intros x [<- | []]. reflexivity. }
  rewrite <- Hh1 in Hl.
  pose proof (expanding p1 l ps (cards ++ [b]) e Ha1 Hl Hg1 Ht1 Hq1) as Hex.
  cbv zeta in Hex. rewrite <- Htoggle in Hex. fold p3 p4 in Hex.
  rewrite Hb1, Hbg in Hex. cbn [option_map] in Hex.
  destruct (update_widget_unique Portfolio.loadingState before after e Hnd)
    as [Hup Hrm].
  rewrite Hup, Hrm in Hex.
  rewrite (update_widget_other _ _ _ Hnew) in Hex.
  rewrite (remove_from_other _ _ Hnew) in Hex.
  destruct Hex as (Hg2 & Hb2 & Hg3 & Hb3' & Hg4 & Hb4 & _).
  assert (Hfur : List.map Portfolio.widget_of
                   (Props.card_elements (Portfolio.nextId p1) (drop 3 ps) 3)
                 = further)
    by apply card_elements_widgets.
  assert (Hinit : List.map Portfolio.widget_of (cards ++ [b]) = initial).
  { rewrite <- Hview1. unfold Portfolio.projects_view. rewrite Hg1.
    reflexivity. }
  unfold Portfolio.projects_view.
  rewrite Hg1, Hg2, Hg3, Hg4, !List.map_app, Hfur.
  rewrite <- List.map_app, Hinit, <- app_assoc.
  repeat split; assumption || reflexivity.
Qed.

Lemma X24_witness :
  Portfolio.blogsGrid
    (Portfolio.tick
       (Portfolio.step
          (Portfolio.displayProjects 0%nat GridSpec.page_blogs_first)
          Portfolio.Toggle))
  = Some [].
Proof.
  destruct (X24_expand_takes_the_first_container_of_the_document
              GridSpec.page_blogs_first 0%nat Props.five_projects []
              [] [] GridSpec.blogs_control)
    as (_ & _ & _ & _ & H & _).
  - apply lookup_insert_eq.
  - reflexivity.
  - reflexivity.
  - reflexivity.
  - reflexivity.
  - constructor.
  - repeat constructor. simpl. tauto.
  - repeat constructor.
  - reflexivity.
  - simpl. lia.
  - exact H.
Defined.

(* ================================================================== *)
(** * Navigation: where a link scrolls to and which link is marked *)
(* ================================================================== *)

Section TargetFacts.
Import JS Navigation QArith_base.
Local Open Scope Z_scope.

(** At the position that [smoothScrollTo] requests for a section, the
    band of a section contains the position exactly when it starts at most
    100 px below that section and ends more than 100 px below it. *)
Lemma within_target (pos : Q) (s x : section) :
  Qeq pos (inject_Z (offsetTop s - scrollOffset)) ->
  within pos x = true
  <-> offsetTop x <= offsetTop s + 100
      /\ offsetTop s + 100 < offsetTop x + offsetHeight x.
Proof.
  intros Hpos. rewrite within_spec. unfold scrollOffset in Hpos.
  rewrite Hpos, <- Zle_Qle, <- Zlt_Qlt. lia.
Qed.

End TargetFacts.

(** X26: a navigation link scrolls to 80 px above the top of its section,
    and [updateActiveNavLink] looks 180 px above.  With the page at the
    position that [smoothScrollTo] requests for a section, the section's
    own band contains the position exactly when the section is higher
    than 100 px; [updateActiveNavLink] then marks the links to that
    section, and only those, provided the sections after it start at or
    below its end.  For a section of at most 100 px the position lies
    outside the section's band, so its links are not marked on its
    account. *)
Theorem X26_link_target_and_active_band
    (w : Navigation.view) (pre post : list Navigation.section)
    (s : Navigation.section) (r : Navigation.reading) :
  Navigation.sections w = pre ++ s :: post ->
  Navigation.getElementById (Navigation.section_id s) (Navigation.anchors w)
  = Some (Navigation.offsetTop s) ->
  List.Forall
    (fun x => Navigation.offsetTop s + Navigation.offsetHeight s
              <= Navigation.offsetTop x) post ->
  QArith_base.Qeq (Navigation.getCurrentScrollPosition r)
    (QArith_base.inject_Z (Navigation.offsetTop s - 80)) ->
  let pos := Navigation.getCurrentScrollPosition r in
  Navigation.scrollRequests
    (Navigation.smoothScrollTo (Navigation.section_id s) w)
  = Navigation.scrollRequests w ++ [Navigation.offsetTop s - 80]
  /\ (Navigation.within pos s = true <-> 100 < Navigation.offsetHeight s)
  /\ (100 < Navigation.offsetHeight s ->
      Navigation.activeSection pos w = Navigation.section_id s
      /\ forall l,
           In l (Navigation.navLinks (Navigation.updateActiveNavLink r w)) ->
           (Navigation.link_active l = true
            <-> Navigation.href l = Some ("#" +:+ Navigation.section_id s))).
Proof.
  intros Hs Hid Hpost Hpos pos.
  assert (Hself : Navigation.within pos s = true
                  <-> 100 < Navigation.offsetHeight s).
  { rewrite (within_target pos s s Hpos). lia. }
  split; [|split; [exact Hself|]].
  - unfold Navigation.smoothScrollTo. rewrite Hid. reflexivity.
  - intros Hh.
    assert (Hact : Navigation.activeSection pos w = Navigation.section_id s).
    { unfold Navigation.activeSection. rewrite Hs, List.fold_left_app. simpl.
      apply Hself in Hh as Hin. rewrite Hin. apply active_none.
      eapply List.Forall_impl; [|exact Hpost]. intros x Hx. simpl in Hx.
      destruct (Navigation.within pos x) eqn:E; [|reflexivity].
      apply (within_target pos s x Hpos) in E. lia. }
    split; [exact Hact|].
    intros l Hin. unfold Navigation.updateActiveNavLink in Hin. simpl in Hin.
    apply List.in_map_iff in Hin as (l0 & <- & _). simpl.
    fold pos. rewrite Hact.
    destruct (Navigation.href l0) as [h|]; [|split; discriminate].
    rewrite String.eqb_eq. split; congruence.
Qed.

Lemma X26_witness :
  Navigation.activeSection
    (Navigation.getCurrentScrollPosition
       {| Navigation.pageYOffset := QArith_base.inject_Z 20;
          Navigation.scrollTop := QArith_base.inject_Z 0 |})
    {| Navigation.sections :=
         [{| Navigation.section_id := "about";
             Navigation.offsetTop := 100;
             Navigation.offsetHeight := 500 |}];
       Navigation.anchors := [("about"%string, 100)];
       Navigation.navLinks := [];
       Navigation.navbarScrolled := false;
       Navigation.scrollRequests := [] |}
  = "about"%string.
Proof.
  destruct (X26_link_target_and_active_band
              {| Navigation.sections :=
                   [{| Navigation.section_id := "about";
                       Navigation.offsetTop := 100;
                       Navigation.offsetHeight := 500 |}];
                 Navigation.anchors := [("about"%string, 100)];
                 Navigation.navLinks := [];
                 Navigation.navbarScrolled := false;
                 Navigation.scrollRequests := [] |}
              [] []
              {| Navigation.section_id := "about";
                 Navigation.offsetTop := 100;
                 Navigation.offsetHeight := 500 |}
              {| Navigation.pageYOffset := QArith_base.inject_Z 20;
                 Navigation.scrollTop := QArith_base.inject_Z 0 |})
    as (_ & _ & H).
  - reflexivity.
  - reflexivity.
  - constructor.
  - reflexivity.
  - apply H. simpl. lia.
Defined.

(* ================================================================== *)
(** * Markdown: markup in the content *)
(* ================================================================== *)

Section MarkupFacts.
Import JS Markdown Props.

Lemma find_first_occurs (d s : string) :
  occurs d s = false -> find_first d s = None.
Proof.
  induction s as [|c s IH]; simpl.
  - destruct (strip_prefix d EmptyString); [discriminate | reflexivity].
  - destruct (strip_prefix d (String c s)); [discriminate|].
    intros H. rewrite (IH H). reflexivity.
Qed.

End MarkupFacts.

(** X27: the converter does not escape markup.  A line that holds no
    asterisk, backtick or opening bracket, does not start with a heading
    marker, a list dash or a digit and does not contain [<li>] is returned
    as it is, whatever else it holds: angle brackets, ampersands and quotes
    stay, so an element written in the content is an element of the
    result. *)
Theorem X27_markup_is_not_escaped (s : string) :
  Props.lacks "*" s = true ->
  Props.lacks "`" s = true ->
  Props.lacks "[" s = true ->
  Props.lacks JS.nl s = true ->
  Props.lacks JS.cr s = true ->
  Props.plain_start s = true ->
  Props.occurs "<li>" s = false ->
  Markdown.convertMarkdownToHTML s = s.
Proof.
  intros Hs Hq Hb Hn Hr Hp Hli. unfold Markdown.convertMarkdownToHTML.
  rewrite (headers_single s Hn Hr Hp), (emphasis_id s Hs), (code_id s Hq).
  rewrite (lineBreaks_id s Hn).
  rewrite (lists_single s Hn Hr Hp (find_first_occurs _ _ Hli)).
  apply links_id, Hb.
Qed.

Lemma X27_witness :
  Markdown.convertMarkdownToHTML "<script>alert(1)</script>"
  = "<script>alert(1)</script>"%string.
Proof.
  apply X27_markup_is_not_escaped; reflexivity.
Defined.
